(** * Automated parcel sorting system: a shallow embedding

    The development follows the three Python modules of the repository:
    - [dobot_controller.py]: the arm controller (module [Dobot]);
    - [process.py]: the OCR record extraction (modules [Re] and [Process]);
    - [main.py]: the two-queue pipeline and its shutdown (module [Pipeline]).

    Python values are modelled as the interpreter has them: a [str] is a
    sequence of Unicode code points, a [dict] is a finite map, a call either
    returns a value or raises an exception. *)

From Stdlib Require Import ZArith NArith Floats Ascii String List Bool Lia.
From stdpp Require Import base option list gmap strings relations sorting.

Set Default Proof Using "Type".
(* Decimal literals such as 231.49 denote the nearest binary64 value, as
   in Python. *)
Set Warnings "-inexact-float".
Local Open Scope N_scope.

(* ===================================================================== *)
(** * Python strings *)
(* ===================================================================== *)

Module PyStr.

(** A Python [str]: the list of its code points. *)
Abbreviation str := (list N).

(** Decoding of an UTF-8 byte sequence; the source files are UTF-8, so
    string literals of this development are written as in the source and
    decoded with [py]. Ill-formed sequences are kept byte by byte. *)
Fixpoint utf8_decode (l : list N) : str :=
  match l with
  | [] => []
  | b1 :: t1 =>
    if b1 <? 0xC0 then b1 :: utf8_decode t1
    else match t1 with
    | [] => [b1]
    | b2 :: t2 =>
      if b1 <? 0xE0 then ((b1 - 0xC0) * 64 + (b2 - 0x80)) :: utf8_decode t2
      else match t2 with
      | [] => [b1; b2]
      | b3 :: t3 =>
        if b1 <? 0xF0
        then ((b1 - 0xE0) * 4096 + (b2 - 0x80) * 64 + (b3 - 0x80)) :: utf8_decode t3
        else match t3 with
        | [] => [b1; b2; b3]
        | b4 :: t4 =>
          ((b1 - 0xF0) * 262144 + (b2 - 0x80) * 4096 + (b3 - 0x80) * 64 + (b4 - 0x80))
            :: utf8_decode t4
        end
      end
    end
  end.

Fixpoint bytes_of_string (s : string) : list N :=
  match s with
  | EmptyString => []
  | String a s' => N_of_ascii a :: bytes_of_string s'
  end.

Definition py (s : string) : str := utf8_decode (bytes_of_string s).

(** ** Character classes

    The three tables are those of the Unicode database of CPython 3.11
    (Unicode 14.0): [str.isspace], which is also the regex class [\s] and
    the set [str.strip()] removes; [str.isdecimal], the regex class [\d];
    and [str.isalnum] with the underscore, the regex class [\w]. *)

Definition space_ranges : list (N * N) :=
  [
   (0x9, 0xD); (0x1C, 0x20); (0x85, 0x85); (0xA0, 0xA0); (0x1680, 0x1680);
   (0x2000, 0x200A); (0x2028, 0x2029); (0x202F, 0x202F); (0x205F, 0x205F); (0x3000, 0x3000)
  ].

Definition decimal_ranges : list (N * N) :=
  [
   (0x30, 0x39); (0x660, 0x669); (0x6F0, 0x6F9); (0x7C0, 0x7C9); (0x966, 0x96F);
   (0x9E6, 0x9EF); (0xA66, 0xA6F); (0xAE6, 0xAEF); (0xB66, 0xB6F); (0xBE6, 0xBEF);
   (0xC66, 0xC6F); (0xCE6, 0xCEF); (0xD66, 0xD6F); (0xDE6, 0xDEF); (0xE50, 0xE59);
   (0xED0, 0xED9); (0xF20, 0xF29); (0x1040, 0x1049); (0x1090, 0x1099); (0x17E0, 0x17E9);
   (0x1810, 0x1819); (0x1946, 0x194F); (0x19D0, 0x19D9); (0x1A80, 0x1A89); (0x1A90, 0x1A99);
   (0x1B50, 0x1B59); (0x1BB0, 0x1BB9); (0x1C40, 0x1C49); (0x1C50, 0x1C59); (0xA620, 0xA629);
   (0xA8D0, 0xA8D9); (0xA900, 0xA909); (0xA9D0, 0xA9D9); (0xA9F0, 0xA9F9); (0xAA50, 0xAA59);
   (0xABF0, 0xABF9); (0xFF10, 0xFF19); (0x104A0, 0x104A9); (0x10D30, 0x10D39); (0x11066, 0x1106F);
   (0x110F0, 0x110F9); (0x11136, 0x1113F); (0x111D0, 0x111D9); (0x112F0, 0x112F9); (0x11450, 0x11459);
   (0x114D0, 0x114D9); (0x11650, 0x11659); (0x116C0, 0x116C9); (0x11730, 0x11739); (0x118E0, 0x118E9);
   (0x11950, 0x11959); (0x11C50, 0x11C59); (0x11D50, 0x11D59); (0x11DA0, 0x11DA9); (0x16A60, 0x16A69);
   (0x16AC0, 0x16AC9); (0x16B50, 0x16B59); (0x1D7CE, 0x1D7FF); (0x1E140, 0x1E149); (0x1E2F0, 0x1E2F9);
   (0x1E950, 0x1E959); (0x1FBF0, 0x1FBF9)
  ].

Definition word_ranges : list (N * N) :=
  [
   (0x30, 0x39); (0x41, 0x5A); (0x5F, 0x5F); (0x61, 0x7A); (0xAA, 0xAA);
   (0xB2, 0xB3); (0xB5, 0xB5); (0xB9, 0xBA); (0xBC, 0xBE); (0xC0, 0xD6);
   (0xD8, 0xF6); (0xF8, 0x2C1); (0x2C6, 0x2D1); (0x2E0, 0x2E4); (0x2EC, 0x2EC);
   (0x2EE, 0x2EE); (0x370, 0x374); (0x376, 0x377); (0x37A, 0x37D); (0x37F, 0x37F);
   (0x386, 0x386); (0x388, 0x38A); (0x38C, 0x38C); (0x38E, 0x3A1); (0x3A3, 0x3F5);
   (0x3F7, 0x481); (0x48A, 0x52F); (0x531, 0x556); (0x559, 0x559); (0x560, 0x588);
   (0x5D0, 0x5EA); (0x5EF, 0x5F2); (0x620, 0x64A); (0x660, 0x669); (0x66E, 0x66F);
   (0x671, 0x6D3); (0x6D5, 0x6D5); (0x6E5, 0x6E6); (0x6EE, 0x6FC); (0x6FF, 0x6FF);
   (0x710, 0x710); (0x712, 0x72F); (0x74D, 0x7A5); (0x7B1, 0x7B1); (0x7C0, 0x7EA);
   (0x7F4, 0x7F5); (0x7FA, 0x7FA); (0x800, 0x815); (0x81A, 0x81A); (0x824, 0x824);
   (0x828, 0x828); (0x840, 0x858); (0x860, 0x86A); (0x870, 0x887); (0x889, 0x88E);
   (0x8A0, 0x8C9); (0x904, 0x939); (0x93D, 0x93D); (0x950, 0x950); (0x958, 0x961);
   (0x966, 0x96F); (0x971, 0x980); (0x985, 0x98C); (0x98F, 0x990); (0x993, 0x9A8);
   (0x9AA, 0x9B0); (0x9B2, 0x9B2); (0x9B6, 0x9B9); (0x9BD, 0x9BD); (0x9CE, 0x9CE);
   (0x9DC, 0x9DD); (0x9DF, 0x9E1); (0x9E6, 0x9F1); (0x9F4, 0x9F9); (0x9FC, 0x9FC);
   (0xA05, 0xA0A); (0xA0F, 0xA10); (0xA13, 0xA28); (0xA2A, 0xA30); (0xA32, 0xA33);
   (0xA35, 0xA36); (0xA38, 0xA39); (0xA59, 0xA5C); (0xA5E, 0xA5E); (0xA66, 0xA6F);
   (0xA72, 0xA74); (0xA85, 0xA8D); (0xA8F, 0xA91); (0xA93, 0xAA8); (0xAAA, 0xAB0);
   (0xAB2, 0xAB3); (0xAB5, 0xAB9); (0xABD, 0xABD); (0xAD0, 0xAD0); (0xAE0, 0xAE1);
   (0xAE6, 0xAEF); (0xAF9, 0xAF9); (0xB05, 0xB0C); (0xB0F, 0xB10); (0xB13, 0xB28);
   (0xB2A, 0xB30); (0xB32, 0xB33); (0xB35, 0xB39); (0xB3D, 0xB3D); (0xB5C, 0xB5D);
   (0xB5F, 0xB61); (0xB66, 0xB6F); (0xB71, 0xB77); (0xB83, 0xB83); (0xB85, 0xB8A);
   (0xB8E, 0xB90); (0xB92, 0xB95); (0xB99, 0xB9A); (0xB9C, 0xB9C); (0xB9E, 0xB9F);
   (0xBA3, 0xBA4); (0xBA8, 0xBAA); (0xBAE, 0xBB9); (0xBD0, 0xBD0); (0xBE6, 0xBF2);
   (0xC05, 0xC0C); (0xC0E, 0xC10); (0xC12, 0xC28); (0xC2A, 0xC39); (0xC3D, 0xC3D);
   (0xC58, 0xC5A); (0xC5D, 0xC5D); (0xC60, 0xC61); (0xC66, 0xC6F); (0xC78, 0xC7E);
   (0xC80, 0xC80); (0xC85, 0xC8C); (0xC8E, 0xC90); (0xC92, 0xCA8); (0xCAA, 0xCB3);
   (0xCB5, 0xCB9); (0xCBD, 0xCBD); (0xCDD, 0xCDE); (0xCE0, 0xCE1); (0xCE6, 0xCEF);
   (0xCF1, 0xCF2); (0xD04, 0xD0C); (0xD0E, 0xD10); (0xD12, 0xD3A); (0xD3D, 0xD3D);
   (0xD4E, 0xD4E); (0xD54, 0xD56); (0xD58, 0xD61); (0xD66, 0xD78); (0xD7A, 0xD7F);
   (0xD85, 0xD96); (0xD9A, 0xDB1); (0xDB3, 0xDBB); (0xDBD, 0xDBD); (0xDC0, 0xDC6);
   (0xDE6, 0xDEF); (0xE01, 0xE30); (0xE32, 0xE33); (0xE40, 0xE46); (0xE50, 0xE59);
   (0xE81, 0xE82); (0xE84, 0xE84); (0xE86, 0xE8A); (0xE8C, 0xEA3); (0xEA5, 0xEA5);
   (0xEA7, 0xEB0); (0xEB2, 0xEB3); (0xEBD, 0xEBD); (0xEC0, 0xEC4); (0xEC6, 0xEC6);
   (0xED0, 0xED9); (0xEDC, 0xEDF); (0xF00, 0xF00); (0xF20, 0xF33); (0xF40, 0xF47);
   (0xF49, 0xF6C); (0xF88, 0xF8C); (0x1000, 0x102A); (0x103F, 0x1049); (0x1050, 0x1055);
   (0x105A, 0x105D); (0x1061, 0x1061); (0x1065, 0x1066); (0x106E, 0x1070); (0x1075, 0x1081);
   (0x108E, 0x108E); (0x1090, 0x1099); (0x10A0, 0x10C5); (0x10C7, 0x10C7); (0x10CD, 0x10CD);
   (0x10D0, 0x10FA); (0x10FC, 0x1248); (0x124A, 0x124D); (0x1250, 0x1256); (0x1258, 0x1258);
   (0x125A, 0x125D); (0x1260, 0x1288); (0x128A, 0x128D); (0x1290, 0x12B0); (0x12B2, 0x12B5);
   (0x12B8, 0x12BE); (0x12C0, 0x12C0); (0x12C2, 0x12C5); (0x12C8, 0x12D6); (0x12D8, 0x1310);
   (0x1312, 0x1315); (0x1318, 0x135A); (0x1369, 0x137C); (0x1380, 0x138F); (0x13A0, 0x13F5);
   (0x13F8, 0x13FD); (0x1401, 0x166C); (0x166F, 0x167F); (0x1681, 0x169A); (0x16A0, 0x16EA);
   (0x16EE, 0x16F8); (0x1700, 0x1711); (0x171F, 0x1731); (0x1740, 0x1751); (0x1760, 0x176C);
   (0x176E, 0x1770); (0x1780, 0x17B3); (0x17D7, 0x17D7); (0x17DC, 0x17DC); (0x17E0, 0x17E9);
   (0x17F0, 0x17F9); (0x1810, 0x1819); (0x1820, 0x1878); (0x1880, 0x1884); (0x1887, 0x18A8);
   (0x18AA, 0x18AA); (0x18B0, 0x18F5); (0x1900, 0x191E); (0x1946, 0x196D); (0x1970, 0x1974);
   (0x1980, 0x19AB); (0x19B0, 0x19C9); (0x19D0, 0x19DA); (0x1A00, 0x1A16); (0x1A20, 0x1A54);
   (0x1A80, 0x1A89); (0x1A90, 0x1A99); (0x1AA7, 0x1AA7); (0x1B05, 0x1B33); (0x1B45, 0x1B4C);
   (0x1B50, 0x1B59); (0x1B83, 0x1BA0); (0x1BAE, 0x1BE5); (0x1C00, 0x1C23); (0x1C40, 0x1C49);
   (0x1C4D, 0x1C7D); (0x1C80, 0x1C88); (0x1C90, 0x1CBA); (0x1CBD, 0x1CBF); (0x1CE9, 0x1CEC);
   (0x1CEE, 0x1CF3); (0x1CF5, 0x1CF6); (0x1CFA, 0x1CFA); (0x1D00, 0x1DBF); (0x1E00, 0x1F15);
   (0x1F18, 0x1F1D); (0x1F20, 0x1F45); (0x1F48, 0x1F4D); (0x1F50, 0x1F57); (0x1F59, 0x1F59);
   (0x1F5B, 0x1F5B); (0x1F5D, 0x1F5D); (0x1F5F, 0x1F7D); (0x1F80, 0x1FB4); (0x1FB6, 0x1FBC);
   (0x1FBE, 0x1FBE); (0x1FC2, 0x1FC4); (0x1FC6, 0x1FCC); (0x1FD0, 0x1FD3); (0x1FD6, 0x1FDB);
   (0x1FE0, 0x1FEC); (0x1FF2, 0x1FF4); (0x1FF6, 0x1FFC); (0x2070, 0x2071); (0x2074, 0x2079);
   (0x207F, 0x2089); (0x2090, 0x209C); (0x2102, 0x2102); (0x2107, 0x2107); (0x210A, 0x2113);
   (0x2115, 0x2115); (0x2119, 0x211D); (0x2124, 0x2124); (0x2126, 0x2126); (0x2128, 0x2128);
   (0x212A, 0x212D); (0x212F, 0x2139); (0x213C, 0x213F); (0x2145, 0x2149); (0x214E, 0x214E);
   (0x2150, 0x2189); (0x2460, 0x249B); (0x24EA, 0x24FF); (0x2776, 0x2793); (0x2C00, 0x2CE4);
   (0x2CEB, 0x2CEE); (0x2CF2, 0x2CF3); (0x2CFD, 0x2CFD); (0x2D00, 0x2D25); (0x2D27, 0x2D27);
   (0x2D2D, 0x2D2D); (0x2D30, 0x2D67); (0x2D6F, 0x2D6F); (0x2D80, 0x2D96); (0x2DA0, 0x2DA6);
   (0x2DA8, 0x2DAE); (0x2DB0, 0x2DB6); (0x2DB8, 0x2DBE); (0x2DC0, 0x2DC6); (0x2DC8, 0x2DCE);
   (0x2DD0, 0x2DD6); (0x2DD8, 0x2DDE); (0x2E2F, 0x2E2F); (0x3005, 0x3007); (0x3021, 0x3029);
   (0x3031, 0x3035); (0x3038, 0x303C); (0x3041, 0x3096); (0x309D, 0x309F); (0x30A1, 0x30FA);
   (0x30FC, 0x30FF); (0x3105, 0x312F); (0x3131, 0x318E); (0x3192, 0x3195); (0x31A0, 0x31BF);
   (0x31F0, 0x31FF); (0x3220, 0x3229); (0x3248, 0x324F); (0x3251, 0x325F); (0x3280, 0x3289);
   (0x32B1, 0x32BF); (0x3400, 0x4DBF); (0x4E00, 0xA48C); (0xA4D0, 0xA4FD); (0xA500, 0xA60C);
   (0xA610, 0xA62B); (0xA640, 0xA66E); (0xA67F, 0xA69D); (0xA6A0, 0xA6EF); (0xA717, 0xA71F);
   (0xA722, 0xA788); (0xA78B, 0xA7CA); (0xA7D0, 0xA7D1); (0xA7D3, 0xA7D3); (0xA7D5, 0xA7D9);
   (0xA7F2, 0xA801); (0xA803, 0xA805); (0xA807, 0xA80A); (0xA80C, 0xA822); (0xA830, 0xA835);
   (0xA840, 0xA873); (0xA882, 0xA8B3); (0xA8D0, 0xA8D9); (0xA8F2, 0xA8F7); (0xA8FB, 0xA8FB);
   (0xA8FD, 0xA8FE); (0xA900, 0xA925); (0xA930, 0xA946); (0xA960, 0xA97C); (0xA984, 0xA9B2);
   (0xA9CF, 0xA9D9); (0xA9E0, 0xA9E4); (0xA9E6, 0xA9FE); (0xAA00, 0xAA28); (0xAA40, 0xAA42);
   (0xAA44, 0xAA4B); (0xAA50, 0xAA59); (0xAA60, 0xAA76); (0xAA7A, 0xAA7A); (0xAA7E, 0xAAAF);
   (0xAAB1, 0xAAB1); (0xAAB5, 0xAAB6); (0xAAB9, 0xAABD); (0xAAC0, 0xAAC0); (0xAAC2, 0xAAC2);
   (0xAADB, 0xAADD); (0xAAE0, 0xAAEA); (0xAAF2, 0xAAF4); (0xAB01, 0xAB06); (0xAB09, 0xAB0E);
   (0xAB11, 0xAB16); (0xAB20, 0xAB26); (0xAB28, 0xAB2E); (0xAB30, 0xAB5A); (0xAB5C, 0xAB69);
   (0xAB70, 0xABE2); (0xABF0, 0xABF9); (0xAC00, 0xD7A3); (0xD7B0, 0xD7C6); (0xD7CB, 0xD7FB);
   (0xF900, 0xFA6D); (0xFA70, 0xFAD9); (0xFB00, 0xFB06); (0xFB13, 0xFB17); (0xFB1D, 0xFB1D);
   (0xFB1F, 0xFB28); (0xFB2A, 0xFB36); (0xFB38, 0xFB3C); (0xFB3E, 0xFB3E); (0xFB40, 0xFB41);
   (0xFB43, 0xFB44); (0xFB46, 0xFBB1); (0xFBD3, 0xFD3D); (0xFD50, 0xFD8F); (0xFD92, 0xFDC7);
   (0xFDF0, 0xFDFB); (0xFE70, 0xFE74); (0xFE76, 0xFEFC); (0xFF10, 0xFF19); (0xFF21, 0xFF3A);
   (0xFF41, 0xFF5A); (0xFF66, 0xFFBE); (0xFFC2, 0xFFC7); (0xFFCA, 0xFFCF); (0xFFD2, 0xFFD7);
   (0xFFDA, 0xFFDC); (0x10000, 0x1000B); (0x1000D, 0x10026); (0x10028, 0x1003A); (0x1003C, 0x1003D);
   (0x1003F, 0x1004D); (0x10050, 0x1005D); (0x10080, 0x100FA); (0x10107, 0x10133); (0x10140, 0x10178);
   (0x1018A, 0x1018B); (0x10280, 0x1029C); (0x102A0, 0x102D0); (0x102E1, 0x102FB); (0x10300, 0x10323);
   (0x1032D, 0x1034A); (0x10350, 0x10375); (0x10380, 0x1039D); (0x103A0, 0x103C3); (0x103C8, 0x103CF);
   (0x103D1, 0x103D5); (0x10400, 0x1049D); (0x104A0, 0x104A9); (0x104B0, 0x104D3); (0x104D8, 0x104FB);
   (0x10500, 0x10527); (0x10530, 0x10563); (0x10570, 0x1057A); (0x1057C, 0x1058A); (0x1058C, 0x10592);
   (0x10594, 0x10595); (0x10597, 0x105A1); (0x105A3, 0x105B1); (0x105B3, 0x105B9); (0x105BB, 0x105BC);
   (0x10600, 0x10736); (0x10740, 0x10755); (0x10760, 0x10767); (0x10780, 0x10785); (0x10787, 0x107B0);
   (0x107B2, 0x107BA); (0x10800, 0x10805); (0x10808, 0x10808); (0x1080A, 0x10835); (0x10837, 0x10838);
   (0x1083C, 0x1083C); (0x1083F, 0x10855); (0x10858, 0x10876); (0x10879, 0x1089E); (0x108A7, 0x108AF);
   (0x108E0, 0x108F2); (0x108F4, 0x108F5); (0x108FB, 0x1091B); (0x10920, 0x10939); (0x10980, 0x109B7);
   (0x109BC, 0x109CF); (0x109D2, 0x10A00); (0x10A10, 0x10A13); (0x10A15, 0x10A17); (0x10A19, 0x10A35);
   (0x10A40, 0x10A48); (0x10A60, 0x10A7E); (0x10A80, 0x10A9F); (0x10AC0, 0x10AC7); (0x10AC9, 0x10AE4);
   (0x10AEB, 0x10AEF); (0x10B00, 0x10B35); (0x10B40, 0x10B55); (0x10B58, 0x10B72); (0x10B78, 0x10B91);
   (0x10BA9, 0x10BAF); (0x10C00, 0x10C48); (0x10C80, 0x10CB2); (0x10CC0, 0x10CF2); (0x10CFA, 0x10D23);
   (0x10D30, 0x10D39); (0x10E60, 0x10E7E); (0x10E80, 0x10EA9); (0x10EB0, 0x10EB1); (0x10F00, 0x10F27);
   (0x10F30, 0x10F45); (0x10F51, 0x10F54); (0x10F70, 0x10F81); (0x10FB0, 0x10FCB); (0x10FE0, 0x10FF6);
   (0x11003, 0x11037); (0x11052, 0x1106F); (0x11071, 0x11072); (0x11075, 0x11075); (0x11083, 0x110AF);
   (0x110D0, 0x110E8); (0x110F0, 0x110F9); (0x11103, 0x11126); (0x11136, 0x1113F); (0x11144, 0x11144);
   (0x11147, 0x11147); (0x11150, 0x11172); (0x11176, 0x11176); (0x11183, 0x111B2); (0x111C1, 0x111C4);
   (0x111D0, 0x111DA); (0x111DC, 0x111DC); (0x111E1, 0x111F4); (0x11200, 0x11211); (0x11213, 0x1122B);
   (0x11280, 0x11286); (0x11288, 0x11288); (0x1128A, 0x1128D); (0x1128F, 0x1129D); (0x1129F, 0x112A8);
   (0x112B0, 0x112DE); (0x112F0, 0x112F9); (0x11305, 0x1130C); (0x1130F, 0x11310); (0x11313, 0x11328);
   (0x1132A, 0x11330); (0x11332, 0x11333); (0x11335, 0x11339); (0x1133D, 0x1133D); (0x11350, 0x11350);
   (0x1135D, 0x11361); (0x11400, 0x11434); (0x11447, 0x1144A); (0x11450, 0x11459); (0x1145F, 0x11461);
   (0x11480, 0x114AF); (0x114C4, 0x114C5); (0x114C7, 0x114C7); (0x114D0, 0x114D9); (0x11580, 0x115AE);
   (0x115D8, 0x115DB); (0x11600, 0x1162F); (0x11644, 0x11644); (0x11650, 0x11659); (0x11680, 0x116AA);
   (0x116B8, 0x116B8); (0x116C0, 0x116C9); (0x11700, 0x1171A); (0x11730, 0x1173B); (0x11740, 0x11746);
   (0x11800, 0x1182B); (0x118A0, 0x118F2); (0x118FF, 0x11906); (0x11909, 0x11909); (0x1190C, 0x11913);
   (0x11915, 0x11916); (0x11918, 0x1192F); (0x1193F, 0x1193F); (0x11941, 0x11941); (0x11950, 0x11959);
   (0x119A0, 0x119A7); (0x119AA, 0x119D0); (0x119E1, 0x119E1); (0x119E3, 0x119E3); (0x11A00, 0x11A00);
   (0x11A0B, 0x11A32); (0x11A3A, 0x11A3A); (0x11A50, 0x11A50); (0x11A5C, 0x11A89); (0x11A9D, 0x11A9D);
   (0x11AB0, 0x11AF8); (0x11C00, 0x11C08); (0x11C0A, 0x11C2E); (0x11C40, 0x11C40); (0x11C50, 0x11C6C);
   (0x11C72, 0x11C8F); (0x11D00, 0x11D06); (0x11D08, 0x11D09); (0x11D0B, 0x11D30); (0x11D46, 0x11D46);
   (0x11D50, 0x11D59); (0x11D60, 0x11D65); (0x11D67, 0x11D68); (0x11D6A, 0x11D89); (0x11D98, 0x11D98);
   (0x11DA0, 0x11DA9); (0x11EE0, 0x11EF2); (0x11FB0, 0x11FB0); (0x11FC0, 0x11FD4); (0x12000, 0x12399);
   (0x12400, 0x1246E); (0x12480, 0x12543); (0x12F90, 0x12FF0); (0x13000, 0x1342E); (0x14400, 0x14646);
   (0x16800, 0x16A38); (0x16A40, 0x16A5E); (0x16A60, 0x16A69); (0x16A70, 0x16ABE); (0x16AC0, 0x16AC9);
   (0x16AD0, 0x16AED); (0x16B00, 0x16B2F); (0x16B40, 0x16B43); (0x16B50, 0x16B59); (0x16B5B, 0x16B61);
   (0x16B63, 0x16B77); (0x16B7D, 0x16B8F); (0x16E40, 0x16E96); (0x16F00, 0x16F4A); (0x16F50, 0x16F50);
   (0x16F93, 0x16F9F); (0x16FE0, 0x16FE1); (0x16FE3, 0x16FE3); (0x17000, 0x187F7); (0x18800, 0x18CD5);
   (0x18D00, 0x18D08); (0x1AFF0, 0x1AFF3); (0x1AFF5, 0x1AFFB); (0x1AFFD, 0x1AFFE); (0x1B000, 0x1B122);
   (0x1B150, 0x1B152); (0x1B164, 0x1B167); (0x1B170, 0x1B2FB); (0x1BC00, 0x1BC6A); (0x1BC70, 0x1BC7C);
   (0x1BC80, 0x1BC88); (0x1BC90, 0x1BC99); (0x1D2E0, 0x1D2F3); (0x1D360, 0x1D378); (0x1D400, 0x1D454);
   (0x1D456, 0x1D49C); (0x1D49E, 0x1D49F); (0x1D4A2, 0x1D4A2); (0x1D4A5, 0x1D4A6); (0x1D4A9, 0x1D4AC);
   (0x1D4AE, 0x1D4B9); (0x1D4BB, 0x1D4BB); (0x1D4BD, 0x1D4C3); (0x1D4C5, 0x1D505); (0x1D507, 0x1D50A);
   (0x1D50D, 0x1D514); (0x1D516, 0x1D51C); (0x1D51E, 0x1D539); (0x1D53B, 0x1D53E); (0x1D540, 0x1D544);
   (0x1D546, 0x1D546); (0x1D54A, 0x1D550); (0x1D552, 0x1D6A5); (0x1D6A8, 0x1D6C0); (0x1D6C2, 0x1D6DA);
   (0x1D6DC, 0x1D6FA); (0x1D6FC, 0x1D714); (0x1D716, 0x1D734); (0x1D736, 0x1D74E); (0x1D750, 0x1D76E);
   (0x1D770, 0x1D788); (0x1D78A, 0x1D7A8); (0x1D7AA, 0x1D7C2); (0x1D7C4, 0x1D7CB); (0x1D7CE, 0x1D7FF);
   (0x1DF00, 0x1DF1E); (0x1E100, 0x1E12C); (0x1E137, 0x1E13D); (0x1E140, 0x1E149); (0x1E14E, 0x1E14E);
   (0x1E290, 0x1E2AD); (0x1E2C0, 0x1E2EB); (0x1E2F0, 0x1E2F9); (0x1E7E0, 0x1E7E6); (0x1E7E8, 0x1E7EB);
   (0x1E7ED, 0x1E7EE); (0x1E7F0, 0x1E7FE); (0x1E800, 0x1E8C4); (0x1E8C7, 0x1E8CF); (0x1E900, 0x1E943);
   (0x1E94B, 0x1E94B); (0x1E950, 0x1E959); (0x1EC71, 0x1ECAB); (0x1ECAD, 0x1ECAF); (0x1ECB1, 0x1ECB4);
   (0x1ED01, 0x1ED2D); (0x1ED2F, 0x1ED3D); (0x1EE00, 0x1EE03); (0x1EE05, 0x1EE1F); (0x1EE21, 0x1EE22);
   (0x1EE24, 0x1EE24); (0x1EE27, 0x1EE27); (0x1EE29, 0x1EE32); (0x1EE34, 0x1EE37); (0x1EE39, 0x1EE39);
   (0x1EE3B, 0x1EE3B); (0x1EE42, 0x1EE42); (0x1EE47, 0x1EE47); (0x1EE49, 0x1EE49); (0x1EE4B, 0x1EE4B);
   (0x1EE4D, 0x1EE4F); (0x1EE51, 0x1EE52); (0x1EE54, 0x1EE54); (0x1EE57, 0x1EE57); (0x1EE59, 0x1EE59);
   (0x1EE5B, 0x1EE5B); (0x1EE5D, 0x1EE5D); (0x1EE5F, 0x1EE5F); (0x1EE61, 0x1EE62); (0x1EE64, 0x1EE64);
   (0x1EE67, 0x1EE6A); (0x1EE6C, 0x1EE72); (0x1EE74, 0x1EE77); (0x1EE79, 0x1EE7C); (0x1EE7E, 0x1EE7E);
   (0x1EE80, 0x1EE89); (0x1EE8B, 0x1EE9B); (0x1EEA1, 0x1EEA3); (0x1EEA5, 0x1EEA9); (0x1EEAB, 0x1EEBB);
   (0x1F100, 0x1F10C); (0x1FBF0, 0x1FBF9); (0x20000, 0x2A6DF); (0x2A700, 0x2B738); (0x2B740, 0x2B81D);
   (0x2B820, 0x2CEA1); (0x2CEB0, 0x2EBE0); (0x2F800, 0x2FA1D); (0x30000, 0x3134A)
  ].

Fixpoint in_ranges (c : N) (l : list (N * N)) : bool :=
  match l with
  | [] => false
  | (lo, hi) :: t => ((lo <=? c) && (c <=? hi)) || in_ranges c t
  end.

Definition isspace (c : N) : bool := in_ranges c space_ranges.
Definition isdecimal (c : N) : bool := in_ranges c decimal_ranges.
Definition isword (c : N) : bool := in_ranges c word_ranges.

(** ** String methods *)

Fixpoint lstrip (s : str) : str :=
  match s with
  | [] => []
  | c :: t => if isspace c then lstrip t else s
  end.

Definition rstrip (s : str) : str := rev (lstrip (rev s)).

(** [s.strip()] *)
Definition strip (s : str) : str := rstrip (lstrip s).

(** [s[i:j]] for non-negative [i] and [j] *)
Definition slice (s : str) (i j : nat) : str := take (j - i) (drop i s).

Fixpoint startswith (p s : str) : bool :=
  match p, s with
  | [], _ => true
  | _ :: _, [] => false
  | a :: p', b :: s' => (a =? b) && startswith p' s'
  end.

(** [sub in s] *)
Fixpoint contains (sub s : str) : bool :=
  startswith sub s ||
  match s with
  | [] => false
  | _ :: t => contains sub t
  end.

Definition str_eqb (a b : str) : bool := bool_decide (a = b).

(** [s.replace(" ", "")] *)
Definition remove_spaces (s : str) : str := filter (fun c => c <> 32) s.

(** [s.split('\n')] *)
Fixpoint split_lines (s : str) : list str :=
  match s with
  | [] => [[]]
  | c :: t =>
    if c =? 10 then [] :: split_lines t
    else match split_lines t with
         | [] => [[c]]
         | l :: ls => (c :: l) :: ls
         end
  end.

(** ['\n'.join(ls)] *)
Fixpoint join_lines (ls : list str) : str :=
  match ls with
  | [] => []
  | [l] => l
  | l :: ls' => l ++ 10 :: join_lines ls'
  end.

End PyStr.
Import PyStr.

(* ===================================================================== *)
(** * Outcomes of Python calls *)
(* ===================================================================== *)

Module Py.

(** [except Exception] catches the first class only; a bare [except:]
    catches both ([KeyboardInterrupt], [SystemExit] are in the second). *)
Inductive exn :=
| Exception (name : string)
| BaseException (name : string).

Inductive outcome (A : Type) :=
| Returns (a : A)
| Raises (e : exn).
Arguments Returns {A} a.
Arguments Raises {A} e.

Definition is_Exception (e : exn) : bool :=
  match e with Exception _ => true | BaseException _ => false end.

(** ** Calls without side effect on an object *)

Definition obind {A B} (m : outcome A) (f : A -> outcome B) : outcome B :=
  match m with
  | Returns a => f a
  | Raises e => Raises e
  end.

(** ** Methods: the object [S] is threaded through, and a mutation made
    before an exception stays made. *)
Definition M (S A : Type) : Type := S -> outcome A * S.

Section Monad.
Context {S : Type}.

Definition ret {A} (a : A) : M S A := fun s => (Returns a, s).
Definition raise {A} (e : exn) : M S A := fun s => (Raises e, s).
Definition bind {A B} (m : M S A) (f : A -> M S B) : M S B :=
  fun s => match m s with
           | (Returns a, s') => f a s'
           | (Raises e, s') => (Raises e, s')
           end.
Definition get : M S S := fun s => (Returns s, s).
Definition modify (f : S -> S) : M S unit := fun s => (Returns tt, f s).

(** [try: m except Exception as e: h e] *)
Definition try_except_Exception {A} (m : M S A) (h : exn -> M S A) : M S A :=
  fun s => match m s with
           | (Raises (Exception n), s') => h (Exception n) s'
           | r => r
           end.

(** [try: m except: h] *)
Definition try_except {A} (m : M S A) (h : M S A) : M S A :=
  fun s => match m s with
           | (Raises _, s') => h s'
           | r => r
           end.

End Monad.

(** A method that returns on every object. *)
Definition total {S A} (m : M S A) : Prop :=
  forall s, exists a s', m s = (Returns a, s').

(** A function whose body is [try: m except Exception: print(...)] on an
    object it then returns: the object as the body left it. *)
Definition returning {S} (m : M S unit) (s0 : S) : outcome S :=
  match try_except_Exception m (fun _ => ret tt) s0 with
  | (Returns _, s) => Returns s
  | (Raises e, _) => Raises e
  end.

Declare Scope py_scope.
Delimit Scope py_scope with py.
Notation "x <- m ;; k" := (bind m (fun x => k))
  (at level 100, m at level 99, k at level 200, right associativity) : py_scope.
Notation "m ;; k" := (bind m (fun _ => k))
  (at level 100, k at level 200, right associativity) : py_scope.
Notation "x <~ m ;; k" := (obind m (fun x => k))
  (at level 100, m at level 99, k at level 200, right associativity) : py_scope.

End Py.
Import Py.

(* ===================================================================== *)
(** * dobot_controller.py *)
(* ===================================================================== *)

Module Dobot.

(** Commands of the vendor object ([pydobot.Dobot]) the controller uses. *)
Inductive cmd :=
| VMoveTo (x y z r : float) (wait : bool)
| VSuck (enable : bool)
| VSpeed (velocity acceleration : Z)
| VClose.

(** The vendor object: given the commands it has received so far, the
    next command either completes ([None]) or raises. *)
Record Device := { respond : list cmd -> cmd -> option exn }.

Record Stats := {
  total_picks : nat;
  successful_drops : nat;
  failed_drops : nat;
  by_province : gmap str nat
}.

Record DobotController := {
  port : string;
  speed : Z;
  simulation_mode : bool;
  dobot : option Device;
  is_connected : bool;
  DROP_POINTS : gmap str (list float);   (* class attribute, mutable *)
  stats : Stats;
  issued : list cmd                      (* what the vendor object received *)
}.

Definition HOME : list float := [125.92; 177.82; 42.11; 54.70]%float.
Definition PICKUP : list float := [-8.51; 215.85; -8.19; 92.26]%float.
Definition SAFETY_Z : float := 50.0%float.
Definition RESERVE : str := py "จุดสำรอง".

Definition DROP_POINTS_0 : gmap str (list float) :=
  <[py "นครนายก" := [231.49; 0.25; -18.38; 0.06]%float]>
  (<[py "นครสวรรค์" := [232.60; 140.08; -19.86; 31.06]%float]>
  (<[py "เชียงใหม่" := [231.49; 0.25; -18.38; 0.06]%float]>
  (<[py "สระบุรี" := [232.60; 140.08; -19.86; 31.06]%float]> ∅))).

Definition stats_0 : Stats :=
  {| total_picks := 0; successful_drops := 0; failed_drops := 0; by_province := ∅ |}.

(** [DobotController.__init__] *)
Definition init (port : string) (speed : Z) (simulation_mode : bool) : DobotController :=
  {| port := port; speed := speed; simulation_mode := simulation_mode;
     dobot := None; is_connected := false;
     DROP_POINTS := DROP_POINTS_0; stats := stats_0; issued := [] |}.

(** Methods of the controller run in the state-and-exception monad over
    the controller object. *)
Abbreviation M := (Py.M DobotController).
Local Open Scope py_scope.

Definition set_stats (f : Stats -> Stats) : M unit :=
  modify (fun s =>
    {| port := port s; speed := speed s; simulation_mode := simulation_mode s;
       dobot := dobot s; is_connected := is_connected s;
       DROP_POINTS := DROP_POINTS s; stats := f (stats s); issued := issued s |}).

Definition incr_failed_drops : M unit :=
  set_stats (fun t =>
    {| total_picks := total_picks t; successful_drops := successful_drops t;
       failed_drops := S (failed_drops t); by_province := by_province t |}).

Definition record_success (target : str) : M unit :=
  set_stats (fun t =>
    {| total_picks := S (total_picks t);
       successful_drops := S (successful_drops t);
       failed_drops := failed_drops t;
       by_province :=
         <[target := S (default 0%nat (by_province t !! target))]> (by_province t) |}).

Definition set_issued (l : list cmd) (s : DobotController) : DobotController :=
  {| port := port s; speed := speed s; simulation_mode := simulation_mode s;
     dobot := dobot s; is_connected := is_connected s;
     DROP_POINTS := DROP_POINTS s; stats := stats s; issued := l |}.

(** A call on the vendor object: it is recorded, and it returns or raises
    as the object decides. *)
Definition vendor (d : Device) (c : cmd) : M unit :=
  fun s =>
    let s' := set_issued (issued s ++ [c]) s in
    match respond d (issued s) c with
    | None => (Returns tt, s')
    | Some e => (Raises e, s')
    end.

(** [l[i]] on a Python list *)
Definition index (l : list float) (i : nat) : M float :=
  match l !! i with
  | Some x => ret x
  | None => raise (Exception "IndexError")
  end.

(** [move_to(x, y, z, r, message, wait=True)]; printing and the simulated
    [time.sleep] leave the controller as it is. *)
Definition move_to (x y z r : float) : M unit :=
  s <- get ;;
  if simulation_mode s then ret tt
  else match dobot s with
       | Some d =>
         try_except_Exception (vendor d (VMoveTo x y z r true)) (fun _ => ret tt)
       | None => ret tt
       end.

(** [move_to] applied to an unpacked four-element list *)
Definition move_to_star (l : list float) : M unit :=
  match l with
  | [x; y; z; r] => move_to x y z r
  | _ => raise (Exception "TypeError")
  end.

Definition suction (enable : bool) : M unit :=
  s <- get ;;
  if simulation_mode s then ret tt
  else match dobot s with
       | Some d => try_except_Exception (vendor d (VSuck enable)) (fun _ => ret tt)
       | None => ret tt
       end.

Definition suction_on : M unit := suction true.
Definition suction_off : M unit := suction false.

Definition move_home : M unit := move_to_star HOME.

Definition move_to_pickup : M unit :=
  x <- index PICKUP 0 ;;
  y <- index PICKUP 1 ;;
  r <- index PICKUP 3 ;;
  move_to x y SAFETY_Z r ;;
  move_to_star PICKUP.

(** [if not drop_point]: [None] and the empty list are both falsy. *)
Definition falsy_drop_point (o : option (list float)) : bool :=
  match o with
  | None | Some [] => true
  | Some (_ :: _) => false
  end.

Definition move_to_drop (province : str) : M bool :=
  s <- get ;;
  let drop_point := DROP_POINTS s !! province in
  if falsy_drop_point drop_point then ret false
  else
    let l := default [] drop_point in
    x <- index l 0 ;;
    y <- index l 1 ;;
    r <- index l 3 ;;
    move_to x y SAFETY_Z r ;;
    move_to_star l ;;
    ret true.

(** [self.DROP_POINTS[target_province]] *)
Definition drop_point_of (target : str) : M (list float) :=
  s <- get ;;
  match DROP_POINTS s !! target with
  | Some l => ret l
  | None => raise (Exception "KeyError")
  end.

(** The [try] block of [pick_and_place]. *)
Definition pick_sequence (province : str) : M bool :=
  move_to_pickup ;;
  suction_on ;;
  (x <- index PICKUP 0 ;;
   y <- index PICKUP 1 ;;
   r <- index PICKUP 3 ;;
   move_to x y SAFETY_Z r) ;;
  s1 <- get ;;
  let target_province :=
    if decide (is_Some (DROP_POINTS s1 !! province)) then province else RESERVE in
  success <- move_to_drop target_province ;;
  if negb success then
    incr_failed_drops ;; ret false
  else
    suction_off ;;
    drop_point <- drop_point_of target_province ;;
    (x <- index drop_point 0 ;;
     y <- index drop_point 1 ;;
     r <- index drop_point 3 ;;
     move_to x y SAFETY_Z r) ;;
    record_success target_province ;;
    ret true.

(** The [except Exception] block of [pick_and_place]: suction off and
    home inside a bare [try ... except: pass], then the failure counted. *)
Definition emergency : M bool :=
  try_except (suction_off ;; move_home) (ret tt) ;;
  incr_failed_drops ;;
  ret false.

Definition pick_and_place (province : str) : M bool :=
  s <- get ;;
  if negb (is_connected s) then ret false
  else try_except_Exception (pick_sequence province) (fun _ => emergency).

(** [connect]: [driver] stands for the constructor [Dobot(port=...)],
    which opens the port and gives the vendor object, or raises. *)
Definition set_connection (sim : bool) (d : option Device) (conn : bool)
    (s : DobotController) : DobotController :=
  {| port := port s; speed := speed s; simulation_mode := sim;
     dobot := d; is_connected := conn;
     DROP_POINTS := DROP_POINTS s; stats := stats s; issued := issued s |}.

Definition connect (driver : string -> Device + exn) : M bool :=
  s <- get ;;
  if simulation_mode s then
    modify (set_connection true (dobot s) true) ;; ret true
  else
    try_except_Exception
      (d <- match driver (port s) with
            | inl d => ret d
            | inr e => raise e
            end ;;
       modify (set_connection false (Some d) (is_connected s)) ;;
       vendor d (VSpeed (speed s) (speed s)) ;;
       modify (set_connection false (Some d) true) ;;
       move_home ;;
       ret true)
      (fun _ =>
         s' <- get ;;
         modify (set_connection true (dobot s') true) ;;
         ret false).

(** [disconnect] *)
Definition disconnect : M unit :=
  s <- get ;;
  (match dobot s with
   | Some d =>
     if simulation_mode s then ret tt
     else try_except_Exception (move_home ;; vendor d VClose) (fun _ => ret tt)
   | None => ret tt
   end) ;;
  s' <- get ;;
  modify (set_connection (simulation_mode s') (dobot s') false).

(** [add_drop_point]: the coordinates are a list of floats here, so only
    the length test can fail. *)
Definition add_drop_point (province : str) (coordinates : list float) : M unit :=
  if (length coordinates =? 4)%nat then
    modify (fun s =>
      {| port := port s; speed := speed s; simulation_mode := simulation_mode s;
         dobot := dobot s; is_connected := is_connected s;
         DROP_POINTS := <[province := coordinates]> (DROP_POINTS s);
         stats := stats s; issued := issued s |})
  else ret tt.

(** The arm raises nothing outside the class [Exception]. *)
Definition tame (c : DobotController) : Prop :=
  forall d h k e, dobot c = Some d -> respond d h k = Some e -> is_Exception e = true.

(** A controller connected to a real arm [d] on [COM5]. *)
Definition connected (d : Device) : DobotController :=
  {| port := "COM5"; speed := 100; simulation_mode := false;
     dobot := Some d; is_connected := true;
     DROP_POINTS := DROP_POINTS_0; stats := stats_0; issued := [] |}.

(** An arm that completes every command. *)
Definition sound_arm : Device := {| respond := fun _ _ => None |}.

(** An arm whose pump fails: [suck(True)] raises, all else completes. *)
Definition broken_pump : Device :=
  {| respond := fun _ c =>
       match c with
       | VSuck true => Some (Exception "OSError")
       | _ => None
       end |}.

(** A connected controller whose table has an entry of one coordinate
    (the table is a class attribute any code can write to). *)
Definition with_short_entry (province : str) : DobotController :=
  {| port := "COM5"; speed := 100; simulation_mode := false;
     dobot := Some sound_arm; is_connected := true;
     DROP_POINTS := <[province := [1.0%float]]> DROP_POINTS_0;
     stats := stats_0; issued := [] |}.


(** What reaches the arm of the commands [l] a method issues: nothing in
    simulation mode or without a vendor object. *)
Definition reaching (c : DobotController) (l : list cmd) : list cmd :=
  if simulation_mode c then []
  else match dobot c with
       | Some _ => l
       | None => []
       end.

(** The drop point [pick_and_place] aims at. *)
Definition target_of (c : DobotController) (province : str) : str :=
  if decide (is_Some (DROP_POINTS c !! province)) then province else RESERVE.

(** A controller whose wrappers reach no arm: simulation mode, or no
    vendor object. *)
Definition offline (c : DobotController) : Prop :=
  simulation_mode c = true \/ dobot c = None.

(** No command was added, and nothing outside the class [Exception] was
    raised. *)
Definition silent {A} (c : DobotController) (o : outcome A) (l : list cmd) : Prop :=
  l = issued c /\ forall n, o <> Raises (BaseException n).

(** A method that changes nothing of the controller but the record of the
    commands, and is silent on a controller that is off line. *)
Definition framed {A} (m : M A) : Prop :=
  forall c, exists o l, m c = (o, set_issued l c) /\ (offline c -> silent c o l).

(** What a run of the body of [pick_and_place] towards [target] may leave
    of the controller [c]: the commands recorded, and one success counted
    if it returned [True], one failure if it returned [False], nothing if
    it raised. *)
Definition accounted (target : str) (c : DobotController)
    (r : outcome bool * DobotController) : Prop :=
  exists l,
    match r.1 with
    | Returns true => r.2 = set_issued l (record_success target c).2
    | Returns false => r.2 = set_issued l (incr_failed_drops c).2
    | Raises _ => r.2 = set_issued l c
    end
    /\ (offline c -> silent c r.1 l).

(** A driver and an arm that raise nothing outside the class [Exception]. *)
Definition tame_driver (driver : string -> Device + exn) : Prop :=
  forall p,
    match driver p with
    | inl d => forall h k e, respond d h k = Some e -> is_Exception e = true
    | inr e => is_Exception e = true
    end.

(** A driver that finds no arm on the port. *)
Definition no_arm (p : string) : Device + exn := inr (Exception "SerialException").

(** The controller of [test_dobot] after [connect()]: simulation mode. *)
Definition simulated : DobotController :=
  {| port := "COM5"; speed := 100; simulation_mode := true;
     dobot := None; is_connected := true;
     DROP_POINTS := DROP_POINTS_0; stats := stats_0; issued := [] |}.

(** ** Sessions with the controller *)

(** The calls a client makes on a controller. *)
Inductive method_call :=
| Connect
| Disconnect
| AddDropPoint (province : str) (coordinates : list float)
| PickAndPlace (province : str).

Section Session.

Variable driver : string -> Device + exn.

(** The controller after a call, returned or raised. *)
Definition exec (k : method_call) (c : DobotController) : DobotController :=
  match k with
  | Connect => (connect driver c).2
  | Disconnect => (disconnect c).2
  | AddDropPoint province coordinates => (add_drop_point province coordinates c).2
  | PickAndPlace province => (pick_and_place province c).2
  end.

Definition session (calls : list method_call) (c : DobotController) : DobotController :=
  foldl (fun c k => exec k c) c calls.

End Session.

(** [sum(self.stats['by_province'].values())] *)
Definition sum_counts (m : gmap str nat) : nat :=
  map_fold (fun _ n acc => (n + acc)%nat) 0%nat m.

(** What holds of a controller throughout a session: the drop points
    have four coordinates; [total_picks] and the counts by province add
    up to the successful drops; a province counted has a drop point. *)
Definition consistent (c : DobotController) : Prop :=
  (forall province l, DROP_POINTS c !! province = Some l -> length l = 4%nat)
  /\ total_picks (stats c) = successful_drops (stats c)
  /\ sum_counts (by_province (stats c)) = successful_drops (stats c)
  /\ (forall province, is_Some (by_province (stats c) !! province) ->
        is_Some (DROP_POINTS c !! province)).

End Dobot.

(* ===================================================================== *)
(** * The regular expressions of [re] used by process.py *)
(* ===================================================================== *)

Module Re.

(** Patterns are kept as syntax trees; flags are resolved when the tree
    is built ([lit_i] for a literal under [re.IGNORECASE], the [multiline]
    argument of the anchors), as the pattern compiler of [re] does. *)
Inductive re :=
| Eps
| Chr (p : N -> bool)              (* one character of a class *)
| Seq (a b : re)
| Alt (a b : re)                   (* a|b, left first *)
| Star (a : re)                    (* a*, greedy *)
| StarLazy (a : re)                (* a*?, lazy *)
| Group (i : nat) (a : re)         (* capturing group number i *)
| Look (a : re)                    (* (?=a) *)
| Bol (multiline : bool)           (* ^ *)
| Eol (multiline : bool)           (* $ *)
| WordB.                           (* \b *)

(** Position of the matcher in the subject string. *)
Record cursor := {
  before : option N;     (* the character to the left, if any *)
  pos : nat;
  rest : str
}.

Definition caps := list (nat * (nat * nat)).

Definition advance (c : cursor) (x : N) (t : str) : cursor :=
  {| before := Some x; pos := S (pos c); rest := t |}.

Definition isword_opt (o : option N) : bool :=
  match o with Some x => isword x | None => false end.

Definition orelse {A} (a b : option A) : option A :=
  match a with Some _ => a | None => b end.

(** Backtracking matcher in continuation style: alternatives are tried in
    the priority order of [re], so the first success is the match [re]
    reports. A repetition stops when an iteration consumes nothing; it can
    run at most once per remaining character, which bounds the loops. *)
Fixpoint m (r : re) (c : cursor) (g : caps)
    (k : cursor -> caps -> option (cursor * caps)) : option (cursor * caps) :=
  match r with
  | Eps => k c g
  | Chr p =>
    match rest c with
    | x :: t => if p x then k (advance c x t) g else None
    | [] => None
    end
  | Seq a b => m a c g (fun c' g' => m b c' g' k)
  | Alt a b => orelse (m a c g k) (m b c g k)
  | Star a =>
    (fix loop (n : nat) (c : cursor) (g : caps) : option (cursor * caps) :=
       match n with
       | O => k c g
       | S n' =>
         orelse
           (m a c g (fun c' g' =>
              if (pos c <? pos c')%nat then loop n' c' g' else None))
           (k c g)
       end) (length (rest c)) c g
  | StarLazy a =>
    (fix loop (n : nat) (c : cursor) (g : caps) : option (cursor * caps) :=
       match n with
       | O => k c g
       | S n' =>
         orelse
           (k c g)
           (m a c g (fun c' g' =>
              if (pos c <? pos c')%nat then loop n' c' g' else None))
       end) (length (rest c)) c g
  | Group i a => m a c g (fun c' g' => k c' ((i, (pos c, pos c')) :: g'))
  | Look a =>
    match m a c g (fun c' g' => Some (c', g')) with
    | Some (_, g') => k c g'
    | None => None
    end
  | Bol multiline =>
    match before c with
    | None => k c g
    | Some x => if multiline && (x =? 10) then k c g else None
    end
  | Eol multiline =>
    match rest c with
    | [] => k c g
    | x :: t =>
      if (x =? 10) && (multiline || bool_decide (t = [])) then k c g else None
    end
  | WordB =>
    if xorb (isword_opt (before c)) (isword_opt (head (rest c)))
    then k c g else None
  end.

(** A match object: [start()], [end()] and the spans of the groups. *)
Record Match := {
  m_start : nat;
  m_end : nat;
  m_groups : caps
}.

Definition match_at (r : re) (b : option N) (p : nat) (s : str) : option Match :=
  match m r {| before := b; pos := p; rest := s |} [] (fun c g => Some (c, g)) with
  | Some (c, g) => Some {| m_start := p; m_end := pos c; m_groups := g |}
  | None => None
  end.

Fixpoint search_from (r : re) (b : option N) (p : nat) (s : str) : option Match :=
  match match_at r b p s with
  | Some x => Some x
  | None =>
    match s with
    | [] => None
    | x :: t => search_from r (Some x) (S p) t
    end
  end.

(** [re.search(r, text)] *)
Definition search (r : re) (text : str) : option Match := search_from r None 0 text.

(** The matches of [re.finditer(r, text)], left to right and without
    overlap; [skip] counts the characters still inside the last match.
    (No pattern of process.py matches the empty string, so the rule of
    [re] for an empty match next to another match plays no part.) *)
Fixpoint finditer_from (r : re) (b : option N) (p : nat) (skip : nat) (s : str)
    : list Match :=
  match skip with
  | S skip' =>
    match s with
    | [] => []
    | x :: t => finditer_from r (Some x) (S p) skip' t
    end
  | O =>
    match match_at r b p s with
    | Some x =>
      x :: match s with
           | [] => []
           | y :: t => finditer_from r (Some y) (S p) (m_end x - p - 1) t
           end
    | None =>
      match s with
      | [] => []
      | y :: t => finditer_from r (Some y) (S p) 0 t
      end
    end
  end.

Definition finditer (r : re) (text : str) : list Match := finditer_from r None 0 0 text.

(** [match.group(0)] and [match.group(i)] *)
Definition group0 (text : str) (x : Match) : str := slice text (m_start x) (m_end x).

Fixpoint span_of (i : nat) (g : caps) : option (nat * nat) :=
  match g with
  | [] => None
  | (j, sp) :: g' => if (i =? j)%nat then Some sp else span_of i g'
  end.

Definition group (text : str) (x : Match) (i : nat) : str :=
  match span_of i (m_groups x) with
  | Some (a, b) => slice text a b
  | None => []
  end.

(** [re.findall(r, text)] for a pattern without groups *)
Definition findall (r : re) (text : str) : list str :=
  map (group0 text) (finditer r text).

(** [re.sub(r, '', text)]: the text outside the matches. *)
Fixpoint cut_out (text : str) (p : nat) (ms : list Match) : str :=
  match ms with
  | [] => drop p text
  | x :: ms' => slice text p (m_start x) ++ cut_out text (m_end x) ms'
  end.

Definition sub_empty (r : re) (text : str) : str := cut_out text 0 (finditer r text).

(** ** Building patterns *)

Definition chr (c : N) : re := Chr (N.eqb c).

(** A letter under [re.IGNORECASE]: both cases, and the four characters
    whose case folding meets ASCII (U+0130 and U+0131 for i, U+017F for s,
    U+212A for k). *)
Definition fold_eq (c x : N) : bool :=
  if (0x61 <=? c) && (c <=? 0x7A) then
    (x =? c) || (x =? c - 32)
    || ((c =? 0x69) && ((x =? 0x130) || (x =? 0x131)))
    || ((c =? 0x73) && (x =? 0x17F))
    || ((c =? 0x6B) && (x =? 0x212A))
  else x =? c.

Definition chr_i (c : N) : re := Chr (fold_eq c).

Fixpoint seq (l : list re) : re :=
  match l with
  | [] => Eps
  | [a] => a
  | a :: l' => Seq a (seq l')
  end.

Fixpoint alt (l : list re) : re :=
  match l with
  | [] => Eps
  | [a] => a
  | a :: l' => Alt a (alt l')
  end.

(** A literal, and a lower-case literal under [re.IGNORECASE]. *)
Definition lit (s : string) : re := seq (map chr (py s)).
Definition lit_i (s : string) : re := seq (map chr_i (py s)).

Definition opt (a : re) : re := Alt a Eps.           (* a? *)
Definition plus (a : re) : re := Seq a (Star a).     (* a+ *)
Definition plus_lazy (a : re) : re := Seq a (StarLazy a).   (* a+? *)

Fixpoint rep (n : nat) (a : re) : re :=              (* a{n} *)
  match n with
  | O => Eps
  | S O => a
  | S n' => Seq a (rep n' a)
  end.

Definition at_least (n : nat) (a : re) : re := Seq (rep n a) (Star a).  (* a{n,} *)

Definition one_of (l : list N) : re := Chr (fun x => existsb (N.eqb x) l).
Definition none_of (p : N -> bool) : re := Chr (fun x => negb (p x)).
Definition space : re := Chr isspace.                (* \s *)
Definition digit : re := Chr isdecimal.              (* \d *)

(** The cursor once the characters [l] at its head have been consumed. *)
Fixpoint advance_over (c : cursor) (l : str) : cursor :=
  match l with
  | [] => c
  | x :: t => advance_over (advance c x (drop 1 (rest c))) t
  end.

End Re.

(* ===================================================================== *)
(** * process.py *)
(* ===================================================================== *)

Module Process.
Import Re.
Local Open Scope py_scope.

(** ** JSON values, as [json.loads] builds them *)
Local Unset Elimination Schemes.
Inductive json :=
| JNull
| JBool (b : bool)
| JInt (n : Z)
| JFloat (f : float)
| JStr (s : str)
| JList (l : list json)
| JDict (d : gmap str json).
Local Set Elimination Schemes.

(** Truth value of an object in a condition. *)
Definition truthy (v : json) : bool :=
  match v with
  | JNull => false
  | JBool b => b
  | JInt n => negb (n =? 0)%Z
  | JFloat f => negb (PrimFloat.eqb f 0%float)
  | JStr s => negb (bool_decide (s = []))
  | JList l => negb (bool_decide (length l = 0%nat))
  | JDict d => negb (bool_decide (size d = 0%nat))
  end.

Definition is_dict (v : json) : bool := match v with JDict _ => true | _ => false end.
Definition is_str (v : json) : bool := match v with JStr _ => true | _ => false end.

(** [d.get(k, default)] *)
Definition dict_get (d : gmap str json) (k : string) (dflt : json) : json :=
  default dflt (d !! py k).

(** [d[k] = v] *)
Definition dict_set (d : gmap str json) (k : string) (v : json) : gmap str json :=
  <[py k := v]> d.

(** ** The tables of [CompleteParcelSortingSystem.__init__] *)

Definition all_provinces : list str := map py [
  "กรุงเทพมหานคร"; "กระบี่"; "กาญจนบุรี"; "กาฬสินธุ์"; "กำแพงเพชร";
  "ขอนแก่น"; "จันทบุรี"; "ฉะเชิงเทรา"; "ชลบุรี"; "ชัยนาท"; "ชัยภูมิ";
  "ชุมพร"; "เชียงราย"; "เชียงใหม่"; "ตรัง"; "ตราด"; "ตาก";
  "นครนายก"; "นครปฐม"; "นครพนม"; "นครราชสีมา"; "นครศรีธรรมราช";
  "นครสวรรค์"; "นนทบุรี"; "นราธิวาส"; "น่าน"; "บึงกาฬ"; "บุรีรัมย์";
  "ปทุมธานี"; "ประจวบคีรีขันธ์"; "ปราจีนบุรี"; "ปัตตานี"; "พระนครศรีอยุธยา";
  "พะเยา"; "พังงา"; "พัทลุง"; "พิจิตร"; "พิษณุโลก"; "เพชรบุรี"; "เพชรบูรณ์";
  "แพร่"; "ภูเก็ต"; "มหาสารคาม"; "มุกดาหาร"; "แม่ฮ่องสอน";
  "ยโสธร"; "ยะลา"; "ร้อยเอ็ด"; "ระนอง"; "ระยอง"; "ราชบุรี";
  "ลพบุรี"; "ลำปาง"; "ลำพูน"; "เลย"; "ศรีสะเกษ"; "สกลนคร";
  "สงขลา"; "สตูล"; "สมุทรปราการ"; "สมุทรสงคราม"; "สมุทรสาคร";
  "สระแก้ว"; "สระบุรี"; "สิงห์บุรี"; "สุโขทัย"; "สุพรรณบุรี";
  "สุราษฎร์ธานี"; "สุรินทร์"; "หนองคาย"; "หนองบัวลำภู";
  "อ่างทอง"; "อำนาจเจริญ"; "อุดรธานี"; "อุตรดิตถ์"; "อุทัยธานี"; "อุบลราชธานี"
]%string.

(** A [dict] whose iteration order matters: the pairs in insertion order. *)
Definition region_mapping : list (str * list str) := [
  (py "ภาคเหนือ", map py [
     "เชียงใหม่"; "เชียงราย"; "ลำปาง"; "ลำพูน"; "แม่ฮ่องสอน";
     "น่าน"; "พะเยา"; "แพร่"; "อุตรดิตถ์"; "ตาก"; "สุโขทัย";
     "พิษณุโลก"; "เพชรบูรณ์"; "กำแพงเพชร"; "นครสวรรค์"; "พิจิตร"; "อุทัยธานี"]%string);
  (py "ภาคตะวันออกเฉียงเหนือ", map py [
     "นครราชสีมา"; "ขอนแก่น"; "อุดรธานี"; "อุบลราชธานี";
     "บุรีรัมย์"; "สุรินทร์"; "ศรีสะเกษ"; "ยโสธร"; "ชัยภูมิ";
     "มหาสารคาม"; "ร้อยเอ็ด"; "กาฬสินธุ์"; "สกลนคร"; "นครพนม";
     "มุกดาหาร"; "เลย"; "หนองคาย"; "บึงกาฬ"; "หนองบัวลำภู"; "อำนาจเจริญ"]%string);
  (py "ภาคกลาง", map py [
     "กรุงเทพมหานคร"; "นนทบุรี"; "ปทุมธานี"; "สมุทรปราการ";
     "นครปฐม"; "สมุทรสาคร"; "สมุทรสงคราม"; "พระนครศรีอยุธยา";
     "อ่างทอง"; "สิงห์บุรี"; "ชัยนาท"; "ลพบุรี"; "สระบุรี"]%string);
  (py "ภาคตะวันออก", map py [
     "ชลบุรี"; "ระยอง"; "จันทบุรี"; "ตราด"; "ฉะเชิงเทรา";
     "ปราจีนบุรี"; "นครนายก"; "สระแก้ว"]%string);
  (py "ภาคตะวันตก", map py [
     "กาญจนบุรี"; "ราชบุรี"; "สุพรรณบุรี"; "เพชรบุรี";
     "ประจวบคีรีขันธ์"]%string);
  (py "ภาคใต้", map py [
     "สงขลา"; "ภูเก็ต"; "สุราษฎร์ธานี"; "นครศรีธรรมราช"; "ตรัง";
     "พัทลุง"; "ปัตตานี"; "ยะลา"; "นราธิวาส"; "กระบี่"; "พังงา";
     "ระนอง"; "ชุมพร"; "สตูล"]%string)
].

Definition UNRESOLVED : str := py "ไม่ระบุ".
Definition UNRESOLVED_REGION : str := py "ไม่ระบุภาค".

(** [x in l] on a list of strings *)
Definition str_in (x : str) (l : list str) : bool := existsb (str_eqb x) l.

Fixpoint first_region (province : str) (m : list (str * list str)) : str :=
  match m with
  | [] => UNRESOLVED_REGION
  | (region, provinces) :: m' =>
    if str_in province provinces then region else first_region province m'
  end.

Definition get_region (province : str) : str := first_region province region_mapping.

(** ** [extract_province_from_text] *)

Definition not_space_digit : re := none_of (fun x => isspace x || isdecimal x).

(** [r'จ\.([^\s\d]+)'] and [r'จังหวัด([^\s\d]+)'] *)
Definition province_patterns : list re := [
  seq [lit "จ."; Group 1 (plus not_space_digit)];
  seq [lit "จังหวัด"; Group 1 (plus not_space_digit)]
].

(** [r'[\u0E00-\u0E7F]+'] *)
Definition thai_word : re := plus (Chr (fun x => (0xE00 <=? x) && (x <=? 0xE7F))).

(** The inner loop of the first layer: the first canonical name the
    candidate equals or is a part of. *)
Definition candidate_province (candidate : str) : option str :=
  find (fun province => str_eqb candidate province || contains candidate province)
       all_provinces.

(** The first layer: each pattern in turn; a pattern whose candidate is in
    no canonical name gives way to the next one. *)
Fixpoint layer_pattern (patterns : list re) (text : str) : option str :=
  match patterns with
  | [] => None
  | pattern :: rest =>
    match search pattern text with
    | Some mt =>
      match candidate_province (strip (group text mt 1)) with
      | Some province => Some province
      | None => layer_pattern rest text
      end
    | None => layer_pattern rest text
    end
  end.

(** The second layer: a canonical name inside the text, with or without
    the spaces. *)
Definition layer_direct (text : str) : option str :=
  find (fun province =>
          contains province text
          || contains (remove_spaces province) (remove_spaces text))
       all_provinces.

(** The third layer: a canonical name sharing a Thai-script word with the
    text. The two sets are the lists of words; the intersection is
    non-empty when a word of the first occurs in the second. *)
Definition layer_fuzzy (text : str) : option str :=
  let text_words := findall thai_word text in
  find (fun province =>
          let province_words := findall thai_word province in
          existsb (fun w => str_in w text_words) province_words)
       all_provinces.

Definition extract_province_from_text (text : str) : option str :=
  if bool_decide (text = []) then None
  else
    let text := strip text in
    match layer_pattern province_patterns text with
    | Some province => Some province
    | None =>
      match layer_direct text with
      | Some province => Some province
      | None => layer_fuzzy text
      end
    end.

(** The same function with its third layer taken out. *)
Definition extract_province_without_fuzzy (text : str) : option str :=
  if bool_decide (text = []) then None
  else
    let text := strip text in
    match layer_pattern province_patterns text with
    | Some province => Some province
    | None => layer_direct text
    end.

(** A canonical name resolves to itself in its three written forms. *)
Definition resolves_three_forms (p : str) : bool :=
  bool_decide (extract_province_from_text p = Some p)
  && bool_decide (extract_province_from_text (py "จ." ++ p) = Some p)
  && bool_decide (extract_province_from_text (py "จังหวัด" ++ p) = Some p).

(** ** [smart_split_sender_recipient] *)

Definition colon : re := one_of [0x3A; 0xFF1A].       (* [:：] *)
Definition marker (w : re) : re := seq [w; Star space; opt colon].

(** [r'ผู้ส่ง\s*[:：]?'], [r'sender\s*[:：]?'], [r'from\s*[:：]?'] under
    [re.IGNORECASE] *)
Definition sender_markers : list re :=
  [marker (lit "ผู้ส่ง"); marker (lit_i "sender"); marker (lit_i "from")].

Definition recipient_markers : list re :=
  [marker (lit "ผู้รับ"); marker (lit_i "recipient"); marker (lit_i "to")].

(** The starts of all matches of all patterns, pattern by pattern. *)
Definition positions (patterns : list re) (text : str) : list nat :=
  flat_map (fun pattern => map m_start (finditer pattern text)) patterns.

(** [min(l)] of a non-empty list *)
Definition list_min (l : list nat) : nat :=
  match l with
  | [] => 0%nat
  | x :: l' => fold_left Nat.min l' x
  end.

Definition ascii_digit_space_dash : re :=
  Chr (fun x => ((0x30 <=? x) && (x <=? 0x39)) || isspace x || (x =? 0x2D)).

(** [r'(?:โทร|tel|phone)\s*[:：]?\s*[0-9\s\-]{9,}'] under [re.IGNORECASE] *)
Definition phone_pattern : re :=
  seq [alt [lit "โทร"; lit_i "tel"; lit_i "phone"]; Star space; opt colon;
       Star space; at_least 9 ascii_digit_space_dash].

Definition to_line_end : re := seq [Star (Chr (fun x => negb (x =? 10))); Eol false].

(** The marker of the recipient looked for before the second phone number:
    [re.search(pattern + r'.*$', before_split)], first pattern that matches. *)
Fixpoint recipient_before (patterns : list re) (before_split : str) : option nat :=
  match patterns with
  | [] => None
  | pattern :: rest =>
    match search (Seq pattern to_line_end) before_split with
    | Some mt => Some (m_start mt)
    | None => recipient_before rest before_split
    end
  end.

Definition smart_split_sender_recipient (text : str) : str * str :=
  let sender_positions := positions sender_markers text in
  let recipient_positions := positions recipient_markers text in
  if negb (bool_decide (sender_positions = []))
     && negb (bool_decide (recipient_positions = [])) then
    let sender_start := list_min sender_positions in
    let recipient_start := list_min recipient_positions in
    if (sender_start <? recipient_start)%nat then
      (strip (slice text sender_start recipient_start),
       strip (drop recipient_start text))
    else
      (strip (drop sender_start text),
       strip (slice text recipient_start sender_start))
  else
    let phones := finditer phone_pattern text in
    match phones with
    | _ :: second :: _ =>
      let split_point := m_start second in
      let before_split := take split_point text in
      let split_point :=
        default split_point (recipient_before recipient_markers before_split) in
      (strip (take split_point text), strip (drop split_point text))
    | _ =>
      let lines := split_lines text in
      let mid := (length lines / 2)%nat in
      (join_lines (take mid lines), join_lines (drop mid lines))
    end.

(** What the splitter is to keep of a text, in the words of the
    specification: its content, the markers themselves left aside. The
    content of a text is what remains once the markers and the white space
    are removed; two halves reconstruct a text when their concatenation has
    the content of the text, order left aside. *)
Definition without_markers (text : str) : str :=
  fold_left (fun t pattern => sub_empty pattern t) (sender_markers ++ recipient_markers) text.

Definition content (text : str) : str :=
  filter (fun c => isspace c = false) (without_markers text).

Definition reconstructs (text : str) (halves : str * str) : Prop :=
  content (halves.1 ++ halves.2) ≡ₚ content text.

(** A string of white space. *)
Definition blank (w : str) : Prop := Forall (fun c => isspace c = true) w.

(** What a text starts with where a marker of the sender, or of the
    recipient, matches: the Thai markers share their first three
    characters, the Latin ones differ by their first letter. *)
Definition sender_head (s : str) : bool :=
  startswith (take 4 (py "ผู้ส่ง")) s
  || match s with
     | x :: _ => fold_eq 0x73 x || fold_eq 0x66 x
     | [] => false
     end.

Definition recipient_head (s : str) : bool :=
  startswith (take 4 (py "ผู้รับ")) s
  || match s with
     | x :: _ => fold_eq 0x72 x || fold_eq 0x74 x
     | [] => false
     end.

(** ** [_extract_person_info] *)

Record PersonInfo := {
  name : str;
  phone : str;
  address : str;
  province : str
}.

Definition info_0 : PersonInfo :=
  {| name := []; phone := []; address := []; province := [] |}.

Definition set_name (v : str) (i : PersonInfo) : PersonInfo :=
  {| name := v; phone := phone i; address := address i; province := province i |}.
Definition set_phone (v : str) (i : PersonInfo) : PersonInfo :=
  {| name := name i; phone := v; address := address i; province := province i |}.
Definition set_address (v : str) (i : PersonInfo) : PersonInfo :=
  {| name := name i; phone := phone i; address := v; province := province i |}.
Definition set_province (v : str) (i : PersonInfo) : PersonInfo :=
  {| name := name i; phone := phone i; address := address i; province := v |}.

(** The dict the function returns. *)
Definition info_dict (i : PersonInfo) : json :=
  JDict (dict_set (dict_set (dict_set (dict_set ∅
    "name" (JStr (name i))) "phone" (JStr (phone i)))
    "address" (JStr (address i))) "province" (JStr (province i))).

Definition not_newline : re := none_of (fun x => (x =? 10) || (x =? 13)).   (* [^\n\r] *)
Definition colon_space : re := Chr (fun x => (x =? 0x3A) || isspace x).      (* [:\s] *)

(** [r'(?:ชื่อ|name)[:\s]*([^\n\r]+?)(?=\n|ที่อยู่|address|โทร|tel|$)'] and
    [r'^([^\n\r]+?)(?=\n)'], under [re.IGNORECASE | re.MULTILINE] *)
Definition name_patterns : list re := [
  seq [alt [lit "ชื่อ"; lit_i "name"]; Star colon_space;
       Group 1 (plus_lazy not_newline);
       Look (alt [chr 10; lit "ที่อยู่"; lit_i "address"; lit "โทร"; lit_i "tel"; Eol true])];
  seq [Bol true; Group 1 (plus_lazy not_newline); Look (chr 10)]
].

(** [r'(?:ชื่อ|name)[:\s]*'] under [re.IGNORECASE] *)
Definition name_label : re := seq [alt [lit "ชื่อ"; lit_i "name"]; Star colon_space].

Definition space_dash : re := Chr (fun x => isspace x || (x =? 0x2D)).       (* [\s\-] *)

(** [r'(?:โทร|tel|phone)[:\s]*([0-9\s\-]{9,})'],
    [r'\b(0\d{2}[\s\-]?\d{3}[\s\-]?\d{4})\b'] and
    [r'\b(\d{3}[\s\-]?\d{3}[\s\-]?\d{4})\b'], under [re.IGNORECASE] *)
Definition phone_patterns : list re := [
  seq [alt [lit "โทร"; lit_i "tel"; lit_i "phone"]; Star colon_space;
       Group 1 (at_least 9 ascii_digit_space_dash)];
  seq [WordB;
       Group 1 (seq [chr 0x30; rep 2 digit; opt space_dash; rep 3 digit;
                     opt space_dash; rep 4 digit]);
       WordB];
  seq [WordB;
       Group 1 (seq [rep 3 digit; opt space_dash; rep 3 digit;
                     opt space_dash; rep 4 digit]);
       WordB]
].

(** [r'[^\d]'] *)
Definition non_digit : re := none_of isdecimal.

(** [r'(?:ที่อยู่|address)[:\s]*([^\n\r]+?)(?=\n(?:โทร|tel)|$)'] and
    [r'(?:จ\.|จังหวัด)[\s]*([^\n\r]+)'], under [re.IGNORECASE | re.DOTALL] *)
Definition address_patterns : list re := [
  seq [alt [lit "ที่อยู่"; lit_i "address"]; Star colon_space;
       Group 1 (plus_lazy not_newline);
       Look (alt [seq [chr 10; alt [lit "โทร"; lit_i "tel"]]; Eol false])];
  seq [alt [lit "จ."; lit "จังหวัด"]; Star space; Group 1 (plus not_newline)]
].

(** [r'(?:ที่อยู่|address)[:\s]*'] under [re.IGNORECASE] *)
Definition address_label : re := seq [alt [lit "ที่อยู่"; lit_i "address"]; Star colon_space].

(** [r'(?:จ\.|จังหวัด)\s*([^\s\d,]+)'] *)
Definition recipient_province_pattern : re :=
  seq [alt [lit "จ."; lit "จังหวัด"]; Star space;
       Group 1 (plus (none_of (fun x => isspace x || isdecimal x || (x =? 0x2C))))].

(** A loop [for pattern in patterns: ... break]: the first pattern that
    matches and whose cleaned group passes the test sets the field. *)
Fixpoint first_field (patterns : list re) (clean : str -> str) (accept : str -> bool)
    (text : str) : option str :=
  match patterns with
  | [] => None
  | pattern :: rest =>
    match search pattern text with
    | Some mt =>
      let v := clean (strip (group text mt 1)) in
      if accept v then Some v else first_field rest clean accept text
    | None => first_field rest clean accept text
    end
  end.

Definition nonempty (s : str) : bool := negb (bool_decide (s = [])).

Abbreviation MI := (Py.M PersonInfo).

Definition when_some (o : option str) (f : str -> PersonInfo -> PersonInfo) : MI unit :=
  match o with
  | Some v => modify (f v)
  | None => ret tt
  end.

(** The body of the [try] block; [info] is the object being filled. *)
Definition person_info_body (text : str) (is_recipient : bool) : MI unit :=
  when_some (first_field name_patterns (sub_empty name_label)
               (fun v => nonempty v && (2 <? length v)%nat) text) set_name ;;
  when_some (first_field phone_patterns (sub_empty non_digit)
               (fun v => (9 <=? length v)%nat) text) set_phone ;;
  when_some (first_field address_patterns (sub_empty address_label) nonempty text)
            set_address ;;
  if is_recipient then
    (info <- get ;;
     if nonempty (address info)
     then when_some (extract_province_from_text (address info)) set_province
     else ret tt) ;;
    (info <- get ;;
     if negb (nonempty (province info))
     then when_some (extract_province_from_text text) set_province
     else ret tt) ;;
    (info <- get ;;
     if negb (nonempty (province info)) then
       match search recipient_province_pattern text with
       | Some mt =>
         when_some (extract_province_from_text (strip (group text mt 1))) set_province
       | None => ret tt
       end
     else ret tt)
  else
    info <- get ;;
    if nonempty (address info)
    then when_some (extract_province_from_text (address info)) set_province
    else ret tt.

(** [try: body except Exception: print(...)] followed by [return info]. *)
Definition _extract_person_info (text : str) (is_recipient : bool) : outcome PersonInfo :=
  returning (person_info_body text is_recipient) info_0.

(** ** [extract_data_from_text] *)

Record ParcelText := {
  pt_sender : PersonInfo;
  pt_recipient : PersonInfo;
  pt_tracking_number : str
}.

Definition parcel_text_0 : ParcelText :=
  {| pt_sender := info_0; pt_recipient := info_0; pt_tracking_number := [] |}.

(** The dict [result] of [extract_data_from_text]. *)
Definition parcel_dict (r : ParcelText) : json :=
  JDict (dict_set (dict_set (dict_set ∅
    "sender" (info_dict (pt_sender r)))
    "recipient" (info_dict (pt_recipient r)))
    "tracking_number" (JStr (pt_tracking_number r))).

(** [[A-Z]] and [[A-Z0-9]] under [re.IGNORECASE] *)
Definition letter_i (x : N) : bool :=
  ((0x41 <=? x) && (x <=? 0x5A)) || ((0x61 <=? x) && (x <=? 0x7A))
  || existsb (N.eqb x) [0x130; 0x131; 0x17F; 0x212A].
Definition letter_digit_i (x : N) : bool :=
  letter_i x || ((0x30 <=? x) && (x <=? 0x39)).

(** [r'tracking[_\s]*(?:number)?[:\s]*([A-Z0-9]+)'],
    [r'เลข(?:พัสดุ|ติดตาม)?[:\s]*([A-Z0-9]+)'] and
    [r'\b([A-Z]{2,}\d{8,})\b'], under [re.IGNORECASE] *)
Definition tracking_patterns : list re := [
  seq [lit_i "tracking"; Star (Chr (fun x => (x =? 0x5F) || isspace x));
       opt (lit_i "number"); Star colon_space; Group 1 (plus (Chr letter_digit_i))];
  seq [lit "เลข"; opt (alt [lit "พัสดุ"; lit "ติดตาม"]); Star colon_space;
       Group 1 (plus (Chr letter_digit_i))];
  seq [WordB; Group 1 (seq [at_least 2 (Chr letter_i); at_least 8 digit]); WordB]
].

Abbreviation MP := (Py.M ParcelText).

(** A call that leaves the object alone. *)
Definition call {S A} (o : outcome A) : Py.M S A := fun s => (o, s).

Definition extract_data_body (text : str) : MP unit :=
  let '(sender_text, recipient_text) := smart_split_sender_recipient text in
  (if nonempty sender_text then
     i <- call (_extract_person_info sender_text false) ;;
     modify (fun r => {| pt_sender := i; pt_recipient := pt_recipient r;
                         pt_tracking_number := pt_tracking_number r |})
   else ret tt) ;;
  (if nonempty recipient_text then
     i <- call (_extract_person_info recipient_text true) ;;
     modify (fun r => {| pt_sender := pt_sender r; pt_recipient := i;
                         pt_tracking_number := pt_tracking_number r |})
   else ret tt) ;;
  match first_field tracking_patterns (fun v => v) (fun _ => true) text with
  | Some v =>
    modify (fun r => {| pt_sender := pt_sender r; pt_recipient := pt_recipient r;
                        pt_tracking_number := v |})
  | None => ret tt
  end.

Definition extract_data_from_text (text : str) : outcome json :=
  result <~ returning (extract_data_body text) parcel_text_0 ;;
  Returns (parcel_dict result).

(** ** [parse_ocr_result] *)

Definition fence : string := "```".

(** [r'^```json\s*'], [r'^```\s*'] and [r'\s*```'] *)
Definition fence_json_open : re := seq [Bol false; lit fence; lit "json"; Star space].
Definition fence_open : re := seq [Bol false; lit fence; Star space].
Definition fence_close : re := seq [Star space; lit fence].

Definition not_brace : re := none_of (fun x => (x =? 0x7B) || (x =? 0x7D)).   (* [^{}] *)

(** The pattern of a JSON object with at most one level of nesting, under
    [re.DOTALL] (the pattern has no dot). *)
Definition json_object : re :=
  seq [chr 0x7B; Star not_brace;
       Star (seq [chr 0x7B; Star not_brace; chr 0x7D; Star not_brace]);
       chr 0x7D].

(** [try: m except <name>: h] on a call without side effect *)
Definition otry_named {A} (cls : string) (m : outcome A) (h : outcome A) : outcome A :=
  match m with
  | Raises (Exception n) => if String.eqb n cls then h else m
  | _ => m
  end.

(** [try: m except Exception: h] *)
Definition otry_Exception {A} (m : outcome A) (h : outcome A) : outcome A :=
  match m with
  | Raises (Exception _) => h
  | _ => m
  end.

Section JsonLoads.

(** [json.loads] is the library's: it returns a value, or raises the
    exception class it names ([JSONDecodeError] on a malformed document). *)
Variable json_loads : str -> json + string.

Definition loads (text : str) : outcome json :=
  match json_loads text with
  | inl v => Returns v
  | inr cls => Raises (Exception cls)
  end.

(** One attempt: [Some data] stands for [return data]. *)
Definition try_loads (text : str) : outcome (option json) :=
  otry_named "JSONDecodeError"
    (data <~ loads text ;;
     Returns (if is_dict data then Some data else None))
    (Returns None).

Definition parse_ocr_result (ocr_text : str) : outcome (option json) :=
  otry_Exception
    (let text := strip ocr_text in
     let text := sub_empty fence_json_open text in
     let text := sub_empty fence_open text in
     let text := sub_empty fence_close text in
     let text := strip text in
     first <~ try_loads text ;;
     match first with
     | Some data => Returns (Some data)
     | None =>
       match search json_object text with
       | Some json_match => try_loads (group0 text json_match)
       | None => Returns None
       end
     end)
    (Returns None).

End JsonLoads.

(** ** [normalize_ocr_json_result] *)

Definition normalize_ocr_json_result (data : json) : outcome json :=
  match data with
  | JDict d =>
    let sender := dict_get d "sender" (JDict ∅) in
    let split_sender (s : str) :=
      let '(sender_text, recipient_text) := smart_split_sender_recipient s in
      sender_dict <~ _extract_person_info sender_text false ;;
      recipient_dict <~ _extract_person_info recipient_text true ;;
      Returns (JDict (dict_set (dict_set d "sender" (info_dict sender_dict))
                               "recipient" (info_dict recipient_dict))) in
    match sender, d !! py "recipient" with
    | JStr s, recipient =>
      if (100 <? length s)%nat then split_sender s
      else match recipient with
           | Some (JStr recipient_text) =>
             i <~ _extract_person_info recipient_text true ;;
             Returns (JDict (dict_set d "recipient" (info_dict i)))
           | Some v => if truthy v then Returns data else split_sender s
           | None => split_sender s
           end
    | _, Some (JStr recipient_text) =>
      i <~ _extract_person_info recipient_text true ;;
      Returns (JDict (dict_set d "recipient" (info_dict i)))
    | _, _ => Returns data
    end
  | _ => Returns data
  end.

(** ** [normalize_province_data] *)

(** [self.extract_province_from_text(v)] on a value of a record: an object
    that is true and is no string has no [strip]. *)
Definition extract_province_from_value (v : json) : outcome (option str) :=
  if negb (truthy v) then Returns None
  else match v with
       | JStr s => Returns (extract_province_from_text s)
       | _ => Raises (Exception "AttributeError")
       end.

(** [if normalized: person['province'] = normalized] *)
Definition store_province (person : gmap str json) (normalized : option str)
    : gmap str json :=
  match normalized with
  | Some p => if nonempty p then dict_set person "province" (JStr p) else person
  | None => person
  end.

(** The search in the address, common to the two branches. *)
Definition province_from_address (person : gmap str json) : outcome (gmap str json) :=
  let address := dict_get person "address" (JStr []) in
  if truthy address then
    normalized <~ extract_province_from_value address ;;
    Returns (store_province person normalized)
  else Returns person.

Definition normalize_sender (sender : gmap str json) : outcome (gmap str json) :=
  let sender_province := dict_get sender "province" (JStr []) in
  if truthy sender_province then
    normalized <~ extract_province_from_value sender_province ;;
    Returns (store_province sender normalized)
  else Returns sender.

Definition normalize_recipient (recipient : gmap str json) : outcome (gmap str json) :=
  let recipient_province := dict_get recipient "province" (JStr []) in
  if truthy recipient_province then
    normalized <~ extract_province_from_value recipient_province ;;
    match normalized with
    | Some p =>
      if nonempty p then Returns (dict_set recipient "province" (JStr p))
      else province_from_address recipient
    | None => province_from_address recipient
    end
  else province_from_address recipient.

Definition normalize_province_data (data : json) : outcome json :=
  match data with
  | JDict d =>
    if negb (truthy data) then Returns data
    else
      d1 <~ match d !! py "sender" with
            | Some (JDict sender) =>
              sender' <~ normalize_sender sender ;;
              Returns (dict_set d "sender" (JDict sender'))
            | _ => Returns d
            end ;;
      match d1 !! py "recipient" with
      | Some (JDict recipient) =>
        recipient' <~ normalize_recipient recipient ;;
        Returns (JDict (dict_set d1 "recipient" (JDict recipient')))
      | _ => Returns (JDict d1)
      end
  | _ => if truthy data then Raises (Exception "AttributeError") else Returns data
  end.

(** ** The destination step of [process_single_parcel] *)

Definition is_unresolved (v : json) : bool :=
  match v with JStr s => str_eqb s UNRESOLVED | _ => false end.

(** [self.get_region(province)] *)
Definition region_of (v : json) : str :=
  match v with JStr p => get_region p | _ => UNRESOLVED_REGION end.

(** [v[:50]] *)
Definition slice_value (v : json) : outcome unit :=
  match v with
  | JStr _ | JList _ => Returns tt
  | _ => Raises (Exception "TypeError")
  end.

(** Steps 5 and 6: the province of the parcel and its region. *)
Definition destination (parcel_data : json) : outcome (json * str) :=
  match parcel_data with
  | JDict d =>
    match dict_get d "recipient" (JDict ∅) with
    | JDict recipient =>
      let province := dict_get recipient "province" (JStr []) in
      if truthy province && negb (is_unresolved province) then
        Returns (province, region_of province)
      else
        let recipient_address := dict_get recipient "address" (JStr []) in
        province <~
          (if truthy recipient_address then
             _ <~ slice_value recipient_address ;;
             found_province <~ extract_province_from_value recipient_address ;;
             Returns (match found_province with
                      | Some p => if nonempty p then JStr p else province
                      | None => province
                      end)
           else Returns province) ;;
        let province :=
          if negb (truthy province) || is_unresolved province
          then JStr UNRESOLVED else province in
        Returns (province, region_of province)
    | _ => Returns (JStr UNRESOLVED, region_of (JStr UNRESOLVED))
    end
  | _ => Raises (Exception "AttributeError")     (* no [get] on such an object *)
  end.


(** Steps 3.5, 3.6, 5 and 6 of [process_single_parcel]. *)
Definition resolve_destination (parcel_data : json) : outcome (json * str) :=
  d1 <~ normalize_ocr_json_result parcel_data ;;
  d2 <~ normalize_province_data d1 ;;
  destination d2.




(** ** Sample records *)

(** The OCR text of the first end-to-end scenario of the specification. *)
Definition scenario_1 : str :=
  py "ผู้ส่ง สมชาย โทร 0812345678 ที่อยู่ กรุงเทพ" ++ [10]
  ++ py "ผู้รับ สมหญิง โทร 0898765432 จ.เชียงใหม่".


Definition recipient_rayong : json :=
  info_dict {| name := py "สมหญิง"; phone := py "0898765432";
               address := []; province := py "ระยอง" |}.

(** A payload with the recipient above and the sender given. *)
Definition payload (sender : json) : json :=
  JDict (dict_set (dict_set ∅ "recipient" recipient_rayong) "sender" sender).

(** A record whose two persons are objects. *)
Definition repaired_record : gmap str json :=
  dict_set (dict_set (dict_set ∅
    "sender" (info_dict {| name := py "สมชาย"; phone := py "0812345678";
                           address := py "กรุงเทพ"; province := [] |}))
    "recipient" (info_dict {| name := py "สมหญิง"; phone := py "0898765432";
                              address := []; province := py "เชียงใหม่" |}))
    "tracking_number" (JStr []).

(** [distribution_centers] of [determine_delivery_route] *)
Definition distribution_centers : gmap str str :=
  list_to_map [
    (py "ภาคเหนือ", py "ศูนย์กระจายสินค้าภาคเหนือ (เชียงใหม่)");
    (py "ภาคตะวันออกเฉียงเหนือ", py "ศูนย์กระจายสินค้าภาคตะวันออกเฉียงเหนือ (นครราชสีมา)");
    (py "ภาคกลาง", py "ศูนย์กระจายสินค้าภาคกลาง (กรุงเทพฯ)");
    (py "ภาคตะวันออก", py "ศูนย์กระจายสินค้าภาคตะวันออก (ชลบุรี)");
    (py "ภาคตะวันตก", py "ศูนย์กระจายสินค้าภาคตะวันตก (กาญจนบุรี)");
    (py "ภาคใต้", py "ศูนย์กระจายสินค้าภาคใต้ (สงขลา)")
  ].

Definition MANUAL_ROUTE : str :=
  py "❌ ไม่สามารถระบุเส้นทางได้ - ต้องตรวจสอบด้วยตนเอง".
Definition GENERAL_CENTER : str := py "ศูนย์กระจายสินค้าทั่วไป".

(** [determine_delivery_route(province, region)], on two strings *)
Definition determine_delivery_route (province region : str) : str :=
  if str_eqb province UNRESOLVED || str_eqb region UNRESOLVED_REGION then MANUAL_ROUTE
  else
    let center := default GENERAL_CENTER (distribution_centers !! region) in
    py "✅ ส่งไป " ++ center ++ py " → " ++ province.

(** A name that [strip] leaves as it is, and that is not empty. *)
Definition trimmed (p : str) : bool :=
  match p, rev p with
  | x :: _, y :: _ => negb (isspace x) && negb (isspace y)
  | _, _ => false
  end.

(** What [_extract_person_info] lets into a record: a name of more than
    two characters, a phone number of nine decimal digits or more, a
    canonical province; or the field is left empty. *)
Definition well_formed_info (i : PersonInfo) : Prop :=
  (name i = [] \/ (2 < length (name i))%nat)
  /\ (phone i = [] \/ ((9 <= length (phone i))%nat
                       /\ Forall (fun x => isdecimal x = true) (phone i)))
  /\ (province i = [] \/ In (province i) all_provinces).

(** A step that keeps a property of the object it works on. *)
Definition keeps {S A} (I : S -> Prop) (m : Py.M S A) : Prop :=
  forall s, I s -> I (m s).2.

(** ** [DatabaseAPI] *)

(** The entry of a person in the payload: four calls of [person.get], on
    an object that has to be a dict. *)
Definition person_payload (person : json) : outcome json :=
  match person with
  | JDict p =>
    Returns (JDict (dict_set (dict_set (dict_set (dict_set ∅
      "name" (dict_get p "name" (JStr [])))
      "phone" (dict_get p "phone" (JStr [])))
      "address_details" (dict_get p "address" (JStr [])))
      "province" (dict_get p "province" (JStr []))))
  | _ => Raises (Exception "AttributeError")
  end.

Definition _prepare_payload (parcel_data : json) : outcome json :=
  match parcel_data with
  | JDict d =>
    let sender := dict_get d "sender" (JDict ∅) in
    let recipient := dict_get d "recipient" (JDict ∅) in
    sender_entry <~ person_payload sender ;;
    recipient_entry <~ person_payload recipient ;;
    Returns (JDict (dict_set (dict_set (dict_set (dict_set ∅
      "action" (JStr (py "create_parcel")))
      "sender" sender_entry)
      "recipient" recipient_entry)
      "parcel" (JDict (dict_set (dict_set ∅
         "status" (JStr (py "Pending")))
         "tracking_number" (dict_get d "tracking_number" (JStr []))))))
  | _ => Raises (Exception "AttributeError")
  end.

Section Database.

(** [self.session.post(...)], [raise_for_status()] and [response.json()]
    are the library's: the server's answer as a value, or an exception. *)
Variable post : json -> outcome json.

(** [str(e)] *)
Variable message_of : exn -> str.

Definition failure (e : exn) : json :=
  JDict (dict_set (dict_set ∅ "success" (JBool false)) "message" (JStr (message_of e))).

(** [save_parcel_to_db]: both handlers build the same answer. *)
Definition save_parcel_to_db (parcel_data : json) : outcome json :=
  match (request <~ _prepare_payload parcel_data ;;
         result <~ post request ;;
         match result with
         | JDict _ => Returns result
         | _ => Raises (Exception "AttributeError")     (* [result.get] *)
         end) with
  | Raises (Exception n) => Returns (failure (Exception n))
  | r => r
  end.

End Database.

End Process.

(* ===================================================================== *)
(** * main.py *)
(* ===================================================================== *)

Module Pipeline.
Import Process.

(** The dict [process_single_parcel] returns, with the entries the
    workers read. *)
Record ParcelResult := {
  success : bool;
  province : json;               (* [None] until step 8 *)
  tracking_number : json;
  db_saved : bool
}.

(** An entry of the Dobot queue. *)
Record SortItem := {
  item_image_path : str;
  item_province : json;
  item_tracking : json;
  item_result : ParcelResult
}.

(** [queue.Queue]: the waiting items, oldest first, and the number of
    items put and not yet marked done. *)
Record Queue (A : Type) := {
  items : list A;
  unfinished_tasks : nat
}.
Arguments items {A} q.
Arguments unfinished_tasks {A} q.

Definition q_empty {A} (q : Queue A) : bool := bool_decide (length (items q) = 0%nat).
Definition q_size {A} (q : Queue A) : nat := length (items q).
Definition q_put {A} (x : A) (q : Queue A) : Queue A :=
  {| items := items q ++ [x]; unfinished_tasks := S (unfinished_tasks q) |}.
Definition q_task_done {A} (q : Queue A) : Queue A :=
  {| items := items q; unfinished_tasks := pred (unfinished_tasks q) |}.
Definition q_of {A} (l : list A) : Queue A :=
  {| items := l; unfinished_tasks := length l |}.

Record Counters := {
  images_captured : nat;
  ocr_processed : nat;
  ocr_success : nat;
  ocr_failed : nat;
  dobot_sorted : nat;
  dobot_failed : nat;
  st_db_saved : nat;
  st_db_failed : nat
}.

Definition counters_0 : Counters :=
  {| images_captured := 0; ocr_processed := 0; ocr_success := 0; ocr_failed := 0;
     dobot_sorted := 0; dobot_failed := 0; st_db_saved := 0; st_db_failed := 0 |}.

(** The attributes of [CompleteSortingPipeline] the threads share. *)
Record Shared := {
  is_running : bool;
  enable_dobot : bool;
  ocr_queue : Queue str;
  dobot_queue : Queue SortItem;
  stats : Counters
}.

(** ** The threads

    Each thread is at one of a few points of its code. A worker is at the
    test of its [while self.is_running] loop, or inside the external call
    with the item it took, or past the loop. *)
Inductive worker (A : Type) :=
| AtLoop
| Busy (x : A)
| Stopped.
Arguments AtLoop {A}.
Arguments Busy {A} x.
Arguments Stopped {A}.

(** The points of [shutdown], which the main thread runs. *)
Inductive shutdown_pc :=
| ShNotCalled
| ShOcrCheck        (* after [self.is_running = False] *)
| ShOcrJoin         (* inside [self.ocr_queue.join()] *)
| ShDobotCheck
| ShDobotJoin       (* inside [self.dobot_queue.join()] *)
| ShThreads         (* at the loop of [thread.join(timeout=5)] *)
| ShDone.

Record System := {
  shared : Shared;
  ocr_thread : worker str;
  dobot_thread : worker SortItem;
  monitor_thread : worker unit;
  main_thread : shutdown_pc
}.

Definition with_ocr (w : worker str) (sh : Shared) (s : System) : System :=
  {| shared := sh; ocr_thread := w; dobot_thread := dobot_thread s;
     monitor_thread := monitor_thread s; main_thread := main_thread s |}.
Definition with_dobot (w : worker SortItem) (sh : Shared) (s : System) : System :=
  {| shared := sh; ocr_thread := ocr_thread s; dobot_thread := w;
     monitor_thread := monitor_thread s; main_thread := main_thread s |}.
Definition with_monitor (w : worker unit) (sh : Shared) (s : System) : System :=
  {| shared := sh; ocr_thread := ocr_thread s; dobot_thread := dobot_thread s;
     monitor_thread := w; main_thread := main_thread s |}.
Definition with_main (pc : shutdown_pc) (sh : Shared) (s : System) : System :=
  {| shared := sh; ocr_thread := ocr_thread s; dobot_thread := dobot_thread s;
     monitor_thread := monitor_thread s; main_thread := pc |}.

Section Workers.

(** The two external calls of the workers: the OCR stage on an image and
    the arm on a parcel. Both catch their own errors and return. *)
Variable process_single_parcel : str -> ParcelResult.
Variable pick_and_place : json -> bool.

(** The test that guards [self.dobot_queue.put]. *)
Definition routable (enable : bool) (province : json) : bool :=
  enable && truthy province && negb (is_unresolved province).

(** The body of one iteration of [ocr_worker] once [image_path] has been
    taken from the queue: the OCR call, the statistics, the hand-over to
    the Dobot queue and [task_done]. *)
Definition ocr_handle (image_path : str) (sh : Shared) : Shared :=
  let result := process_single_parcel image_path in
  let c := stats sh in
  let c :=
    {| images_captured := images_captured c;
       ocr_processed := S (ocr_processed c);
       ocr_success := if success result then S (ocr_success c) else ocr_success c;
       ocr_failed := if success result then ocr_failed c else S (ocr_failed c);
       dobot_sorted := dobot_sorted c; dobot_failed := dobot_failed c;
       st_db_saved :=
         if success result && db_saved result then S (st_db_saved c) else st_db_saved c;
       st_db_failed := st_db_failed c |} in
  let dq :=
    if success result && routable (enable_dobot sh) (province result) then
      q_put {| item_image_path := image_path;
               item_province := province result;
               item_tracking := tracking_number result;
               item_result := result |} (dobot_queue sh)
    else dobot_queue sh in
  {| is_running := is_running sh; enable_dobot := enable_dobot sh;
     ocr_queue := q_task_done (ocr_queue sh);
     dobot_queue := dq; stats := c |}.

(** [self.ocr_queue.get()] *)
Definition ocr_get (sh : Shared) : option (str * Shared) :=
  match items (ocr_queue sh) with
  | [] => None
  | image_path :: rest =>
    Some (image_path,
          {| is_running := is_running sh; enable_dobot := enable_dobot sh;
             ocr_queue := {| items := rest;
                             unfinished_tasks := unfinished_tasks (ocr_queue sh) |};
             dobot_queue := dobot_queue sh; stats := stats sh |})
  end.

(** One iteration of the loop of [ocr_worker]: an empty queue is left
    alone (the worker sleeps), otherwise the oldest image is handled. *)
Definition ocr_iteration (sh : Shared) : Shared :=
  match ocr_get sh with
  | Some (image_path, sh') => ocr_handle image_path sh'
  | None => sh
  end.

Definition dobot_get (sh : Shared) : option (SortItem * Shared) :=
  match items (dobot_queue sh) with
  | [] => None
  | parcel_data :: rest =>
    Some (parcel_data,
          {| is_running := is_running sh; enable_dobot := enable_dobot sh;
             ocr_queue := ocr_queue sh;
             dobot_queue := {| items := rest;
                               unfinished_tasks := unfinished_tasks (dobot_queue sh) |};
             stats := stats sh |})
  end.

(** The body of one iteration of [dobot_worker] on a parcel. *)
Definition dobot_handle (parcel_data : SortItem) (sh : Shared) : Shared :=
  let ok := pick_and_place (item_province parcel_data) in
  let c := stats sh in
  {| is_running := is_running sh; enable_dobot := enable_dobot sh;
     ocr_queue := ocr_queue sh;
     dobot_queue := q_task_done (dobot_queue sh);
     stats :=
       {| images_captured := images_captured c; ocr_processed := ocr_processed c;
          ocr_success := ocr_success c; ocr_failed := ocr_failed c;
          dobot_sorted := if ok then S (dobot_sorted c) else dobot_sorted c;
          dobot_failed := if ok then dobot_failed c else S (dobot_failed c);
          st_db_saved := st_db_saved c; st_db_failed := st_db_failed c |} |}.

Definition set_running (b : bool) (sh : Shared) : Shared :=
  {| is_running := b; enable_dobot := enable_dobot sh;
     ocr_queue := ocr_queue sh; dobot_queue := dobot_queue sh; stats := stats sh |}.

Definition monitor_put (filepath : str) (sh : Shared) : Shared :=
  let c := stats sh in
  {| is_running := is_running sh; enable_dobot := enable_dobot sh;
     ocr_queue := q_put filepath (ocr_queue sh);
     dobot_queue := dobot_queue sh;
     stats :=
       {| images_captured := S (images_captured c); ocr_processed := ocr_processed c;
          ocr_success := ocr_success c; ocr_failed := ocr_failed c;
          dobot_sorted := dobot_sorted c; dobot_failed := dobot_failed c;
          st_db_saved := st_db_saved c; st_db_failed := st_db_failed c |} |}.

(** One step of one thread. The threads interleave; a step is a stretch
    of code of one thread that the others do not interrupt. *)
Inductive step : System -> System -> Prop :=
(* ocr_worker *)
| ocr_exit s :
    ocr_thread s = AtLoop -> is_running (shared s) = false ->
    step s (with_ocr Stopped (shared s) s)
| ocr_take s image_path sh' :
    ocr_thread s = AtLoop -> is_running (shared s) = true ->
    ocr_get (shared s) = Some (image_path, sh') ->
    step s (with_ocr (Busy image_path) sh' s)
| ocr_finish s image_path :
    ocr_thread s = Busy image_path ->
    step s (with_ocr AtLoop (ocr_handle image_path (shared s)) s)
(* dobot_worker *)
| dobot_exit s :
    dobot_thread s = AtLoop -> is_running (shared s) = false ->
    step s (with_dobot Stopped (shared s) s)
| dobot_take s parcel_data sh' :
    dobot_thread s = AtLoop -> is_running (shared s) = true ->
    dobot_get (shared s) = Some (parcel_data, sh') ->
    step s (with_dobot (Busy parcel_data) sh' s)
| dobot_finish s parcel_data :
    dobot_thread s = Busy parcel_data ->
    step s (with_dobot AtLoop (dobot_handle parcel_data (shared s)) s)
(* monitor_new_images *)
| monitor_exit s :
    monitor_thread s = AtLoop -> is_running (shared s) = false ->
    step s (with_monitor Stopped (shared s) s)
| monitor_detect s filepath :
    monitor_thread s = AtLoop -> is_running (shared s) = true ->
    step s (with_monitor AtLoop (monitor_put filepath (shared s)) s)
(* shutdown *)
| sh_signal s :
    main_thread s = ShNotCalled ->
    step s (with_main ShOcrCheck (set_running false (shared s)) s)
| sh_ocr_check s :
    main_thread s = ShOcrCheck ->
    step s (with_main (if q_empty (ocr_queue (shared s)) then ShDobotCheck else ShOcrJoin)
                      (shared s) s)
| sh_ocr_joined s :
    main_thread s = ShOcrJoin -> unfinished_tasks (ocr_queue (shared s)) = 0%nat ->
    step s (with_main ShDobotCheck (shared s) s)
| sh_dobot_check s :
    main_thread s = ShDobotCheck ->
    step s (with_main (if enable_dobot (shared s) && negb (q_empty (dobot_queue (shared s)))
                       then ShDobotJoin else ShThreads)
                      (shared s) s)
| sh_dobot_joined s :
    main_thread s = ShDobotJoin -> unfinished_tasks (dobot_queue (shared s)) = 0%nat ->
    step s (with_main ShThreads (shared s) s)
| sh_threads s :
    (* each [join(timeout=5)] returns, the thread ended or not *)
    main_thread s = ShThreads ->
    step s (with_main ShDone (shared s) s).

(** The system once [run] has started the threads, with the images
    [paths] waiting in the OCR queue. *)
Definition started (enable : bool) (paths : list str) : System :=
  {| shared := {| is_running := true; enable_dobot := enable;
                  ocr_queue := q_of paths; dobot_queue := q_of [];
                  stats := counters_0 |};
     ocr_thread := AtLoop;
     dobot_thread := if enable then AtLoop else Stopped;   (* started if enabled *)
     monitor_thread := AtLoop;
     main_thread := ShNotCalled |}.

End Workers.

(** What an iteration of the OCR worker does to the Dobot queue: nothing,
    or it appends the parcel of the oldest image, whose OCR result
    succeeded with a province that is true and is not the sentinel. *)
Definition hands_over_resolved_only
    (process_single_parcel : str -> ParcelResult) (sh : Shared) : Prop :=
  let sh' := ocr_iteration process_single_parcel sh in
  items (dobot_queue sh') = items (dobot_queue sh)
  \/ exists image_path item,
       head (items (ocr_queue sh)) = Some image_path
       /\ success (process_single_parcel image_path) = true
       /\ truthy (province (process_single_parcel image_path)) = true
       /\ is_unresolved (province (process_single_parcel image_path)) = false
       /\ item_province item = province (process_single_parcel image_path)
       /\ items (dobot_queue sh') = items (dobot_queue sh) ++ [item].

(** An OCR stage that reads every label as a parcel for Chiang Mai, and
    an arm that sorts every parcel. *)
Definition reads_chiang_mai (image_path : str) : ParcelResult :=
  {| success := true; province := JStr (py "เชียงใหม่");
     tracking_number := JStr (py "PKG20250101000000"); db_saved := false |}.
Definition sorts_all (province : json) : bool := true.

(** The system after the OCR worker has handled one image. *)
Definition after_one_image (image_path : str) : System :=
  let sh := {| is_running := true; enable_dobot := true;
               ocr_queue := {| items := []; unfinished_tasks := 1 |};
               dobot_queue := q_of []; stats := counters_0 |} in
  {| shared := ocr_handle reads_chiang_mai image_path sh;
     ocr_thread := AtLoop; dobot_thread := AtLoop; monitor_thread := AtLoop;
     main_thread := ShNotCalled |}.

(** The system once [shutdown] has ended while the OCR worker was inside
    the external call on its image, the worker has then handed the parcel
    over and every thread has left its loop. *)
Definition stranded (image_path : str) : System :=
  let sh := {| is_running := false; enable_dobot := true;
               ocr_queue := {| items := []; unfinished_tasks := 1 |};
               dobot_queue := q_of []; stats := counters_0 |} in
  {| shared := ocr_handle reads_chiang_mai image_path sh;
     ocr_thread := Stopped; dobot_thread := Stopped; monitor_thread := Stopped;
     main_thread := ShDone |}.

(** A parcel the OCR worker may hand over to the Dobot queue. *)
Definition resolved (item : SortItem) : Prop :=
  success (item_result item) = true
  /\ truthy (item_province item) = true
  /\ is_unresolved (item_province item) = false.

(** The system with every worker past its loop, the main thread inside
    [self.ocr_queue.join()], and the images still waiting. *)
Definition blocked (enable : bool) (paths : list str) : System :=
  {| shared := {| is_running := false; enable_dobot := enable;
                  ocr_queue := q_of paths; dobot_queue := q_of [];
                  stats := counters_0 |};
     ocr_thread := Stopped; dobot_thread := Stopped; monitor_thread := Stopped;
     main_thread := ShOcrJoin |}.

(** The system with [shutdown] over and the OCR worker still inside the
    external call on the image it took. *)
Definition ended_early (enable : bool) (image_path : str) : System :=
  {| shared := {| is_running := false; enable_dobot := enable;
                  ocr_queue := {| items := []; unfinished_tasks := 1 |};
                  dobot_queue := q_of [];
                  stats := counters_0 |};
     ocr_thread := Busy image_path;
     dobot_thread := if enable then AtLoop else Stopped;
     monitor_thread := AtLoop;
     main_thread := ShDone |}.



Section Order.
Variable process_single_parcel : str -> ParcelResult.



End Order.

(** ** [monitor_new_images] *)

(** The order of [sorted] on strings: by code points, a prefix first. *)
Fixpoint str_leb (a b : str) : bool :=
  match a, b with
  | [], _ => true
  | _ :: _, [] => false
  | x :: a', y :: b' => (x <? y) || ((x =? y) && str_leb a' b')
  end.

Definition str_le (a b : str) : Prop := str_leb a b = true.

#[global] Instance str_le_dec : RelDecision str_le :=
  fun a b => decide (str_leb a b = true).

Section Monitor.

(** [filename.lower().endswith(('.jpg', '.jpeg', '.png', '.bmp'))] and
    [os.path.join(self.image_folder, filename)] are the library's. *)
Variable is_image : str -> bool.
Variable join : str -> str.

(** What the monitor thread holds: its set [processed_files], and the
    attributes of the pipeline it shares with the workers. *)
Definition Monitor : Type := gset str * Shared.

(** The body of the [for filename in sorted(new_files)] loop;
    [path_exists] is [os.path.exists] at that time. *)
Definition detect (path_exists : str -> bool) (st : Monitor) (filename : str) : Monitor :=
  let filepath := join filename in
  if path_exists filepath
  then ({[filename]} ∪ st.1, monitor_put filepath st.2)
  else st.

(** One pass of the [while self.is_running] loop over the listing of the
    folder ([os.listdir], empty when the folder is missing or the call
    raises). *)
Definition scan (listing : list str) (path_exists : str -> bool) (st : Monitor) : Monitor :=
  let current_files : gset str := list_to_set (List.filter is_image listing) in
  let new_files := current_files ∖ st.1 in
  foldl (detect path_exists) st (merge_sort str_le (elements new_files)).

(** The monitor thread over a number of passes, from its empty set. *)
Definition monitor_new_images (passes : list (list str * (str -> bool))) (sh : Shared)
    : Monitor :=
  foldl (fun st pass => scan pass.1 pass.2 st) (∅, sh) passes.

End Monitor.

(** ** [validate_configuration] *)

(** The attributes [validate_configuration] reads and writes, with the
    directories that exist on the disk. The key and the URL come from the
    configuration or from the environment: a string, or [None]. *)
Record Settings := {
  typhoon_api_key : option str;
  db_api_url : option str;
  save_to_db : bool;
  image_folder : str;
  output_folder : str;
  directories : gset str
}.

Definition present (o : option str) : bool :=
  match o with
  | Some (_ :: _) => true
  | _ => false
  end.

Definition set_save_to_db (b : bool) (c : Settings) : Settings :=
  {| typhoon_api_key := typhoon_api_key c; db_api_url := db_api_url c;
     save_to_db := b; image_folder := image_folder c;
     output_folder := output_folder c; directories := directories c |}.

Definition add_directory (folder : str) (c : Settings) : Settings :=
  {| typhoon_api_key := typhoon_api_key c; db_api_url := db_api_url c;
     save_to_db := save_to_db c; image_folder := image_folder c;
     output_folder := output_folder c; directories := {[folder]} ∪ directories c |}.

Section Validation.
Local Open Scope py_scope.

(** [os.makedirs] is the library's: it creates the directory, or raises. *)
Variable makedirs : str -> option exn.

(** [if not os.path.exists(folder): os.makedirs(folder)] *)
Definition ensure_folder (folder : str) : Py.M Settings unit :=
  c <- get ;;
  if bool_decide (folder ∈ directories c) then ret tt
  else match makedirs folder with
       | Some e => raise e
       | None => modify (add_directory folder)
       end.

Definition NO_KEY : str := py "❌ ไม่พบ TYPHOON_API_KEY".
Definition NO_URL : str := py "⚠️  ไม่พบ DB_API_URL (ข้าม Database)".

Definition validate_configuration : Py.M Settings bool :=
  c <- get ;;
  let errors := if present (typhoon_api_key c) then [] else [NO_KEY] in
  errors <- (if save_to_db c then
               if present (db_api_url c) then ret errors
               else modify (set_save_to_db false) ;; ret (errors ++ [NO_URL])
             else ret errors) ;;
  ensure_folder (image_folder c) ;;
  ensure_folder (output_folder c) ;;
  ret (bool_decide (errors = [])).

End Validation.

End Pipeline.

(* ===================================================================== *)
(** * Properties *)
(* ===================================================================== *)

Section MonadFacts.

Lemma bind_returns {S A B} (m : Py.M S A) (f : A -> Py.M S B) s a s' :
  m s = (Returns a, s') -> bind m f s = f a s'.
Proof. intros H. unfold bind. now rewrite H. Qed.

Lemma bind_ret {S A B} (a : A) (f : A -> Py.M S B) s : bind (ret a) f s = f a s.
Proof. reflexivity. Qed.

Lemma bind_get {S B} (f : S -> Py.M S B) s : bind get f s = f s s.
Proof. reflexivity. Qed.

Lemma bind_modify {S B} (g : S -> S) (f : unit -> Py.M S B) s :
  bind (modify g) f s = f tt (g s).
Proof. reflexivity. Qed.

Lemma bind_bind {S A B C} (m : Py.M S A) (f : A -> Py.M S B) (g : B -> Py.M S C) s :
  bind (bind m f) g s = bind m (fun a => bind (f a) g) s.
Proof. unfold bind. destruct (m s) as [[a|e] s']; reflexivity. Qed.

Lemma total_ret {S A} (a : A) : total (S := S) (ret a).
Proof. intros s. now exists a, s. Qed.

Lemma total_get {S} : total (S := S) get.
Proof. intros s. now exists s, s. Qed.

Lemma total_modify {S} (f : S -> S) : total (modify f).
Proof. intros s. now exists tt, (f s). Qed.

Lemma total_bind {S A B} (m : Py.M S A) (f : A -> Py.M S B) :
  total m -> (forall a, total (f a)) -> total (bind m f).
Proof.
  intros Hm Hf s. destruct (Hm s) as (a & s' & E). unfold bind. rewrite E. apply Hf.
Qed.

Lemma returning_returns {S} (m : Py.M S unit) s0 s1 :
  m s0 = (Returns tt, s1) -> returning m s0 = Returns s1.
Proof. intros H. unfold returning, try_except_Exception. now rewrite H. Qed.

(** A body that raises an [Exception] still gives the object back, as far
    as it was filled. *)
Lemma returning_degrades {S} (m : Py.M S unit) s0 s1 n :
  m s0 = (Raises (Exception n), s1) -> returning m s0 = Returns s1.
Proof. intros H. unfold returning, try_except_Exception. now rewrite H. Qed.


End MonadFacts.

Ltac mstep :=
  repeat first [rewrite bind_ret | rewrite bind_get | rewrite bind_modify].

(** Runs the call at the head of the goal with an equation for it. *)
Ltac mcall H := rewrite (bind_returns _ _ _ _ _ H); mstep.

(* --------------------------------------------------------------------- *)
(** ** The arm controller *)
(* --------------------------------------------------------------------- *)

Section DobotFacts.
Import Dobot.
Local Open Scope py_scope.

Lemma tame_set_issued l c : tame c -> tame (set_issued l c).
Proof. intros H d h k e Hd. apply (H d h k e). exact Hd. Qed.

Lemma set_issued_twice l l' c : set_issued l (set_issued l' c) = set_issued l c.
Proof. reflexivity. Qed.

Lemma set_issued_same c : set_issued (issued c) c = c.
Proof. now destruct c. Qed.

(** A guarded vendor call returns, whatever the arm answers. *)
Lemma guarded_vendor d k c :
  dobot c = Some d -> tame c ->
  exists l, try_except_Exception (vendor d k) (fun _ => ret tt) c
            = (Returns tt, set_issued l c).
Proof.
  intros Hd Ht. unfold try_except_Exception, vendor.
  destruct (respond d (issued c) k) as [e|] eqn:E.
  - pose proof (Ht d _ _ _ Hd E) as He. destruct e; [|discriminate].
    eexists. reflexivity.
  - eexists. reflexivity.
Qed.

Lemma move_to_returns x y z r c :
  tame c -> exists l, move_to x y z r c = (Returns tt, set_issued l c).
Proof.
  intros Ht. unfold move_to, bind, get.
  destruct (simulation_mode c).
  - exists (issued c). unfold ret. now rewrite set_issued_same.
  - destruct (dobot c) as [d|] eqn:Hd.
    + now apply guarded_vendor.
    + exists (issued c). unfold ret. now rewrite set_issued_same.
Qed.

Lemma suction_returns b c :
  tame c -> exists l, suction b c = (Returns tt, set_issued l c).
Proof.
  intros Ht. unfold suction, bind, get.
  destruct (simulation_mode c).
  - exists (issued c). unfold ret. now rewrite set_issued_same.
  - destruct (dobot c) as [d|] eqn:Hd.
    + now apply guarded_vendor.
    + exists (issued c). unfold ret. now rewrite set_issued_same.
Qed.

Lemma move_to_pickup_returns c :
  tame c -> exists l, move_to_pickup c = (Returns tt, set_issued l c).
Proof.
  intros Ht. unfold move_to_pickup, index, move_to_star; cbn [lookup list_lookup PICKUP].
  mstep.
  destruct (move_to_returns (-8.51)%float 215.85%float SAFETY_Z 92.26%float c Ht) as [l1 H1].
  mcall H1.
  destruct (move_to_returns (-8.51)%float 215.85%float (-8.19)%float 92.26%float _
              (tame_set_issued l1 c Ht)) as [l2 H2].
  exists l2. exact H2.
Qed.

Lemma move_home_returns c :
  tame c -> exists l, move_home c = (Returns tt, set_issued l c).
Proof. intros Ht. apply move_to_returns, Ht. Qed.

(** The lift after the pick: the third block of [pick_and_place]. *)
Lemma lift_returns (p : list float) x y z r c :
  p = [x; y; z; r] -> tame c ->
  exists l,
    (x <- index p 0 ;; y <- index p 1 ;; r <- index p 3 ;; move_to x y SAFETY_Z r) c
    = (Returns tt, set_issued l c).
Proof.
  intros -> Ht. unfold index; cbn [lookup list_lookup]. mstep.
  apply move_to_returns, Ht.
Qed.

Lemma move_to_drop_missing province c :
  DROP_POINTS c !! province = None -> move_to_drop province c = (Returns false, c).
Proof. intros H. unfold move_to_drop. mstep. now rewrite H. Qed.

Lemma move_to_drop_returns province x y z r c :
  DROP_POINTS c !! province = Some [x; y; z; r] -> tame c ->
  exists l, move_to_drop province c = (Returns true, set_issued l c).
Proof.
  intros H Ht. unfold move_to_drop. mstep. rewrite H.
  cbn [falsy_drop_point default from_option id].
  unfold index, move_to_star; cbn [lookup list_lookup]. mstep.
  destruct (move_to_returns x y SAFETY_Z r c Ht) as [l1 H1]. mcall H1.
  destruct (move_to_returns x y z r _ (tame_set_issued l1 c Ht)) as [l2 H2]. mcall H2.
  now exists l2.
Qed.

(** The try block of [pick_and_place] up to the choice of the target. *)
Lemma pick_up_returns {B} (k : unit -> M B) c :
  tame c ->
  exists l,
    (move_to_pickup ;; suction_on ;;
     (x <- index PICKUP 0 ;; y <- index PICKUP 1 ;; r <- index PICKUP 3 ;;
      move_to x y SAFETY_Z r) ;; k tt) c
    = k tt (set_issued l c).
Proof.
  intros Ht.
  destruct (move_to_pickup_returns c Ht) as [l1 H1].
  rewrite (bind_returns _ _ _ _ _ H1).
  destruct (suction_returns true (set_issued l1 c) (tame_set_issued l1 c Ht)) as [l2 H2].
  unfold suction_on. rewrite (bind_returns _ _ _ _ _ H2).
  destruct (lift_returns PICKUP _ _ _ _ (set_issued l2 (set_issued l1 c)) eq_refl
              (tame_set_issued l2 c Ht)) as [l3 H3].
  rewrite (bind_returns _ _ _ _ _ H3).
  now exists l3.
Qed.

(** With no entry for the province and none for the reserve point, the
    call reports a failure and counts it. *)
Theorem pick_and_place_without_reserve province c :
  is_connected c = true -> tame c ->
  DROP_POINTS c !! province = None ->
  DROP_POINTS c !! RESERVE = None ->
  exists c',
    pick_and_place province c = (Returns false, c')
    /\ failed_drops (stats c') = S (failed_drops (stats c))
    /\ successful_drops (stats c') = successful_drops (stats c).
Proof.
  intros Hc Ht Hp Hr. unfold pick_and_place. rewrite bind_get, Hc. cbn [negb].
  unfold try_except_Exception, pick_sequence.
  match goal with |- context [ (move_to_pickup ;; suction_on ;; ?b ;; ?k) c ] =>
    destruct (pick_up_returns (fun _ => k) c Ht) as [l Hl] end.
  rewrite Hl. rewrite bind_get. cbn [DROP_POINTS set_issued].
  rewrite decide_False by (rewrite Hp; apply is_Some_None).
  rewrite (bind_returns _ _ _ _ _ (move_to_drop_missing RESERVE (set_issued l c) Hr)).
  cbn [negb]. unfold incr_failed_drops, set_stats. rewrite bind_modify. unfold ret.
  eexists. split; [reflexivity|]. cbn. split; reflexivity.
Qed.

(** With an entry for the province, the call reports a success and counts
    no failure, whatever the commands of the arm raise. *)
Theorem pick_and_place_swallows province x y z r c :
  is_connected c = true -> tame c ->
  DROP_POINTS c !! province = Some [x; y; z; r] ->
  exists c',
    pick_and_place province c = (Returns true, c')
    /\ failed_drops (stats c') = failed_drops (stats c)
    /\ successful_drops (stats c') = S (successful_drops (stats c)).
Proof.
  intros Hc Ht Hp. unfold pick_and_place. rewrite bind_get, Hc. cbn [negb].
  unfold try_except_Exception, pick_sequence.
  match goal with |- context [ (move_to_pickup ;; suction_on ;; ?b ;; ?k) c ] =>
    destruct (pick_up_returns (fun _ => k) c Ht) as [l Hl] end.
  rewrite Hl. rewrite bind_get. cbn [DROP_POINTS set_issued].
  rewrite decide_True by (rewrite Hp; eauto).
  pose proof (tame_set_issued l c Ht) as Ht1.
  destruct (move_to_drop_returns province x y z r (set_issued l c) Hp Ht1) as [l1 H1].
  rewrite (bind_returns _ _ _ _ _ H1). cbn [negb].
  destruct (suction_returns false (set_issued l1 (set_issued l c))
              (tame_set_issued l1 _ Ht1)) as [l2 H2].
  unfold suction_off. rewrite (bind_returns _ _ _ _ _ H2).
  unfold drop_point_of. rewrite bind_bind, bind_get.
  cbn [DROP_POINTS set_issued]. rewrite Hp, bind_ret.
  match goal with |- context [ bind ?b _ ?s ] =>
    destruct (lift_returns [x; y; z; r] _ _ _ _ s eq_refl (tame_set_issued l2 c Ht))
      as [l3 H3] end.
  rewrite (bind_returns _ _ _ _ _ H3).
  unfold record_success, set_stats. rewrite bind_modify. unfold ret.
  eexists. split; [reflexivity|]. cbn. split; reflexivity.
Qed.


Lemma pick_and_place_without_reserve_witness :
  exists c',
    pick_and_place (py "ชลบุรี") simulated = (Returns false, c')
    /\ failed_drops (stats c') = 1%nat
    /\ successful_drops (stats c') = 0%nat.
Proof.
  apply (pick_and_place_without_reserve (py "ชลบุรี") simulated).
  - reflexivity.
  - intros d h k e Hd. discriminate Hd.
  - vm_compute. reflexivity.
  - vm_compute. reflexivity.
Defined.

Lemma tame_broken_pump : tame (connected broken_pump).
Proof.
  intros d h k e [= <-] H. destruct k as [| [|] | |]; cbn in H; try discriminate H.
  now injection H as <-.
Qed.

Lemma pick_and_place_swallows_witness :
  exists c',
    pick_and_place (py "เชียงใหม่") (connected broken_pump) = (Returns true, c')
    /\ failed_drops (stats c') = 0%nat
    /\ successful_drops (stats c') = 1%nat.
Proof.
  apply (pick_and_place_swallows (py "เชียงใหม่")
           231.49%float 0.25%float (-18.38)%float 0.06%float (connected broken_pump)).
  - reflexivity.
  - exact tame_broken_pump.
  - vm_compute. reflexivity.
Defined.

(** [test_dobot] builds its controller in simulation mode and connects. *)
Lemma simulated_is_connected driver :
  connect driver (init "COM5" 100 true) = (Returns true, simulated).
Proof. reflexivity. Qed.

(** C1: the province [ชลบุรี] of [test_dobot] has no drop point, and the
    reserve point [จุดสำรอง] the code falls back to has none either: in
    simulation mode as on a sound arm the call returns [False] where the
    specification promises a successful fallback, and counts a failed
    drop; on the arm the parcel is left hanging over the pick-up point. *)
Theorem reserve_point_is_missing :
  DROP_POINTS_0 !! py "ชลบุรี" = None
  /\ DROP_POINTS_0 !! RESERVE = None
  /\ (pick_and_place (py "ชลบุรี") simulated).1 = Returns false
  /\ failed_drops (stats (pick_and_place (py "ชลบุรี") simulated).2) = 1%nat
  /\ (pick_and_place (py "ชลบุรี") (connected sound_arm)).1 = Returns false
  /\ last (issued (pick_and_place (py "ชลบุรี") (connected sound_arm)).2)
     = Some (VMoveTo (-8.51)%float 215.85%float SAFETY_Z 92.26%float true).
Proof. vm_compute. repeat split; reflexivity. Qed.

(** C6: the pump of the arm raises on [suck(True)] in the middle of the
    sequence. The wrapper [suction_on] catches the exception, so the
    handler of [pick_and_place] never sees it: the call returns [True],
    counts a successful drop and no failed one, and runs no recovery (the
    eight commands are those of a normal run). *)
Theorem broken_pump_goes_unnoticed :
  respond broken_pump [] (VSuck true) = Some (Exception "OSError")
  /\ (pick_and_place (py "เชียงใหม่") (connected broken_pump)).1 = Returns true
  /\ failed_drops (stats (pick_and_place (py "เชียงใหม่") (connected broken_pump)).2) = 0%nat
  /\ successful_drops (stats (pick_and_place (py "เชียงใหม่") (connected broken_pump)).2)
     = 1%nat
  /\ issued (pick_and_place (py "เชียงใหม่") (connected broken_pump)).2
     = issued (pick_and_place (py "เชียงใหม่") (connected sound_arm)).2.
Proof. vm_compute. repeat split; reflexivity. Qed.

(** A wrapper changes nothing of the controller but the record of the
    commands, whatever the arm answers. *)
Lemma move_to_frame x y z r c :
  exists o l, move_to x y z r c = (o, set_issued l c).
Proof.
  unfold move_to. rewrite bind_get.
  destruct (simulation_mode c); [exists (Returns tt), (issued c); unfold ret;
                                  now rewrite set_issued_same|].
  destruct (dobot c) as [d|]; [|exists (Returns tt), (issued c); unfold ret;
                                  now rewrite set_issued_same].
  unfold try_except_Exception, vendor.
  destruct (respond d (issued c) _) as [[n|n]|]; eexists _, _; reflexivity.
Qed.

Lemma suction_frame b c :
  exists o l, suction b c = (o, set_issued l c).
Proof.
  unfold suction. rewrite bind_get.
  destruct (simulation_mode c); [exists (Returns tt), (issued c); unfold ret;
                                  now rewrite set_issued_same|].
  destruct (dobot c) as [d|]; [|exists (Returns tt), (issued c); unfold ret;
                                  now rewrite set_issued_same].
  unfold try_except_Exception, vendor.
  destruct (respond d (issued c) _) as [[n|n]|]; eexists _, _; reflexivity.
Qed.

(** The emergency block never raises, whatever the arm does during the
    recovery, and counts one failed drop. *)
Lemma emergency_returns c :
  exists l,
    emergency c
    = (Returns false,
       set_issued l
         (snd (incr_failed_drops c))).
Proof.
  unfold emergency, try_except, suction_off, move_home, move_to_star, HOME.
  unfold bind at 1 2.
  destruct (suction_frame false c) as (o1 & l1 & E1). unfold bind at 1. rewrite E1.
  destruct o1 as [[]|e1].
  - destruct (move_to_frame 125.92%float 177.82%float 42.11%float 54.70%float
                (set_issued l1 c)) as (o2 & l2 & E2).
    rewrite E2. exists l2. destruct o2; reflexivity.
  - exists l1. reflexivity.
Qed.

(** What the handler of [pick_and_place] does with an exception that
    reaches it: the call does not raise, counts one failed drop and
    returns [False]. *)
Lemma handler_reports_failure province c c1 n :
  is_connected c = true ->
  pick_sequence province c = (Raises (Exception n), c1) ->
  exists c',
    pick_and_place province c = (Returns false, c')
    /\ failed_drops (stats c') = S (failed_drops (stats c1))
    /\ successful_drops (stats c') = successful_drops (stats c1).
Proof.
  intros Hc Hseq. unfold pick_and_place. rewrite bind_get, Hc. cbn [negb].
  unfold try_except_Exception. rewrite Hseq.
  destruct (emergency_returns c1) as [l ->].
  eexists. split; [reflexivity|]. split; reflexivity.
Qed.

(** An exception reaches the handler with an entry of the table that has
    too few coordinates: suction off, home, one failed drop, [False]. *)
Lemma handler_recovers :
  let run := pick_and_place (py "ระยอง") (with_short_entry (py "ระยอง")) in
  run.1 = Returns false
  /\ failed_drops (stats run.2) = 1%nat
  /\ drop 4 (issued run.2)
     = [VSuck false; VMoveTo 125.92%float 177.82%float 42.11%float 54.70%float true].
Proof. vm_compute. repeat split; reflexivity. Qed.

End DobotFacts.

(* --------------------------------------------------------------------- *)
(** ** The province resolver *)
(* --------------------------------------------------------------------- *)

Section StringFacts.

Lemma startswith_take n (s : str) : startswith (take n s) s = true.
Proof.
  revert n. induction s as [|x s IH]; intros [|n]; cbn; try reflexivity.
  now rewrite N.eqb_refl, IH.
Qed.

Lemma contains_drop sub i (s : str) : contains sub (drop i s) = true -> contains sub s = true.
Proof.
  revert i. induction s as [|x s IH]; intros [|i]; cbn [drop]; try easy.
  intros H. cbn [contains]. rewrite (IH i H). apply orb_true_r.
Qed.

Lemma contains_slice (s : str) i j : contains (slice s i j) s = true.
Proof.
  unfold slice. apply (contains_drop _ i).
  destruct (drop i s) as [|x t] eqn:E.
  - now destruct (j - i)%nat.
  - cbn [contains]. now rewrite startswith_take.
Qed.

End StringFacts.

Section ResolverFacts.
Import Re Process.

Lemma findall_contains r (text w : str) : In w (findall r text) -> contains w text = true.
Proof.
  unfold findall. rewrite in_map_iff. intros (mt & <- & _). apply contains_slice.
Qed.

Lemma str_eqb_eq (a b : str) : str_eqb a b = true <-> a = b.
Proof. unfold str_eqb. apply bool_decide_eq_true. Qed.

Lemma str_in_In x l : str_in x l = true <-> In x l.
Proof.
  unfold str_in. rewrite existsb_exists. split.
  - intros (y & Hy & E). apply str_eqb_eq in E. now subst.
  - intros H. exists x. split; [easy|]. now apply str_eqb_eq.
Qed.

(** Every canonical name is one Thai-script word. *)
Lemma province_is_one_word :
  forallb (fun p => bool_decide (findall thai_word p = [p])) all_provinces = true.
Proof. vm_compute. reflexivity. Qed.

Lemma fuzzy_implies_direct text p :
  layer_fuzzy text = Some p -> layer_direct text <> None.
Proof.
  unfold layer_fuzzy, layer_direct. intros H.
  apply find_some in H as [Hin Hw].
  pose proof province_is_one_word as Hall.
  rewrite forallb_forall in Hall. specialize (Hall p Hin).
  apply bool_decide_eq_true in Hall. rewrite Hall in Hw.
  cbn [existsb] in Hw. rewrite orb_false_r in Hw.
  apply str_in_In, findall_contains in Hw.
  intros Hnone. pose proof (find_none _ _ Hnone p Hin) as Hf.
  cbn beta in Hf. now rewrite Hw in Hf.
Qed.

(** C10: the resolver returns on every text what it returns with its
    third layer, the intersection of the Thai-script words, taken out:
    every canonical name is one Thai-script word, so a text that shares a
    word with a name contains the name, and the second layer has already
    answered. *)
Theorem fuzzy_layer_redundant text :
  extract_province_from_text text = extract_province_without_fuzzy text.
Proof.
  unfold extract_province_from_text, extract_province_without_fuzzy.
  destruct (bool_decide (text = [])); [reflexivity|].
  destruct (layer_pattern province_patterns (strip text)); [reflexivity|].
  destruct (layer_direct (strip text)) eqn:Hd; [reflexivity|].
  destruct (layer_fuzzy (strip text)) eqn:Hf; [|reflexivity].
  now apply fuzzy_implies_direct in Hf.
Qed.

Lemma all_provinces_resolve : forallb resolves_three_forms all_provinces = true.
Proof. vm_compute. reflexivity. Qed.

(** C4: each of the 77 canonical names resolves to itself as it stands,
    after [จ.] and after [จังหวัด]. *)
Theorem canonical_forms_resolve p :
  In p all_provinces ->
  extract_province_from_text p = Some p
  /\ extract_province_from_text (py "จ." ++ p) = Some p
  /\ extract_province_from_text (py "จังหวัด" ++ p) = Some p.
Proof.
  intros Hin. pose proof all_provinces_resolve as H.
  rewrite forallb_forall in H. specialize (H p Hin).
  unfold resolves_three_forms in H.
  apply andb_prop in H as [H H3]. apply andb_prop in H as [H1 H2].
  apply bool_decide_eq_true in H1, H2, H3. auto.
Qed.

Lemma canonical_forms_resolve_witness :
  extract_province_from_text (py "เชียงใหม่") = Some (py "เชียงใหม่")
  /\ extract_province_from_text (py "จ." ++ py "เชียงใหม่") = Some (py "เชียงใหม่")
  /\ extract_province_from_text (py "จังหวัด" ++ py "เชียงใหม่") = Some (py "เชียงใหม่").
Proof.
  apply (canonical_forms_resolve (py "เชียงใหม่")).
  vm_compute. do 13 right. left. reflexivity.
Defined.

End ResolverFacts.

(* --------------------------------------------------------------------- *)
(** ** The sender/recipient splitter *)
(* --------------------------------------------------------------------- *)

Section StripFacts.
Import Process.

Lemma lstrip_blank s : exists w, blank w /\ s = w ++ lstrip s.
Proof.
  induction s as [|x s (w & Hw & E)].
  - exists []. split; [constructor|reflexivity].
  - cbn [lstrip]. destruct (isspace x) eqn:Hx.
    + exists (x :: w). split; [now constructor|]. cbn. now rewrite <- E.
    + exists []. split; [constructor|reflexivity].
Qed.

Lemma rstrip_blank s : exists w, blank w /\ s = rstrip s ++ w.
Proof.
  unfold rstrip. destruct (lstrip_blank (rev s)) as (w & Hw & E).
  exists (rev w). split.
  - unfold blank in *. now apply Forall_rev.
  - rewrite <- rev_app_distr, <- E. now rewrite rev_involutive.
Qed.

Lemma lstrip_snoc l x : isspace x = false -> exists l', lstrip (l ++ [x]) = l' ++ [x].
Proof.
  intros Hx. induction l as [|y l (l' & E)]; cbn [app lstrip].
  - rewrite Hx. now exists [].
  - destruct (isspace y).
    + now exists l'.
    + now exists (y :: l).
Qed.

Lemma rstrip_cons x s : isspace x = false -> exists t, rstrip (x :: s) = x :: t.
Proof.
  intros Hx. unfold rstrip. cbn [rev].
  destruct (lstrip_snoc (rev s) x Hx) as (l' & ->).
  rewrite rev_app_distr. cbn. now eexists.
Qed.

(** A text that starts with a visible character keeps it under [strip],
    and loses white space at its end only. *)
Lemma strip_cons x s :
  isspace x = false ->
  strip (x :: s) <> [] /\ exists w, blank w /\ x :: s = strip (x :: s) ++ w.
Proof.
  intros Hx. unfold strip. cbn [lstrip]. rewrite Hx. split.
  - destruct (rstrip_cons x s Hx) as (t & ->). discriminate.
  - apply rstrip_blank.
Qed.

End StripFacts.

Section FinditerFacts.
Import Re Process.

Lemma match_at_start r b p s mt : match_at r b p s = Some mt -> m_start mt = p.
Proof.
  unfold match_at. destruct (m r _ _ _) as [[c g]|]; [|discriminate].
  now intros [= <-].
Qed.

(** Every match of [finditer] is a match of the pattern at its start. *)
Lemma finditer_from_match r s :
  forall b p skip mt, In mt (finditer_from r b p skip s) ->
  exists b' i, m_start mt = (p + i)%nat /\ match_at r b' (p + i) (drop i s) = Some mt.
Proof.
  induction s as [|y t IH]; intros b p skip mt Hin.
  - destruct skip; cbn in Hin; [|easy].
    destruct (match_at r b p []) as [x|] eqn:E; [|easy].
    destruct Hin as [->|[]]. exists b, 0%nat. rewrite Nat.add_0_r.
    split; [now apply match_at_start in E|exact E].
  - assert (Hrec : forall b0 k, In mt (finditer_from r b0 (S p) k t) ->
              exists b' i, m_start mt = (p + i)%nat
                           /\ match_at r b' (p + i) (drop i (y :: t)) = Some mt).
    { intros b0 k H. destruct (IH _ _ _ _ H) as (b' & i & E1 & E2).
      exists b', (S i). rewrite Nat.add_succ_r. split; [exact E1|exact E2]. }
    destruct skip; cbn [finditer_from] in Hin; [|exact (Hrec _ _ Hin)].
    destruct (match_at r b p (y :: t)) as [x|] eqn:E.
    + destruct Hin as [->|Hin]; [|exact (Hrec _ _ Hin)].
      exists b, 0%nat. rewrite Nat.add_0_r.
      split; [now apply match_at_start in E|exact E].
    + exact (Hrec _ _ Hin).
Qed.

Lemma positions_match patterns text p :
  In p (positions patterns text) ->
  exists r b mt, In r patterns /\ match_at r b p (drop p text) = Some mt.
Proof.
  unfold positions. rewrite in_flat_map. intros (r & Hr & Hp).
  rewrite in_map_iff in Hp. destruct Hp as (mt & <- & Hmt).
  unfold finditer in Hmt. apply finditer_from_match in Hmt as (b' & i & E1 & E2).
  cbn in E1, E2. rewrite E1. eauto.
Qed.

Lemma list_min_In l : l <> [] -> In (list_min l) l.
Proof.
  destruct l as [|x l]; [easy|]. intros _. cbn [list_min].
  revert x. induction l as [|y l IH]; intros x; cbn [fold_left].
  - now left.
  - destruct (IH (Nat.min x y)) as [E|H].
    + rewrite <- E. destruct (Nat.min_spec x y) as [[_ ->]|[_ ->]]; cbn; auto.
    + right. now right.
Qed.

End FinditerFacts.

Section MarkerFacts.
Import Re Process.

Lemma m_first f R T c g k res :
  m (Seq (Seq (Chr f) R) T) c g k = Some res ->
  exists x t, rest c = x :: t /\ f x = true.
Proof.
  cbn [m]. destruct (rest c) as [|x t]; [discriminate|].
  destruct (f x) eqn:E; [eauto|discriminate].
Qed.

Lemma m_first4 f1 f2 f3 f4 R T c g k res :
  m (Seq (Seq (Chr f1) (Seq (Chr f2) (Seq (Chr f3) (Seq (Chr f4) R)))) T) c g k = Some res ->
  exists x1 x2 x3 x4 t, rest c = x1 :: x2 :: x3 :: x4 :: t
    /\ f1 x1 = true /\ f2 x2 = true /\ f3 x3 = true /\ f4 x4 = true.
Proof.
  cbn [m]. destruct (rest c) as [|x1 [|x2 [|x3 [|x4 t]]]];
    cbn [rest advance];
    repeat match goal with
    | |- context [if ?f ?x then _ else _] => destruct (f x) eqn:?; cbn [rest advance]
    end; try discriminate.
  intros _. exists x1, x2, x3, x4, t. auto.
Qed.

Lemma sender_marker_head r b p s mt :
  In r sender_markers -> match_at r b p s = Some mt -> sender_head s = true.
Proof.
  unfold match_at. intros Hr H.
  destruct (m r _ _ _) as [res|] eqn:E; [clear H|discriminate].
  destruct Hr as [<-|[<-|[<-|[]]]].
  - apply m_first4 in E as (x1 & x2 & x3 & x4 & t & Hs & H1 & H2 & H3 & H4).
    cbn in Hs. subst s. unfold sender_head.
    apply orb_true_iff. left. change (take 4 (py "ผู้ส่ง")) with [3612; 3641; 3657; 3626].
    cbn [startswith]. apply N.eqb_eq in H1, H2, H3, H4. subst.
    reflexivity.
  - apply m_first in E as (x & t & Hs & H1). cbn in Hs. subst s.
    unfold sender_head. apply orb_true_iff. right.
    apply orb_true_iff. left. exact H1.
  - apply m_first in E as (x & t & Hs & H1). cbn in Hs. subst s.
    unfold sender_head. apply orb_true_iff. right.
    apply orb_true_iff. right. exact H1.
Qed.

Lemma recipient_marker_head r b p s mt :
  In r recipient_markers -> match_at r b p s = Some mt -> recipient_head s = true.
Proof.
  unfold match_at. intros Hr H.
  destruct (m r _ _ _) as [res|] eqn:E; [clear H|discriminate].
  destruct Hr as [<-|[<-|[<-|[]]]].
  - apply m_first4 in E as (x1 & x2 & x3 & x4 & t & Hs & H1 & H2 & H3 & H4).
    cbn in Hs. subst s. unfold recipient_head.
    apply orb_true_iff. left. change (take 4 (py "ผู้รับ")) with [3612; 3641; 3657; 3619].
    cbn [startswith]. apply N.eqb_eq in H1, H2, H3, H4. subst.
    reflexivity.
  - apply m_first in E as (x & t & Hs & H1). cbn in Hs. subst s.
    unfold recipient_head. apply orb_true_iff. right.
    apply orb_true_iff. left. exact H1.
  - apply m_first in E as (x & t & Hs & H1). cbn in Hs. subst s.
    unfold recipient_head. apply orb_true_iff. right.
    apply orb_true_iff. right. exact H1.
Qed.

(** The characters a head can start with. *)
Lemma sender_head_first s :
  sender_head s = true ->
  exists x t, s = x :: t /\ In x [3612; 0x73; 0x53; 0x17F; 0x66; 0x46]
    /\ (x = 3612 -> exists t', t = 3641 :: 3657 :: 3626 :: t').
Proof.
  unfold sender_head. change (take 4 (py "ผู้ส่ง")) with [3612; 3641; 3657; 3626].
  destruct s as [|x t]; [discriminate|]. intros H. exists x, t. split; [reflexivity|].
  apply orb_true_iff in H as [H|H].
  - destruct t as [|x2 [|x3 [|x4 t']]]; cbn [startswith] in H;
      repeat (apply andb_prop in H as [? H]); try discriminate.
    repeat match goal with E : (_ =? _) = true |- _ => apply N.eqb_eq in E end.
    subst. split; [now left|]. intros _. now exists t'.
  - unfold fold_eq in H. cbn in H.
    repeat (apply orb_true_iff in H as [H|H]); try discriminate;
      apply N.eqb_eq in H; subst; (split; [cbn; tauto|discriminate]).
Qed.

Lemma recipient_head_first s :
  recipient_head s = true ->
  exists x t, s = x :: t /\ In x [3612; 0x72; 0x52; 0x74; 0x54]
    /\ (x = 3612 -> exists t', t = 3641 :: 3657 :: 3619 :: t').
Proof.
  unfold recipient_head. change (take 4 (py "ผู้รับ")) with [3612; 3641; 3657; 3619].
  destruct s as [|x t]; [discriminate|]. intros H. exists x, t. split; [reflexivity|].
  apply orb_true_iff in H as [H|H].
  - destruct t as [|x2 [|x3 [|x4 t']]]; cbn [startswith] in H;
      repeat (apply andb_prop in H as [? H]); try discriminate.
    repeat match goal with E : (_ =? _) = true |- _ => apply N.eqb_eq in E end.
    subst. split; [now left|]. intros _. now exists t'.
  - unfold fold_eq in H. cbn in H.
    repeat (apply orb_true_iff in H as [H|H]); try discriminate;
      apply N.eqb_eq in H; subst; (split; [cbn; tauto|discriminate]).
Qed.

(** No text starts with a marker of each kind. *)
Lemma heads_disjoint s : sender_head s = true -> recipient_head s = true -> False.
Proof.
  intros Hs Hr.
  apply sender_head_first in Hs as (x & t & -> & Hx & Ht).
  apply recipient_head_first in Hr as (x' & t' & [= <- <-] & Hx' & Ht').
  cbn in Hx, Hx'.
  destruct Hx as [<-|Hx].
  - destruct (Ht eq_refl) as (u & ->). destruct (Ht' eq_refl) as (u' & [=]).
  - repeat (destruct Hx as [<-|Hx]; [
      repeat (destruct Hx' as [Hx'|Hx']; [discriminate Hx'|]); exact Hx' |]).
    exact Hx.
Qed.

Lemma sender_head_visible s :
  sender_head s = true -> exists x t, s = x :: t /\ isspace x = false.
Proof.
  intros H. apply sender_head_first in H as (x & t & -> & Hx & _).
  exists x, t. split; [reflexivity|].
  cbn in Hx. repeat (destruct Hx as [<-|Hx]; [reflexivity|]). destruct Hx.
Qed.

Lemma recipient_head_visible s :
  recipient_head s = true -> exists x t, s = x :: t /\ isspace x = false.
Proof.
  intros H. apply recipient_head_first in H as (x & t & -> & Hx & _).
  exists x, t. split; [reflexivity|].
  cbn in Hx. repeat (destruct Hx as [<-|Hx]; [reflexivity|]). destruct Hx.
Qed.

End MarkerFacts.

Section SplitFacts.
Import Re Process.

(** A slice that starts on a visible character and is not empty. *)
Lemma slice_cons text a b x t :
  drop a text = x :: t -> (a < b)%nat ->
  slice text a b = x :: take (b - a - 1) t.
Proof.
  intros E Hab. unfold slice. rewrite E.
  destruct (b - a)%nat as [|n] eqn:En; [lia|].
  cbn. now rewrite Nat.sub_0_r.
Qed.

Lemma drop_split (text : str) a b :
  (a <= b)%nat -> drop a text = slice text a b ++ drop b text.
Proof.
  intros Hab. unfold slice.
  rewrite <- (take_drop (b - a) (drop a text)) at 1.
  rewrite drop_drop. now replace (a + (b - a))%nat with b by lia.
Qed.

(** The two pieces the splitter strips, when the marker at [a] comes
    first and the marker at [b] second. *)
Lemma two_pieces text a b :
  (a < b)%nat ->
  (exists x t, drop a text = x :: t /\ isspace x = false) ->
  (exists x t, drop b text = x :: t /\ isspace x = false) ->
  strip (slice text a b) <> [] /\ strip (drop b text) <> [] /\
  exists w1 w2, blank w1 /\ blank w2 /\
    drop a text = strip (slice text a b) ++ w1 ++ strip (drop b text) ++ w2.
Proof.
  intros Hab (x & t & Ea & Hx) (y & u & Eb & Hy).
  rewrite (drop_split text a b) by lia.
  rewrite (slice_cons text a b x t Ea Hab). rewrite Eb.
  destruct (strip_cons x (take (b - a - 1) t) Hx) as (N1 & w1 & B1 & E1).
  destruct (strip_cons y u Hy) as (N2 & w2 & B2 & E2).
  split; [exact N1|]. split; [exact N2|].
  exists w1, w2. split; [exact B1|]. split; [exact B2|].
  rewrite E1 at 1. rewrite E2 at 1. now rewrite <- !app_assoc.
Qed.

(** C2, amended: on a text with a marker of each kind both halves are
    non-empty, and the half of the earlier marker followed by the half of
    the later one give back, up to the white space [strip] removes, the
    text from the earlier marker on. What stands before the earlier marker
    is in neither half. *)
Theorem split_at_markers text :
  positions sender_markers text <> [] ->
  positions recipient_markers text <> [] ->
  let sender_start := list_min (positions sender_markers text) in
  let recipient_start := list_min (positions recipient_markers text) in
  let halves := smart_split_sender_recipient text in
  halves.1 <> [] /\ halves.2 <> [] /\
  exists w1 w2, blank w1 /\ blank w2 /\
    if (sender_start <? recipient_start)%nat
    then drop sender_start text = halves.1 ++ w1 ++ halves.2 ++ w2
    else drop recipient_start text = halves.2 ++ w1 ++ halves.1 ++ w2.
Proof.
  intros Hs Hr. cbv zeta. unfold smart_split_sender_recipient.
  rewrite (bool_decide_eq_false_2 _ Hs), (bool_decide_eq_false_2 _ Hr). cbn [negb andb].
  set (a := list_min (positions sender_markers text)).
  set (b := list_min (positions recipient_markers text)).
  assert (Ha : sender_head (drop a text) = true).
  { destruct (positions_match _ _ _ (list_min_In _ Hs)) as (r & c & mt & Hin & E).
    eapply sender_marker_head; eassumption. }
  assert (Hb : recipient_head (drop b text) = true).
  { destruct (positions_match _ _ _ (list_min_In _ Hr)) as (r & c & mt & Hin & E).
    eapply recipient_marker_head; eassumption. }
  assert (a <> b) by (intros E; rewrite E in Ha; exact (heads_disjoint _ Ha Hb)).
  apply sender_head_visible in Ha. apply recipient_head_visible in Hb.
  destruct (a <? b)%nat eqn:Hab; cbn [fst snd].
  - apply Nat.ltb_lt in Hab. exact (two_pieces text a b Hab Ha Hb).
  - apply Nat.ltb_ge in Hab.
    destruct (two_pieces text b a ltac:(lia) Hb Ha) as (N1 & N2 & R).
    auto.
Qed.

Lemma split_at_markers_witness :
  let text := py "ผู้ส่ง สมชาย โทร 0812345678 ผู้รับ สมหญิง จ.เชียงใหม่" in
  let halves := smart_split_sender_recipient text in
  halves.1 <> [] /\ halves.2 <> [] /\
  exists w1 w2, blank w1 /\ blank w2 /\
    drop 0 text = halves.1 ++ w1 ++ halves.2 ++ w2.
Proof.
  cbv zeta.
  apply (split_at_markers (py "ผู้ส่ง สมชาย โทร 0812345678 ผู้รับ สมหญิง จ.เชียงใหม่"));
    vm_compute; discriminate.
Defined.

(** C2 as stated fails: the text before the first marker is in neither
    half, so the halves do not reconstruct the content of the text. *)
Lemma split_drops_prefix :
  let text := py "abc sender x to y" in
  positions sender_markers text <> []
  /\ positions recipient_markers text <> []
  /\ smart_split_sender_recipient text = (py "sender x", py "to y")
  /\ ~ reconstructs text (smart_split_sender_recipient text).
Proof.
  cbv zeta. split; [vm_compute; discriminate|]. split; [vm_compute; discriminate|].
  split; [vm_compute; reflexivity|].
  unfold reconstructs. intros H. apply Permutation_length in H.
  vm_compute in H. discriminate H.
Qed.

End SplitFacts.

(* --------------------------------------------------------------------- *)
(** ** The record extraction *)
(* --------------------------------------------------------------------- *)

Section RepairFacts.
Import Process.
Local Open Scope py_scope.

(** C9: on a record whose sender and recipient are dicts the repair
    returns the record as it is, so running it twice is running it once. *)
Theorem repair_is_idempotent (d sender recipient : gmap str json) :
  d !! py "sender" = Some (JDict sender) ->
  d !! py "recipient" = Some (JDict recipient) ->
  normalize_ocr_json_result (JDict d) = Returns (JDict d)
  /\ (once <~ normalize_ocr_json_result (JDict d) ;; normalize_ocr_json_result once)
     = normalize_ocr_json_result (JDict d).
Proof.
  intros Hs Hr.
  assert (E : normalize_ocr_json_result (JDict d) = Returns (JDict d)).
  { unfold normalize_ocr_json_result, dict_get. rewrite Hs, Hr. reflexivity. }
  split; [exact E|]. rewrite E. cbn [obind]. exact E.
Qed.

Lemma repair_is_idempotent_witness :
  normalize_ocr_json_result (JDict repaired_record) = Returns (JDict repaired_record)
  /\ (once <~ normalize_ocr_json_result (JDict repaired_record) ;;
      normalize_ocr_json_result once)
     = normalize_ocr_json_result (JDict repaired_record).
Proof.
  eapply (repair_is_idempotent repaired_record); vm_compute; reflexivity.
Defined.

End RepairFacts.

Section ExtractionFacts.
Import Re Process.
Local Open Scope py_scope.


Lemma total_when_some o f : total (when_some o f).
Proof. destruct o; [apply total_modify|apply total_ret]. Qed.

Ltac prove_total :=
  repeat first
    [ apply total_ret | apply total_get | apply total_modify | apply total_when_some
    | apply total_bind; [|intros ?]
    | match goal with
      | |- total (if ?b then _ else _) => destruct b
      | |- total (match ?o with Some _ => _ | None => _ end) => destruct o
      | |- total (let '(_, _) := ?p in _) => destruct p
      end ].

Lemma person_info_body_total text is_recipient : total (person_info_body text is_recipient).
Proof. unfold person_info_body. prove_total. Qed.



Section Loads.
Variable json_loads : str -> json + string.



End Loads.


(** The first end-to-end scenario of the specification: the text is no
    JSON, the fallback extracts the two persons, and the parcel goes to
    Chiang Mai in the northern region. *)
Lemma scenario_1_destination :
  (data <~ extract_data_from_text scenario_1 ;; resolve_destination data)
  = Returns (JStr (py "เชียงใหม่"), py "ภาคเหนือ").
Proof. vm_compute. reflexivity. Qed.

End ExtractionFacts.

Section DestinationFacts.
Import Re Process.
Local Open Scope py_scope.

Lemma sender_ne_recipient : py "sender" <> py "recipient".
Proof. vm_compute. discriminate. Qed.









End DestinationFacts.

(* --------------------------------------------------------------------- *)
(** ** The pipeline *)
(* --------------------------------------------------------------------- *)

Section WorkerFacts.
Import Process Pipeline.

Variable process_single_parcel : str -> ParcelResult.
Variable pick_and_place : json -> bool.

Local Abbreviation step := (step process_single_parcel pick_and_place).
Local Abbreviation ocr_handle := (ocr_handle process_single_parcel).

Lemma ocr_handle_queue image_path sh :
  let result := process_single_parcel image_path in
  items (dobot_queue (ocr_handle image_path sh)) = items (dobot_queue sh)
  \/ (enable_dobot sh = true /\ success result = true
      /\ truthy (province result) = true /\ is_unresolved (province result) = false
      /\ exists item,
           item_province item = province result /\ item_result item = result
           /\ items (dobot_queue (ocr_handle image_path sh))
              = items (dobot_queue sh) ++ [item]).
Proof.
  cbv zeta. unfold ocr_handle, routable. cbn [dobot_queue].
  destruct (success (process_single_parcel image_path)); cbn [andb]; [|now left].
  destruct (enable_dobot sh); cbn [andb]; [|now left].
  destruct (truthy _); cbn [andb]; [|now left].
  destruct (is_unresolved _); cbn [negb]; [now left|].
  right. repeat (split; [reflexivity|]).
  exists {| item_image_path := image_path;
            item_province := province (process_single_parcel image_path);
            item_tracking := tracking_number (process_single_parcel image_path);
            item_result := process_single_parcel image_path |}.
  split; [|split]; reflexivity.
Qed.

Lemma ocr_handle_resolved image_path sh :
  Forall resolved (items (dobot_queue sh)) ->
  Forall resolved (items (dobot_queue (ocr_handle image_path sh))).
Proof.
  intros H. destruct (ocr_handle_queue image_path sh)
    as [->|(_ & Hs & Ht & Hu & item & Ep & Er & ->)]; [exact H|].
  apply Forall_app. split; [exact H|]. constructor; [|constructor].
  unfold resolved. now rewrite Ep, Er.
Qed.

Lemma step_resolved s s' :
  step s s' ->
  Forall resolved (items (dobot_queue (shared s))) ->
  Forall resolved (items (dobot_queue (shared s'))).
Proof.
  intros Hstep H. destruct Hstep; cbn; try exact H.
  - (* ocr_take *)
    unfold ocr_get in *. destruct (items (ocr_queue (shared s))); [discriminate|].
    match goal with E : Some _ = Some _ |- _ => injection E as <- <- end. exact H.
  - (* ocr_finish *) now apply ocr_handle_resolved.
  - (* dobot_take *)
    unfold dobot_get in *. destruct (items (dobot_queue (shared s))) eqn:E; [discriminate|].
    match goal with E : Some _ = Some _ |- _ => injection E as <- <- end.
    cbn. now inversion H.
Qed.

(** C8: in every state the running system reaches, each parcel waiting in
    the Dobot queue comes from an OCR result that succeeded, with a
    province that is non-empty and is not the sentinel [ไม่ระบุ]; and an
    iteration of the OCR worker adds a parcel to that queue in this case
    only. *)
Theorem unresolved_never_queued enable paths s :
  rtc step (started enable paths) s ->
  Forall resolved (items (dobot_queue (shared s)))
  /\ forall sh, hands_over_resolved_only process_single_parcel sh.
Proof.
  intros Hr. split.
  - revert s Hr. apply rtc_ind_r.
    + destruct enable; constructor.
    + intros s1 s2 _ Hstep IH. eapply step_resolved; eassumption.
  - intros sh. unfold hands_over_resolved_only. cbv zeta.
    unfold Pipeline.ocr_iteration, ocr_get.
    destruct (items (ocr_queue sh)) as [|image_path rest] eqn:E; [now left|].
    match goal with |- context [ocr_handle image_path ?sh'] =>
      destruct (ocr_handle_queue image_path sh')
        as [Hq|(_ & Hs & Ht & Hu & item & Ep & _ & Hq)] end.
    + left. exact Hq.
    + right. exists image_path, item. cbn [head].
      repeat (split; [first [reflexivity|assumption]|]). exact Hq.
Qed.

Lemma blocked_reachable enable image_path paths :
  rtc step (started enable (image_path :: paths)) (blocked enable (image_path :: paths)).
Proof.
  eapply rtc_l; [apply sh_signal; reflexivity|].
  eapply rtc_l; [apply ocr_exit; reflexivity|].
  eapply rtc_l; [apply monitor_exit; reflexivity|].
  destruct enable.
  - eapply rtc_l; [apply dobot_exit; reflexivity|].
    eapply rtc_l; [apply sh_ocr_check; reflexivity|].
    apply rtc_refl.
  - eapply rtc_l; [apply sh_ocr_check; reflexivity|].
    apply rtc_refl.
Qed.

Lemma blocked_is_stuck enable image_path paths s' :
  ~ step (blocked enable (image_path :: paths)) s'.
Proof. intros H. inversion H; discriminate. Qed.

Lemma ended_early_reachable enable image_path :
  rtc step (started enable [image_path]) (ended_early enable image_path).
Proof.
  eapply rtc_l; [eapply ocr_take; reflexivity|].
  eapply rtc_l; [apply sh_signal; reflexivity|].
  eapply rtc_l; [apply sh_ocr_check; reflexivity|].
  eapply rtc_l; [apply sh_dobot_check; reflexivity|].
  cbn. rewrite andb_false_r.
  eapply rtc_l; [apply sh_threads; reflexivity|].
  apply rtc_refl.
Qed.

(** C5: [shutdown] clears [is_running] before it waits for the queues,
    so the workers leave their loops with images still waiting: with any
    non-empty OCR queue the system can reach a state where the main thread
    is inside [ocr_queue.join()], every worker has ended, the queue is as
    it was and no thread can move. And with an image inside the OCR call,
    [shutdown] can end while the worker is still running and the image is
    not marked done. *)
Theorem shutdown_does_not_drain enable image_path paths :
  (exists s,
     rtc step (started enable (image_path :: paths)) s
     /\ main_thread s = ShOcrJoin
     /\ items (ocr_queue (shared s)) = image_path :: paths
     /\ forall s', ~ step s s')
  /\ (exists s,
        rtc step (started enable [image_path]) s
        /\ main_thread s = ShDone
        /\ ocr_thread s = Busy image_path
        /\ unfinished_tasks (ocr_queue (shared s)) = 1%nat).
Proof.
  split.
  - exists (blocked enable (image_path :: paths)).
    split; [apply blocked_reachable|]. split; [reflexivity|]. split; [reflexivity|].
    intros s'. apply blocked_is_stuck.
  - exists (ended_early enable image_path).
    split; [apply ended_early_reachable|]. now repeat split.
Qed.

End WorkerFacts.

Section WorkerWitness.
Import Process Pipeline.

Lemma unresolved_never_queued_witness :
  Forall resolved (items (dobot_queue (shared (after_one_image (py "parcel_001.jpg")))))
  /\ forall sh, hands_over_resolved_only reads_chiang_mai sh.
Proof.
  apply (unresolved_never_queued reads_chiang_mai sorts_all true [py "parcel_001.jpg"]).
  eapply rtc_l; [eapply ocr_take; reflexivity|].
  eapply rtc_l; [eapply ocr_finish; reflexivity|].
  apply rtc_refl.
Defined.

(** A parcel that reaches the Dobot queue after [shutdown] has ended
    stays there: the queue holds one parcel and no thread is left to take
    it. *)
Lemma parcel_stranded_after_shutdown :
  let s := stranded (py "parcel_001.jpg") in
  rtc (step reads_chiang_mai sorts_all) (started true [py "parcel_001.jpg"]) s
  /\ main_thread s = ShDone
  /\ q_size (dobot_queue (shared s)) = 1%nat
  /\ forall s', ~ step reads_chiang_mai sorts_all s s'.
Proof.
  cbv zeta. split; [|split; [reflexivity|split; [reflexivity|]]].
  - eapply rtc_l; [eapply ocr_take; reflexivity|].
    eapply rtc_l; [apply sh_signal; reflexivity|].
    eapply rtc_l; [apply sh_ocr_check; reflexivity|].
    eapply rtc_l; [apply sh_dobot_check; reflexivity|].
    eapply rtc_l; [apply sh_threads; reflexivity|].
    eapply rtc_l; [eapply ocr_finish; reflexivity|].
    eapply rtc_l; [apply ocr_exit; reflexivity|].
    eapply rtc_l; [apply dobot_exit; reflexivity|].
    eapply rtc_l; [apply monitor_exit; reflexivity|].
    apply rtc_refl.
  - intros s' H. inversion H; discriminate.
Qed.

End WorkerWitness.

(* --------------------------------------------------------------------- *)
(** ** More on the arm controller *)
(* --------------------------------------------------------------------- *)

Section DobotRuns.
Import Dobot.
Local Open Scope py_scope.




(** On a tame arm a wrapper returns, and the arm has received the command
    (in simulation mode, or without an arm, nothing). *)
Lemma guarded_vendor_exact d k c :
  dobot c = Some d -> simulation_mode c = false -> tame c ->
  try_except_Exception (vendor d k) (fun _ => ret tt) c
  = (Returns tt, set_issued (issued c ++ reaching c [k]) c).
Proof.
  intros Hd Hs Ht. unfold try_except_Exception, vendor, reaching. rewrite Hs, Hd.
  destruct (respond d (issued c) k) as [e|] eqn:E; [|reflexivity].
  pose proof (Ht d _ _ _ Hd E) as He. destruct e; [reflexivity|discriminate].
Qed.

Lemma move_to_exact x y z r c :
  tame c ->
  move_to x y z r c
  = (Returns tt, set_issued (issued c ++ reaching c [VMoveTo x y z r true]) c).
Proof.
  intros Ht. unfold move_to. rewrite bind_get.
  destruct (simulation_mode c) eqn:Hs.
  - unfold reaching. rewrite Hs, app_nil_r, set_issued_same. reflexivity.
  - destruct (dobot c) as [d|] eqn:Hd.
    + now apply guarded_vendor_exact.
    + unfold reaching. rewrite Hs, Hd, app_nil_r, set_issued_same. reflexivity.
Qed.







(** *** Methods that only talk to the arm *)

Lemma silent_refl {A} c (a : A) : silent c (Returns a) (issued c).
Proof. now split. Qed.

Lemma framed_ret {A} (a : A) : framed (ret a).
Proof.
  intros c. exists (Returns a), (issued c). unfold ret. rewrite set_issued_same.
  split; [reflexivity|intros _; apply silent_refl].
Qed.

Lemma framed_raise {A} n : framed (raise (A := A) (Exception n)).
Proof.
  intros c. exists (Raises (Exception n)), (issued c). unfold raise. rewrite set_issued_same.
  split; [reflexivity|intros _]. now split.
Qed.

Lemma framed_bind {A B} (m : M A) (k : A -> M B) :
  framed m -> (forall a, framed (k a)) -> framed (bind m k).
Proof.
  intros Hm Hk c. destruct (Hm c) as (o & l & E & Hq). unfold bind. rewrite E.
  destruct o as [a|e].
  - destruct (Hk a (set_issued l c)) as (o' & l' & E' & Hq'). rewrite E', set_issued_twice.
    exists o', l'. split; [reflexivity|]. intros Hoff.
    destruct (Hq Hoff) as [-> _]. rewrite set_issued_same in Hq'. now apply Hq'.
  - exists (Raises e), l. split; [reflexivity|]. intros Hoff.
    destruct (Hq Hoff) as [-> Hn]. split; [reflexivity|]. intros n [= ->]. now apply (Hn n).
Qed.

Lemma framed_get_bind {B} (k : DobotController -> M B) :
  (forall c, framed (k c)) -> framed (bind get k).
Proof. intros Hk c. rewrite bind_get. apply Hk. Qed.

Lemma framed_try {A} (m : M A) (h : exn -> M A) :
  framed m -> (forall e, framed (h e)) -> framed (try_except_Exception m h).
Proof.
  intros Hm Hh c. destruct (Hm c) as (o & l & E & Hq). unfold try_except_Exception. rewrite E.
  destruct o as [a|[n|n]]; [now exists (Returns a), l| |now exists (Raises (BaseException n)), l].
  destruct (Hh (Exception n) (set_issued l c)) as (o' & l' & E' & Hq'). rewrite E', set_issued_twice.
  exists o', l'. split; [reflexivity|]. intros Hoff.
  destruct (Hq Hoff) as [-> _]. rewrite set_issued_same in Hq'. now apply Hq'.
Qed.

(** [try: m except: pass] *)
Lemma framed_try_pass (m : M unit) :
  framed m -> framed (try_except m (ret tt)).
Proof.
  intros Hm c. destruct (Hm c) as (o & l & E & Hq). unfold try_except. rewrite E.
  destruct o as [a|e]; [now exists (Returns a), l|].
  exists (Returns tt), l. split; [reflexivity|]. intros Hoff.
  destruct (Hq Hoff) as [-> _]. apply silent_refl.
Qed.

Lemma framed_wrapper (k : cmd) :
  framed (s <- get ;;
          if simulation_mode s then ret tt
          else match dobot s with
               | Some d => try_except_Exception (vendor d k) (fun _ => ret tt)
               | None => ret tt
               end).
Proof.
  intros c. rewrite bind_get.
  destruct (simulation_mode c) eqn:Hs; [apply framed_ret|].
  destruct (dobot c) as [d|] eqn:Hd; [|apply framed_ret].
  unfold try_except_Exception, vendor.
  destruct (respond d (issued c) k) as [[n|n]|]; eexists _, _;
    (split; [reflexivity|]); intros [Hoff|Hoff]; congruence.
Qed.

Lemma framed_move_to x y z r : framed (move_to x y z r).
Proof. apply framed_wrapper. Qed.

Lemma framed_suction b : framed (suction b).
Proof. apply framed_wrapper. Qed.

Lemma framed_index l i : framed (index l i).
Proof. unfold index. destruct (l !! i); [apply framed_ret|apply framed_raise]. Qed.

Lemma framed_move_to_star l : framed (move_to_star l).
Proof.
  unfold move_to_star. destruct l as [|x [|y [|z [|r [|]]]]];
    try apply framed_raise. apply framed_move_to.
Qed.

Lemma framed_lift l : framed (x <- index l 0 ;; y <- index l 1 ;; r <- index l 3 ;;
                              move_to x y SAFETY_Z r).
Proof.
  repeat (apply framed_bind; [apply framed_index|intros ?]). apply framed_move_to.
Qed.

Lemma framed_move_to_pickup : framed move_to_pickup.
Proof.
  unfold move_to_pickup.
  repeat (apply framed_bind; [apply framed_index|intros ?]).
  apply framed_bind; [apply framed_move_to|intros _]. apply framed_move_to_star.
Qed.

Lemma framed_move_to_drop province : framed (move_to_drop province).
Proof.
  unfold move_to_drop. apply framed_get_bind. intros c.
  destruct (falsy_drop_point _); [apply framed_ret|].
  repeat (apply framed_bind; [apply framed_index|intros ?]).
  apply framed_bind; [apply framed_move_to|intros _].
  apply framed_bind; [apply framed_move_to_star|intros _]. apply framed_ret.
Qed.

Lemma framed_drop_point_of target : framed (drop_point_of target).
Proof.
  unfold drop_point_of. apply framed_get_bind. intros c.
  destruct (_ !! _); [apply framed_ret|apply framed_raise].
Qed.

Lemma framed_recovery : framed (try_except (suction_off ;; move_home) (ret tt)).
Proof.
  apply framed_try_pass, framed_bind; [apply framed_suction|intros _].
  apply framed_move_to_star.
Qed.

(** *** The accounts of [pick_and_place] *)

Lemma accounted_set_issued target c r :
  accounted target (set_issued (issued c) c) r -> accounted target c r.
Proof. now rewrite set_issued_same. Qed.

Lemma accounted_bind {A} target (m : M A) (k : A -> M bool) c :
  framed m ->
  (forall a l, (offline c -> l = issued c) ->
     accounted target (set_issued l c) (k a (set_issued l c))) ->
  accounted target c (bind m k c).
Proof.
  intros Hm Hk. destruct (Hm c) as (o & l & E & Hq). unfold bind. rewrite E.
  destruct o as [a|e].
  - destruct (Hk a l) as (l' & H & Hq'); [intros Hoff; apply (Hq Hoff)|].
    exists l'. split.
    + destruct (k a (set_issued l c)).1 as [[|]|e]; rewrite H; reflexivity.
    + intros Hoff. destruct (Hq Hoff) as [-> _]. rewrite set_issued_same in Hq' |- *.
      now apply Hq'.
  - exists l. split; [reflexivity|]. intros Hoff. destruct (Hq Hoff) as [-> Hn].
    split; [reflexivity|]. intros n [= ->]. now apply (Hn n).
Qed.

Lemma pick_sequence_accounted province c :
  accounted (target_of c province) c (pick_sequence province c).
Proof.
  unfold pick_sequence.
  apply accounted_bind; [apply framed_move_to_pickup|intros _ l1 H1].
  apply accounted_bind; [apply framed_suction|intros _ l2 H2].
  apply accounted_bind; [apply framed_lift|intros _ l3 H3].
  rewrite !set_issued_twice. rewrite bind_get.
  change (DROP_POINTS (set_issued l3 c)) with (DROP_POINTS c). cbv zeta.
  fold (target_of c province).
  apply accounted_bind; [apply framed_move_to_drop|intros success l4 H4].
  destruct success; cbn [negb].
  - apply accounted_bind; [apply framed_suction|intros _ l5 H5].
    apply accounted_bind; [apply framed_drop_point_of|intros dp l6 H6].
    apply accounted_bind; [apply framed_lift|intros _ l7 H7].
    rewrite !set_issued_twice. exists l7. split; [reflexivity|].
    intros Hoff. split; [|discriminate]. cbn [issued set_issued] in *.
    rewrite H7, H6, H5, H4, H3, H2, H1 by assumption. reflexivity.
  - rewrite !set_issued_twice. exists l4. split; [reflexivity|].
    intros Hoff. split; [|discriminate]. cbn [issued set_issued] in *.
    rewrite H4, H3, H2, H1 by assumption. reflexivity.
Qed.

(** Every run of [pick_and_place], on every controller and whatever the
    arm answers: the controller changes in its statistics and in the
    record of the commands only; [True] comes with one success counted
    for the target, [False] with one failure counted (or with nothing
    touched when the controller is not connected), and an exception that
    escapes is outside the class [Exception] and nothing is counted. *)
Lemma pick_and_place_cases province c :
  exists l,
    match (pick_and_place province c).1 with
    | Returns true =>
        is_connected c = true
        /\ (pick_and_place province c).2
           = set_issued l (record_success (target_of c province) c).2
    | Returns false =>
        (is_connected c = false /\ (pick_and_place province c).2 = c)
        \/ (is_connected c = true
            /\ (pick_and_place province c).2 = set_issued l (incr_failed_drops c).2)
    | Raises e =>
        is_Exception e = false /\ (pick_and_place province c).2 = set_issued l c
    end
    /\ (offline c -> silent c (pick_and_place province c).1 l).
Proof.
  unfold pick_and_place. rewrite bind_get.
  destruct (is_connected c) eqn:Hc; cbn [negb];
    [|exists (issued c); unfold ret; cbn [fst snd]; split;
      [now left|intros _; apply silent_refl]].
  unfold try_except_Exception.
  destruct (pick_sequence_accounted province c) as (l & H & Hq).
  destruct (pick_sequence province c) as [o c1]. cbn [fst snd] in H, Hq.
  destruct o as [[|]|[n|n]].
  - exists l. cbn [fst snd]. auto.
  - exists l. cbn [fst snd]. auto.
  - subst c1. unfold emergency.
    destruct (framed_recovery (set_issued l c)) as (o & l' & E & Hq').
    assert (Ho : exists u, o = Returns u).
    { revert E. unfold try_except. destruct ((suction_off;; move_home) _) as [[u|e] s1].
      - intros [= <- _]. now exists u.
      - unfold ret. intros [= <- _]. now exists tt. }
    destruct Ho as [u ->]. rewrite (bind_returns _ _ _ _ _ E), set_issued_twice.
    unfold incr_failed_drops, set_stats. rewrite bind_modify.
    exists l'. cbn [fst snd ret]. split; [right; split; reflexivity|].
    intros Hoff. split; [|discriminate].
    destruct (Hq Hoff) as [-> _]. rewrite set_issued_same in Hq'. now apply Hq'.
  - exists l. cbn [fst snd]. split; [now split|]. intros Hoff.
    destruct (Hq Hoff) as [_ Hn]. now destruct (Hn n).
Qed.









(** X5: [connect] never raises when the driver and the arm raise nothing
    outside [Exception]; it always leaves the controller marked as
    connected, touches neither the table nor the statistics, and gives
    [True] exactly when the controller was in simulation mode or the port
    was opened and the speed set. After [False] the controller is in
    simulation mode, so the calls of [pick_and_place] that follow reach
    no arm. *)
Theorem connect_always_connects driver c :
  tame_driver driver ->
  exists b c',
    connect driver c = (Returns b, c')
    /\ is_connected c' = true
    /\ DROP_POINTS c' = DROP_POINTS c /\ stats c' = stats c
    /\ (b = true <->
         simulation_mode c = true
         \/ exists d, driver (port c) = inl d
                      /\ respond d (issued c) (VSpeed (speed c) (speed c)) = None)
    /\ (b = true -> simulation_mode c' = simulation_mode c)
    /\ (b = false -> simulation_mode c' = true
                     /\ forall province,
                          issued (pick_and_place province c').2 = issued c').
Proof.
  intros Hd. unfold connect. rewrite bind_get.
  assert (Hquiet : forall c1 province, simulation_mode c1 = true ->
            issued (pick_and_place province c1).2 = issued c1).
  { intros c1 province H1.
    destruct (pick_and_place_cases province c1) as (l & H & Hq).
    destruct (Hq (or_introl H1)) as [-> _].
    destruct (pick_and_place province c1).1 as [[|]|e].
    - now destruct H as [_ ->].
    - now destruct H as [[_ ->]|[_ ->]].
    - now destruct H as [_ ->]. }
  destruct (simulation_mode c) eqn:Hs.
  { rewrite bind_modify. unfold ret. eexists true, _. split; [reflexivity|].
    cbn [set_connection is_connected DROP_POINTS stats simulation_mode].
    do 3 (split; [reflexivity|]). split; [split; auto|]. split; [reflexivity|discriminate]. }
  unfold try_except_Exception. specialize (Hd (port c)).
  destruct (driver (port c)) as [d|e] eqn:Ed.
  - rewrite bind_ret, bind_modify. unfold bind at 1, vendor at 1.
    cbn [issued set_connection].
    destruct (respond d (issued c) (VSpeed (speed c) (speed c))) as [e|] eqn:Er.
    + pose proof (Hd _ _ _ Er) as He. destruct e as [n|n]; [|discriminate].
      rewrite bind_get, bind_modify. unfold ret. eexists false, _. split; [reflexivity|].
      cbn [set_connection set_issued is_connected DROP_POINTS stats simulation_mode].
      do 3 (split; [reflexivity|]). split; [|split; [discriminate|]].
      * split; [discriminate|]. intros [H|(d' & [= <-] & H)]; congruence.
      * intros _. split; [reflexivity|]. intros province. now apply Hquiet.
    + rewrite bind_modify.
      match goal with |- context [ bind move_home _ ?s ] =>
        assert (Hh : tame s) by (intros d' h k e [= <-] H; exact (Hd h k e H));
        rewrite (bind_returns _ _ _ _ _
                   (move_to_exact 125.92%float 177.82%float 42.11%float 54.70%float s Hh))
      end.
      unfold ret. eexists true, _. split; [reflexivity|].
      cbn [set_connection set_issued is_connected DROP_POINTS stats simulation_mode].
      do 3 (split; [reflexivity|]). split; [|split; [reflexivity|discriminate]].
      split; [|reflexivity]. intros _. right. now exists d.
  - unfold bind at 1, raise at 1.
    destruct e as [n|n]; [|discriminate].
    rewrite bind_get, bind_modify. unfold ret. eexists false, _. split; [reflexivity|].
    cbn [set_connection set_issued is_connected DROP_POINTS stats simulation_mode].
    do 3 (split; [reflexivity|]). split; [|split; [discriminate|]].
    + split; [discriminate|]. intros [H|(d' & H & _)]; congruence.
    + intros _. split; [reflexivity|]. intros province. now apply Hquiet.
Qed.

Lemma connect_always_connects_witness :
  exists b c',
    connect no_arm (init "COM5" 100 false) = (Returns b, c')
    /\ is_connected c' = true
    /\ DROP_POINTS c' = DROP_POINTS (init "COM5" 100 false)
    /\ stats c' = stats (init "COM5" 100 false)
    /\ (b = true <->
         simulation_mode (init "COM5" 100 false) = true
         \/ exists d, no_arm (port (init "COM5" 100 false)) = inl d
                      /\ respond d (issued (init "COM5" 100 false))
                           (VSpeed (speed (init "COM5" 100 false))
                              (speed (init "COM5" 100 false))) = None)
    /\ (b = true -> simulation_mode c' = simulation_mode (init "COM5" 100 false))
    /\ (b = false -> simulation_mode c' = true
                     /\ forall province,
                          issued (pick_and_place province c').2 = issued c').
Proof. apply (connect_always_connects no_arm (init "COM5" 100 false)). intros p. reflexivity. Defined.

(** X6: [disconnect] on a tame arm returns, sends the arm home and closes
    the port (nothing in simulation mode or without a vendor object),
    and leaves a controller on which [pick_and_place] gives [False]
    without a command and without counting a failure. *)
Theorem disconnect_then_idle province c :
  tame c ->
  let c' := (disconnect c).2 in
  (disconnect c).1 = Returns tt
  /\ is_connected c' = false
  /\ issued c'
     = issued c
       ++ reaching c [VMoveTo 125.92%float 177.82%float 42.11%float 54.70%float true; VClose]
  /\ pick_and_place province c' = (Returns false, c').
Proof.
  intros Ht. cbv zeta.
  assert (E : exists l,
            l = issued c ++ reaching c
                  [VMoveTo 125.92%float 177.82%float 42.11%float 54.70%float true; VClose]
            /\ disconnect c
               = (Returns tt,
                  set_connection (simulation_mode c) (dobot c) false (set_issued l c))).
  { unfold disconnect. rewrite bind_get. unfold reaching.
    destruct (dobot c) as [d|] eqn:Ed.
    - destruct (simulation_mode c) eqn:Es.
      + rewrite bind_ret, bind_get. unfold modify. eexists. split; [reflexivity|].
        rewrite app_nil_r, set_issued_same, Es, Ed. reflexivity.
      + unfold bind at 1, try_except_Exception, bind at 1, move_home, move_to_star, HOME.
        rewrite (move_to_exact _ _ _ _ c Ht). unfold vendor, reaching. rewrite Es, Ed.
        cbn [issued set_issued].
        destruct (respond d _ VClose) as [e|] eqn:Er.
        * pose proof (Ht d _ _ _ Ed Er) as He. destruct e as [n|n]; [|discriminate].
          unfold ret. rewrite bind_get. unfold modify.
          cbn [set_issued simulation_mode dobot]. rewrite Es, Ed, <- app_assoc.
          eexists. split; reflexivity.
        * rewrite bind_get. unfold modify.
          cbn [set_issued simulation_mode dobot]. rewrite Es, Ed, <- app_assoc.
          eexists. split; reflexivity.
    - rewrite bind_ret, bind_get. unfold modify. eexists. split; [reflexivity|].
      destruct (simulation_mode c); rewrite app_nil_r, set_issued_same, Ed; reflexivity. }
  destruct E as (l & -> & ->). cbn [fst snd]. repeat (split; [reflexivity|]).
  reflexivity.
Qed.

Lemma disconnect_then_idle_witness :
  let c' := (disconnect (connected broken_pump)).2 in
  (disconnect (connected broken_pump)).1 = Returns tt
  /\ is_connected c' = false
  /\ issued c'
     = issued (connected broken_pump)
       ++ reaching (connected broken_pump)
            [VMoveTo 125.92%float 177.82%float 42.11%float 54.70%float true; VClose]
  /\ pick_and_place (py "เชียงใหม่") c' = (Returns false, c').
Proof. apply (disconnect_then_idle (py "เชียงใหม่") (connected broken_pump)). exact tame_broken_pump. Defined.

End DobotRuns.

(* --------------------------------------------------------------------- *)
(** ** Sessions with the arm controller *)
(* --------------------------------------------------------------------- *)

Section SessionFacts.
Import Dobot.
Local Open Scope py_scope.

Variable driver : string -> Device + exn.

Lemma bind_inv {S A B} (m : Py.M S A) (k : A -> Py.M S B) s b s' :
  bind m k s = (Returns b, s') ->
  exists a s1, m s = (Returns a, s1) /\ k a s1 = (Returns b, s').
Proof.
  unfold bind. destruct (m s) as [[a|e] s1]; [|discriminate]. intros H. now exists a, s1.
Qed.

Lemma framed_inv {A B} (m : M A) (k : A -> M B) c b c' :
  framed m -> bind m k c = (Returns b, c') ->
  exists a l, k a (set_issued l c) = (Returns b, c').
Proof.
  intros Hm H. apply bind_inv in H as (a & c1 & E & H).
  destruct (Hm c) as (o & l & E' & _). rewrite E in E'. injection E' as <- ->.
  now exists a, l.
Qed.

(** [pick_and_place] gives [True] only when its target has a drop point. *)
Lemma success_has_drop_point province c c' :
  pick_and_place province c = (Returns true, c') ->
  is_Some (DROP_POINTS c !! target_of c province).
Proof.
  unfold pick_and_place. rewrite bind_get.
  destruct (is_connected c); cbn [negb]; [|discriminate].
  unfold try_except_Exception.
  destruct (pick_sequence province c) as [[[|]|[n|n]] c1] eqn:E; try discriminate.
  2:{ destruct (emergency_returns c1) as [l ->]. discriminate. }
  intros _. revert E. unfold pick_sequence. intros E.
  apply (framed_inv _ _ _ _ _ framed_move_to_pickup) in E as (_ & l1 & E).
  apply (framed_inv _ _ _ _ _ (framed_suction true)) in E as (_ & l2 & E).
  apply (framed_inv _ _ _ _ _ (framed_lift PICKUP)) in E as (_ & l3 & E).
  rewrite bind_get in E. cbv zeta in E.
  change (DROP_POINTS (set_issued l3 (set_issued l2 (set_issued l1 c))))
    with (DROP_POINTS c) in E.
  fold (target_of c province) in E.
  apply bind_inv in E as (success & c4 & Ed & E).
  destruct success; cbn [negb] in E.
  - revert Ed. unfold move_to_drop. rewrite bind_get.
    change (DROP_POINTS (set_issued l3 (set_issued l2 (set_issued l1 c))))
      with (DROP_POINTS c).
    destruct (DROP_POINTS c !! target_of c province) as [l|]; [eauto|].
    cbn [falsy_drop_point]. discriminate.
  - apply bind_inv in E as (_ & c5 & _ & E). discriminate E.
Qed.

Lemma sum_counts_record (m : gmap str nat) target :
  sum_counts (<[target := S (default 0%nat (m !! target))]> m) = S (sum_counts m).
Proof.
  unfold sum_counts.
  assert (Hc : forall (m' : gmap str nat) (j1 j2 : str) (z1 z2 y : nat),
            j1 <> j2 -> m' !! j1 = Some z1 -> m' !! j2 = Some z2 ->
            (z1 + (z2 + y) = z2 + (z1 + y))%nat) by (intros; lia).
  destruct (m !! target) as [n|] eqn:E; cbn [default from_option id].
  - rewrite <- insert_delete_eq.
    rewrite map_fold_insert_L; [|intros; lia|apply lookup_delete_eq].
    rewrite (map_fold_delete_L _ _ target n m); [lia|intros; lia|exact E].
  - rewrite map_fold_insert_L; [reflexivity|intros; lia|exact E].
Qed.

Lemma init_consistent port speed sim : consistent (init port speed sim).
Proof.
  unfold consistent, init. cbn [DROP_POINTS stats total_picks successful_drops by_province stats_0].
  split.
  { intros province l H. unfold DROP_POINTS_0 in H.
    repeat (apply lookup_insert_Some in H as [[_ <-]|[_ H]]; [reflexivity|]).
    now rewrite lookup_empty in H. }
  split; [reflexivity|]. split; [reflexivity|].
  intros province [n H]. now rewrite lookup_empty in H.
Qed.

Lemma set_issued_consistent l c : consistent c -> consistent (set_issued l c).
Proof. exact (fun H => H). Qed.

Lemma pick_and_place_consistent province c :
  consistent c -> consistent (pick_and_place province c).2.
Proof.
  intros (Ht & Hp & Hs & Hk).
  destruct (pick_and_place_cases province c) as (l & H & _).
  destruct (pick_and_place province c) as [[[|]|e] c'] eqn:E; cbn [fst snd] in H.
  - destruct H as [_ ->]. pose proof (success_has_drop_point _ _ _ E) as Hd.
    unfold consistent.
    cbn [set_issued record_success set_stats modify snd DROP_POINTS stats total_picks
         successful_drops by_province].
    split; [exact Ht|]. split; [now rewrite Hp|]. split.
    + now rewrite sum_counts_record, Hs.
    + intros q Hq. destruct (decide (q = target_of c province)) as [->|Hne]; [exact Hd|].
      rewrite lookup_insert_ne in Hq by congruence. now apply Hk.
  - destruct H as [[_ ->]|[_ ->]]; [now repeat split|].
    unfold consistent.
    cbn [set_issued incr_failed_drops set_stats modify snd DROP_POINTS stats total_picks
         successful_drops by_province]. now repeat split.
  - destruct H as [_ ->]. now repeat split.
Qed.

Lemma add_drop_point_consistent province coordinates c :
  consistent c -> consistent (add_drop_point province coordinates c).2.
Proof.
  intros (Ht & Hp & Hs & Hk). unfold add_drop_point.
  destruct (length coordinates =? 4)%nat eqn:E; [|now repeat split].
  apply Nat.eqb_eq in E. unfold consistent.
  cbn [modify snd DROP_POINTS stats]. split.
  { intros q l H. apply lookup_insert_Some in H as [[_ <-]|[_ H]]; [exact E|].
    now apply (Ht q). }
  split; [exact Hp|]. split; [exact Hs|].
  intros q Hq. destruct (decide (q = province)) as [->|Hne].
  - rewrite lookup_insert_eq. eauto.
  - rewrite lookup_insert_ne by congruence. now apply Hk.
Qed.

(** [connect] and [disconnect] touch neither the table nor the books. *)
Lemma connect_keeps c o c' :
  connect driver c = (o, c') ->
  DROP_POINTS c' = DROP_POINTS c /\ stats c' = stats c.
Proof.
  unfold connect. rewrite bind_get.
  destruct (simulation_mode c); [rewrite bind_modify; now intros [= <- <-]|].
  unfold try_except_Exception.
  destruct (driver (port c)) as [d|e].
  - rewrite bind_ret, bind_modify. unfold bind at 1, vendor at 1.
    destruct (respond d _ _) as [[n|n]|].
    + rewrite bind_get, bind_modify. now intros [= <- <-].
    + now intros [= <- <-].
    + rewrite bind_modify.
      match goal with |- context [ bind move_home ?k ?s ] =>
        destruct (framed_move_to_star HOME s) as (o1 & l & E & _) end.
      unfold move_home, bind. rewrite E.
      destruct o1 as [[]|[n|n]]; now intros [= <- <-].
  - unfold bind at 1, raise at 1. destruct e as [n|n]; [|now intros [= <- <-]].
    rewrite bind_get, bind_modify. now intros [= <- <-].
Qed.

Lemma disconnect_keeps c o c' :
  disconnect c = (o, c') ->
  DROP_POINTS c' = DROP_POINTS c /\ stats c' = stats c.
Proof.
  unfold disconnect. rewrite bind_get.
  destruct (dobot c) as [d|]; [|rewrite bind_ret, bind_get; now intros [= <- <-]].
  destruct (simulation_mode c); [rewrite bind_ret, bind_get; now intros [= <- <-]|].
  destruct (framed_move_to_star HOME c) as (o1 & l & E & _).
  unfold try_except_Exception, move_home, bind, vendor. rewrite E.
  destruct o1 as [[]|[n|n]]; try (now intros [= <- <-]).
  destruct (respond d _ VClose) as [[n|n]|]; now intros [= <- <-].
Qed.

Lemma exec_consistent k c : consistent c -> consistent (exec driver k c).
Proof.
  intros H. destruct k as [| |province coordinates|province]; cbn [exec].
  - destruct (connect driver c) as [o c'] eqn:E.
    destruct (connect_keeps c o c' E) as [E1 E2]. unfold consistent. cbn [snd].
    rewrite E1, E2. exact H.
  - destruct (disconnect c) as [o c'] eqn:E.
    destruct (disconnect_keeps c o c' E) as [E1 E2]. unfold consistent. cbn [snd].
    rewrite E1, E2. exact H.
  - now apply add_drop_point_consistent.
  - now apply pick_and_place_consistent.
Qed.

Lemma session_consistent calls port speed sim :
  consistent (session driver calls (init port speed sim)).
Proof.
  unfold session.
  assert (H : forall c, consistent c ->
            consistent (foldl (fun c k => exec driver k c) c calls)).
  { induction calls as [|k calls IH]; intros c Hc; [exact Hc|].
    cbn [foldl]. apply IH. now apply exec_consistent. }
  apply H, init_consistent.
Qed.

(** X7: through any session with a controller (connections, drop points
    added, parcels picked, in any order and whatever the arm answers)
    the drop points keep four coordinates, [total_picks] and the counts
    by province add up to the successful drops (a failed pick is in
    neither), and every province counted has a drop point. *)
Theorem session_keeps_books calls port speed sim :
  consistent (session driver calls (init port speed sim)).
Proof. apply session_consistent. Qed.


End SessionFacts.

Section SessionWitness.
Import Dobot.


End SessionWitness.

(* --------------------------------------------------------------------- *)
(** ** More on the resolver of provinces *)
(* --------------------------------------------------------------------- *)

Section ResolverRange.
Import Re Process.

Lemma candidate_province_In c p : candidate_province c = Some p -> In p all_provinces.
Proof. unfold candidate_province. intros H. now apply find_some in H. Qed.

Lemma layer_pattern_In patterns text p :
  layer_pattern patterns text = Some p -> In p all_provinces.
Proof.
  induction patterns as [|r rest IH]; [discriminate|]. cbn [layer_pattern].
  destruct (search r text) as [mt|]; [|exact IH].
  destruct (candidate_province _) as [q|] eqn:E; [|exact IH].
  intros [= <-]. now apply candidate_province_In in E.
Qed.

Lemma layer_direct_In text p : layer_direct text = Some p -> In p all_provinces.
Proof. unfold layer_direct. intros H. now apply find_some in H. Qed.

Lemma layer_fuzzy_In text p : layer_fuzzy text = Some p -> In p all_provinces.
Proof. unfold layer_fuzzy. intros H. now apply find_some in H. Qed.

Lemma extract_province_In text p :
  extract_province_from_text text = Some p -> In p all_provinces.
Proof.
  unfold extract_province_from_text. destruct (bool_decide _); [discriminate|].
  destruct (layer_pattern _ _) as [q|] eqn:E1.
  { intros [= <-]. now apply layer_pattern_In in E1. }
  destruct (layer_direct _) as [q|] eqn:E2.
  { intros [= <-]. now apply layer_direct_In in E2. }
  apply layer_fuzzy_In.
Qed.

Lemma canonical_fixed p : In p all_provinces -> extract_province_from_text p = Some p.
Proof.
  intros Hin. pose proof all_provinces_resolve as H.
  rewrite forallb_forall in H. specialize (H p Hin).
  unfold resolves_three_forms in H.
  apply andb_prop in H as [H _]. apply andb_prop in H as [H _].
  now apply bool_decide_eq_true in H.
Qed.

(** X9: whatever the text, a province the resolver gives is one of the 77
    canonical names, and the resolver gives it back for itself:
    normalising a second time changes nothing. *)
Theorem resolver_lands_on_canonical text p :
  extract_province_from_text text = Some p ->
  In p all_provinces /\ extract_province_from_text p = Some p.
Proof.
  intros H. apply extract_province_In in H. split; [exact H|now apply canonical_fixed].
Qed.

Lemma resolver_lands_on_canonical_witness :
  In (py "ระยอง") all_provinces
  /\ extract_province_from_text (py "ระยอง") = Some (py "ระยอง").
Proof.
  apply (resolver_lands_on_canonical (py "99 หมู่ 1 ต.เนินพระ อ.เมือง จ.ระยอง 21000")
           (py "ระยอง")).
  vm_compute. reflexivity.
Defined.

Lemma startswith_app p s : startswith p s = true <-> exists b, s = p ++ b.
Proof.
  revert s. induction p as [|x p IH]; intros s.
  - split; [intros _; now exists s|reflexivity].
  - destruct s as [|y s]; cbn [startswith].
    + split; [discriminate|]. now intros (b & H).
    + rewrite andb_true_iff, N.eqb_eq, IH. split.
      * intros (-> & b & ->). now exists b.
      * intros (b & [= -> ->]). split; [reflexivity|now exists b].
Qed.

Lemma contains_app sub s : contains sub s = true <-> exists a b, s = a ++ sub ++ b.
Proof.
  induction s as [|y s IH].
  - cbn [contains]. rewrite orb_false_r, startswith_app. split.
    + intros (b & H). now exists [], b.
    + intros (a & b & H). symmetry in H. apply app_eq_nil in H as [-> H].
      exists b. now rewrite H.
  - cbn [contains]. rewrite orb_true_iff, startswith_app, IH. split.
    + intros [(b & H)|(a & b & ->)]; [now exists [], b|now exists (y :: a), b].
    + intros ([|z a] & b & H).
      * left. now exists b.
      * right. injection H as -> ->. now exists a, b.
Qed.

Lemma lstrip_keeps a x t :
  isspace x = false -> exists a', lstrip (a ++ x :: t) = a' ++ x :: t.
Proof.
  intros Hx. induction a as [|c a (a' & IH)].
  - exists []. cbn [app lstrip]. now rewrite Hx.
  - cbn [app lstrip]. destruct (isspace c); [now exists a'|now exists (c :: a)].
Qed.

Lemma rstrip_keeps t y b :
  isspace y = false -> exists b', rstrip (t ++ y :: b) = t ++ y :: b'.
Proof.
  intros Hy. unfold rstrip. rewrite rev_app_distr. cbn [rev]. rewrite <- app_assoc.
  destruct (lstrip_keeps (rev b) y (rev t) Hy) as (a' & E). cbn [app]. rewrite E.
  exists (rev a'). rewrite rev_app_distr. cbn [rev]. rewrite rev_involutive, <- app_assoc.
  reflexivity.
Qed.

Lemma contains_strip p text :
  trimmed p = true -> contains p text = true -> contains p (strip text) = true.
Proof.
  unfold trimmed. intros Ht. rewrite !contains_app. intros (a & b & ->).
  destruct p as [|x q]; [discriminate|].
  destruct (rev (x :: q)) as [|y r] eqn:Er; [discriminate|].
  apply andb_prop in Ht as [Hx Hy]. apply negb_true_iff in Hx, Hy.
  assert (Ep : x :: q = rev r ++ [y]).
  { rewrite <- (rev_involutive (x :: q)), Er. reflexivity. }
  unfold strip. cbn [app].
  destruct (lstrip_keeps a x (q ++ b) Hx) as (a' & ->).
  change (a' ++ x :: q ++ b) with (a' ++ (x :: q) ++ b). rewrite Ep.
  replace (a' ++ (rev r ++ [y]) ++ b) with ((a' ++ rev r) ++ y :: b)
    by (now rewrite <- !app_assoc).
  destruct (rstrip_keeps (a' ++ rev r) y b Hy) as (b' & ->).
  exists a', b'. change (x :: q ++ b') with ((x :: q) ++ b').
  now rewrite Ep, <- !app_assoc.
Qed.

Lemma find_is_Some {A} (f : A -> bool) l x :
  In x l -> f x = true -> exists y, find f l = Some y.
Proof.
  intros Hin Hf. destruct (find f l) as [y|] eqn:E; [now exists y|].
  pose proof (find_none _ _ E x Hin) as H. congruence.
Qed.

Lemma provinces_trimmed : forallb trimmed all_provinces = true.
Proof. vm_compute. reflexivity. Qed.

Lemma contained_name_resolves text p :
  In p all_provinces -> contains p text = true ->
  exists q, extract_province_from_text text = Some q /\ In q all_provinces.
Proof.
  intros Hin Hc.
  assert (Ht : trimmed p = true).
  { pose proof provinces_trimmed as H. rewrite forallb_forall in H. now apply H. }
  assert (Hq : exists q, extract_province_from_text text = Some q).
  { unfold extract_province_from_text. rewrite bool_decide_eq_false_2.
    2:{ intros ->. destruct p; [discriminate Ht|discriminate Hc]. }
    destruct (layer_pattern _ _) as [q|]; [now exists q|].
    destruct (find_is_Some
                (fun province =>
                   contains province (strip text)
                   || contains (remove_spaces province) (remove_spaces (strip text)))
                all_provinces p Hin) as (q & E).
    { now rewrite (contains_strip p text Ht Hc). }
    unfold layer_direct. rewrite E. now exists q. }
  destruct Hq as (q & E). exists q. split; [exact E|now apply extract_province_In in E].
Qed.

(** X10: a text in which one of the 77 canonical names occurs always
    resolves: the resolver never answers [None] for it, and what it
    answers is a canonical name. *)
Theorem canonical_name_is_found text p :
  In p all_provinces -> contains p text = true ->
  exists q, extract_province_from_text text = Some q /\ In q all_provinces.
Proof. apply contained_name_resolves. Qed.

Lemma canonical_name_is_found_witness :
  exists q, extract_province_from_text (py "  ส่งถึง นครสวรรค์ 60000 ") = Some q
            /\ In q all_provinces.
Proof.
  apply (canonical_name_is_found (py "  ส่งถึง นครสวรรค์ 60000 ") (py "นครสวรรค์")).
  - vm_compute. do 22 right. left. reflexivity.
  - vm_compute. reflexivity.
Defined.

Lemma lstrip_of_blank w : blank w -> lstrip w = [].
Proof. induction 1 as [|c w Hc _ IH]; [reflexivity|]. cbn [lstrip]. now rewrite Hc. Qed.

(** X11: a text of white space only (or the empty text) has no province. *)
Theorem blank_has_no_province text :
  blank text -> extract_province_from_text text = None.
Proof.
  intros Hb. unfold extract_province_from_text.
  destruct (bool_decide (text = [])); [reflexivity|].
  unfold strip. rewrite (lstrip_of_blank text Hb). vm_compute. reflexivity.
Qed.

Lemma blank_has_no_province_witness :
  extract_province_from_text [32; 10; 9] = None.
Proof.
  apply (blank_has_no_province [32; 10; 9]).
  repeat constructor.
Defined.

End ResolverRange.

Section RegionFacts.
Import Re Process.

Lemma first_region_cases p m :
  first_region p m = UNRESOLVED_REGION
  \/ exists provinces, In (first_region p m, provinces) m /\ In p provinces.
Proof.
  induction m as [|[region provinces] m IH]; [now left|]. cbn [first_region].
  destruct (str_in p provinces) eqn:E.
  - right. exists provinces. split; [now left|now apply str_in_In].
  - destruct IH as [IH|(ps & H1 & H2)]; [now left|]. right. exists ps. split; [now right|easy].
Qed.

Lemma regions_hold_canonical_names :
  forallb (fun rp => forallb (fun q => str_in q all_provinces) (snd rp)) region_mapping = true.
Proof. vm_compute. reflexivity. Qed.

Lemma canonical_names_have_region :
  forallb (fun p => negb (str_eqb (get_region p) UNRESOLVED_REGION)) all_provinces = true.
Proof. vm_compute. reflexivity. Qed.

Lemma regions_have_center :
  forallb (fun rp => bool_decide (is_Some (distribution_centers !! fst rp))
                     && negb (str_eqb (fst rp) UNRESOLVED_REGION)) region_mapping = true.
Proof. vm_compute. reflexivity. Qed.

Lemma get_region_canonical p :
  get_region p <> UNRESOLVED_REGION <-> In p all_provinces.
Proof.
  split.
  - intros H. destruct (first_region_cases p region_mapping) as [E|(ps & H1 & H2)];
      [now destruct H|].
    pose proof regions_hold_canonical_names as Hall. rewrite forallb_forall in Hall.
    specialize (Hall _ H1). cbn [snd] in Hall. rewrite forallb_forall in Hall.
    now apply str_in_In, Hall.
  - intros Hin. pose proof canonical_names_have_region as Hall.
    rewrite forallb_forall in Hall. specialize (Hall p Hin).
    apply negb_true_iff in Hall. intros E. apply str_eqb_eq in E. congruence.
Qed.

(** X12: the table of the regions covers the 77 canonical names and nothing
    else: [get_region] gives a region exactly for them, and the
    placeholder [ไม่ระบุภาค] for every other string. *)
Theorem region_exactly_for_canonical p :
  (In p all_provinces -> In (get_region p) (map fst region_mapping))
  /\ (~ In p all_provinces -> get_region p = UNRESOLVED_REGION).
Proof.
  split.
  - intros Hin. apply get_region_canonical in Hin.
    destruct (first_region_cases p region_mapping) as [E|(ps & H1 & _)]; [now destruct Hin|].
    apply in_map_iff. now exists (get_region p, ps).
  - intros Hn. destruct (decide (get_region p = UNRESOLVED_REGION)) as [E|E]; [exact E|].
    now apply get_region_canonical in E.
Qed.

(** X13: with the region [get_region] gives, as [process_single_parcel]
    calls it, [determine_delivery_route] names the centre of the region
    for each canonical province and asks for a manual check for every
    other string; the general centre it keeps as a default is never
    named. *)
Theorem route_of_province p :
  (In p all_provinces ->
     exists center,
       distribution_centers !! get_region p = Some center
       /\ determine_delivery_route p (get_region p)
          = py "✅ ส่งไป " ++ center ++ py " → " ++ p)
  /\ (~ In p all_provinces -> determine_delivery_route p (get_region p) = MANUAL_ROUTE).
Proof.
  split.
  - intros Hin.
    assert (Hp : str_eqb p UNRESOLVED = false).
    { apply not_true_iff_false. intros E. apply str_eqb_eq in E. subst p.
      revert Hin. vm_compute. intuition discriminate. }
    pose proof (proj2 (get_region_canonical p) Hin) as Hr.
    destruct (first_region_cases p region_mapping) as [E|(ps & H1 & _)]; [now destruct Hr|].
    pose proof regions_have_center as Hall. rewrite forallb_forall in Hall.
    specialize (Hall _ H1). cbn [fst] in Hall. apply andb_prop in Hall as [Hc Hu].
    apply bool_decide_eq_true in Hc. destruct Hc as [center Hc].
    exists center. split; [exact Hc|].
    unfold determine_delivery_route. rewrite Hp. apply negb_true_iff in Hu.
    fold (get_region p) in Hu, Hc. rewrite Hu, Hc. reflexivity.
  - intros Hn. unfold determine_delivery_route.
    destruct (decide (get_region p = UNRESOLVED_REGION)) as [E|E].
    + rewrite E. unfold str_eqb at 2. rewrite bool_decide_eq_true_2 by reflexivity.
      rewrite orb_true_r. reflexivity.
    + now apply get_region_canonical in E.
Qed.

End RegionFacts.

(* --------------------------------------------------------------------- *)
(** ** More on the sender/recipient splitter *)
(* --------------------------------------------------------------------- *)

Section SplitParts.
Import Re Process.

Lemma blank_app w1 w2 : blank w1 -> blank w2 -> blank (w1 ++ w2).
Proof. unfold blank. intros. now apply Forall_app. Qed.

Lemma blank_nil : blank [].
Proof. constructor. Qed.

Lemma strip_parts s : exists w1 w2, blank w1 /\ blank w2 /\ s = w1 ++ strip s ++ w2.
Proof.
  destruct (lstrip_blank s) as (w1 & B1 & E1).
  destruct (rstrip_blank (lstrip s)) as (w2 & B2 & E2).
  exists w1, w2. split; [exact B1|]. split; [exact B2|].
  unfold strip. now rewrite <- E2.
Qed.

(** The two stripped pieces of a text cut at [k]. *)
Lemma cut_parts (text : str) k :
  exists w0 w1 w2, blank w0 /\ blank w1 /\ blank w2 /\
    text = w0 ++ strip (take k text) ++ w1 ++ strip (drop k text) ++ w2.
Proof.
  destruct (strip_parts (take k text)) as (a1 & a2 & A1 & A2 & Ea).
  destruct (strip_parts (drop k text)) as (b1 & b2 & B1 & B2 & Eb).
  exists a1, (a2 ++ b1), b2. split; [exact A1|]. split; [now apply blank_app|].
  split; [exact B2|].
  rewrite <- (take_drop k text) at 1. rewrite Ea at 1. rewrite Eb at 1.
  now rewrite <- !app_assoc.
Qed.

Lemma split_lines_nonempty s : split_lines s <> [].
Proof.
  induction s as [|c t IH]; [discriminate|]. cbn [split_lines].
  destruct (c =? 10); [discriminate|]. now destruct (split_lines t).
Qed.

Lemma join_split_lines s : join_lines (split_lines s) = s.
Proof.
  induction s as [|c t IH]; [reflexivity|]. cbn [split_lines].
  pose proof (split_lines_nonempty t) as Hn.
  destruct (c =? 10) eqn:Ec.
  - apply N.eqb_eq in Ec. subst c.
    destruct (split_lines t) as [|l ls]; [now destruct Hn|].
    cbn [join_lines app] in *. now rewrite IH.
  - destruct (split_lines t) as [|l ls]; [now destruct Hn|].
    destruct ls; cbn [join_lines app] in *; now rewrite <- IH.
Qed.

Lemma join_lines_app l1 l2 :
  l1 <> [] -> l2 <> [] -> join_lines (l1 ++ l2) = join_lines l1 ++ 10 :: join_lines l2.
Proof.
  intros H1 H2. induction l1 as [|l [|l' l1] IH]; [now destruct H1| |].
  - destruct l2; [now destruct H2|]. reflexivity.
  - change (join_lines ((l :: l' :: l1) ++ l2))
      with (l ++ 10 :: join_lines ((l' :: l1) ++ l2)).
    rewrite IH by discriminate.
    change (join_lines (l :: l' :: l1)) with (l ++ 10 :: join_lines (l' :: l1)).
    now rewrite <- app_assoc.
Qed.

(** The two halves of the lines of a text. *)
Lemma line_parts (text : str) :
  let lines := split_lines text in
  let mid := (length lines / 2)%nat in
  exists w1, blank w1 /\
    text = join_lines (take mid lines) ++ w1 ++ join_lines (drop mid lines).
Proof.
  cbv zeta. set (lines := split_lines text). set (mid := (length lines / 2)%nat).
  assert (Hn : lines <> []) by apply split_lines_nonempty.
  assert (Hlen : (0 < length lines)%nat) by (destruct lines; [easy|cbn; lia]).
  destruct mid as [|m] eqn:Em.
  - exists []. split; [apply blank_nil|]. cbn [take drop join_lines app].
    symmetry. apply join_split_lines.
  - assert (Hm : (S m < length lines)%nat).
    { subst mid. rewrite <- Em. apply Nat.div_lt; lia. }
    exists [10]. split; [repeat constructor|].
    rewrite <- (join_split_lines text) at 1. fold lines.
    rewrite <- (take_drop (S m) lines) at 1.
    apply join_lines_app.
    + intros E. apply (f_equal length) in E. rewrite length_take in E. cbn [length] in E. lia.
    + intros E. apply (f_equal length) in E. rewrite length_drop in E. cbn [length] in E. lia.
Qed.

(** X14: without a marker of each kind the splitter cuts the text in two
    (at the second phone number, or between two lines) and loses nothing
    but white space: the two halves, in order, with white space around
    them, are the text. *)
Theorem split_without_markers text :
  positions sender_markers text = [] \/ positions recipient_markers text = [] ->
  let halves := smart_split_sender_recipient text in
  exists w0 w1 w2, blank w0 /\ blank w1 /\ blank w2 /\
    text = w0 ++ halves.1 ++ w1 ++ halves.2 ++ w2.
Proof.
  intros H. cbv zeta. unfold smart_split_sender_recipient.
  assert (E : negb (bool_decide (positions sender_markers text = []))
              && negb (bool_decide (positions recipient_markers text = [])) = false).
  { destruct H as [-> | ->]; [reflexivity|]. apply andb_false_r. }
  rewrite E.
  destruct (finditer phone_pattern text) as [|first [|second rest]]; cbn [fst snd].
  - destruct (line_parts text) as (w1 & B1 & Et).
    exists [], w1, []. repeat (split; [first [apply blank_nil|exact B1]|]).
    now rewrite app_nil_r.
  - destruct (line_parts text) as (w1 & B1 & Et).
    exists [], w1, []. repeat (split; [first [apply blank_nil|exact B1]|]).
    now rewrite app_nil_r.
  - apply cut_parts.
Qed.

Lemma split_without_markers_witness :
  let text := py "สมชาย โทร 0812345678 บ้านเลขที่ 1 สมหญิง โทร 0898765432 จ.เชียงใหม่" in
  let halves := smart_split_sender_recipient text in
  exists w0 w1 w2, blank w0 /\ blank w1 /\ blank w2 /\
    text = w0 ++ halves.1 ++ w1 ++ halves.2 ++ w2.
Proof.
  cbv zeta.
  apply (split_without_markers
           (py "สมชาย โทร 0812345678 บ้านเลขที่ 1 สมหญิง โทร 0898765432 จ.เชียงใหม่")).
  left. vm_compute. reflexivity.
Defined.

Lemma part_trans (a b c : str) :
  contains a b = true -> contains b c = true -> contains a c = true.
Proof.
  rewrite !contains_app. intros (a1 & a2 & ->) (b1 & b2 & ->).
  exists (b1 ++ a1), (a2 ++ b2). now rewrite <- !app_assoc.
Qed.

Lemma part_take k (s : str) : contains (take k s) s = true.
Proof. apply contains_app. exists [], (drop k s). cbn [app]. now rewrite take_drop. Qed.

Lemma part_drop k (s : str) : contains (drop k s) s = true.
Proof. apply contains_app. exists (take k s), []. now rewrite app_nil_r, take_drop. Qed.

Lemma part_strip (s : str) : contains (strip s) s = true.
Proof. apply contains_app. destruct (strip_parts s) as (w1 & w2 & _ & _ & E). now exists w1, w2. Qed.

(** X15: on every text, each half the splitter gives is a part of the text,
    in one piece: the splitter moves nothing and makes nothing up. *)
Theorem halves_are_parts text :
  let halves := smart_split_sender_recipient text in
  contains halves.1 text = true /\ contains halves.2 text = true.
Proof.
  cbv zeta. unfold smart_split_sender_recipient.
  destruct (negb _ && negb _).
  - destruct (_ <? _)%nat; cbn [fst snd]; split;
      first [ apply (part_trans _ _ _ (part_strip _)), contains_slice
            | apply (part_trans _ _ _ (part_strip _)), part_drop ].
  - destruct (finditer phone_pattern text) as [|first [|second rest]]; cbn [fst snd].
    + destruct (line_parts text) as (w1 & _ & Et). split; apply contains_app.
      * now exists [], (w1 ++ join_lines (drop (length (split_lines text) / 2) (split_lines text))).
      * exists (join_lines (take (length (split_lines text) / 2) (split_lines text)) ++ w1), [].
        now rewrite app_nil_r, <- app_assoc.
    + destruct (line_parts text) as (w1 & _ & Et). split; apply contains_app.
      * now exists [], (w1 ++ join_lines (drop (length (split_lines text) / 2) (split_lines text))).
      * exists (join_lines (take (length (split_lines text) / 2) (split_lines text)) ++ w1), [].
        now rewrite app_nil_r, <- app_assoc.
    + split; [apply (part_trans _ _ _ (part_strip _)), part_take
             |apply (part_trans _ _ _ (part_strip _)), part_drop].
Qed.

End SplitParts.

(* --------------------------------------------------------------------- *)
(** ** More on the record extraction *)
(* --------------------------------------------------------------------- *)

Section PersonInfoFacts.
Import Re Process.
Local Open Scope py_scope.

Lemma keeps_ret {S A} (I : S -> Prop) (a : A) : keeps I (ret a).
Proof. now intros s H. Qed.

Lemma keeps_modify {S} (I : S -> Prop) (f : S -> S) :
  (forall s, I s -> I (f s)) -> keeps I (modify f).
Proof. intros Hf s H. now apply Hf. Qed.

Lemma keeps_bind {S A B} (I : S -> Prop) (m : Py.M S A) (k : A -> Py.M S B) :
  keeps I m -> (forall a, keeps I (k a)) -> keeps I (bind m k).
Proof.
  intros Hm Hk s H. specialize (Hm s H). unfold bind.
  destruct (m s) as [[a|e] s1]; [now apply Hk|exact Hm].
Qed.

Lemma keeps_get_bind {S B} (I : S -> Prop) (k : S -> Py.M S B) :
  (forall s0, keeps I (k s0)) -> keeps I (bind get k).
Proof. intros Hk s H. rewrite bind_get. now apply Hk. Qed.

Lemma keeps_when_some (I : PersonInfo -> Prop) o f :
  (forall v s, o = Some v -> I s -> I (f v s)) -> keeps I (when_some o f).
Proof.
  intros Hf. destruct o as [v|]; [|apply keeps_ret].
  apply keeps_modify. intros s. now apply Hf.
Qed.

(** What the loop over the patterns of a field gives has passed the test
    of the field, and comes out of the cleaning step. *)
Lemma first_field_accept patterns clean accept text v :
  first_field patterns clean accept text = Some v ->
  accept v = true /\ exists raw, v = clean raw.
Proof.
  induction patterns as [|r rest IH]; [discriminate|]. cbn [first_field].
  destruct (search r text) as [mt|]; [|exact IH].
  cbv zeta. destruct (accept (clean (strip (group text mt 1)))) eqn:E; [|exact IH].
  intros [= <-]. split; [exact E|]. now eexists.
Qed.

(** [re.sub(r'[^\d]', '', s)] and the like: what is left of a text once
    the characters of a class are taken out is outside the class. *)
Lemma cut_out_class p (text0 : str) s :
  forall b q, drop q text0 = s ->
  Forall (fun x => p x = false) (cut_out text0 q (finditer_from (Chr p) b q 0 s)).
Proof.
  induction s as [|x t IH]; intros b q Hd.
  - cbn. rewrite Hd. constructor.
  - assert (Ht : drop (S q) text0 = t).
    { replace (S q) with (q + 1)%nat by lia. rewrite <- drop_drop, Hd. reflexivity. }
    cbn [finditer_from]. unfold match_at. cbn [m rest].
    destruct (p x) eqn:Hp.
    + cbn [pos advance m_end m_start cut_out].
      replace (S q - q - 1)%nat with 0%nat by lia.
      unfold slice. rewrite Nat.sub_diag. cbn [take app]. now apply IH.
    + specialize (IH (Some x) (S q) Ht).
      assert (E : cut_out text0 q (finditer_from (Chr p) (Some x) (S q) 0 t)
                  = x :: cut_out text0 (S q) (finditer_from (Chr p) (Some x) (S q) 0 t)).
      { destruct (finditer_from (Chr p) (Some x) (S q) 0 t) as [|mt ms] eqn:Ef.
        - cbn [cut_out]. now rewrite Hd, Ht.
        - cbn [cut_out].
          destruct (finditer_from_match (Chr p) t (Some x) (S q) 0%nat mt) as (b' & i & E1 & _).
          { rewrite Ef. now left. }
          rewrite (slice_cons text0 q (m_start mt) x t Hd) by lia.
          unfold slice. rewrite Ht.
          replace (m_start mt - q - 1)%nat with (m_start mt - S q)%nat by lia.
          reflexivity. }
      rewrite E. now constructor.
Qed.

Lemma sub_empty_class p text : Forall (fun x => p x = false) (sub_empty (Chr p) text).
Proof. apply cut_out_class. reflexivity. Qed.

Lemma canonical_nonempty p : In p all_provinces -> p <> [].
Proof.
  intros Hin ->. pose proof provinces_trimmed as H. rewrite forallb_forall in H.
  specialize (H _ Hin). discriminate H.
Qed.

Lemma set_province_well_formed text v s :
  extract_province_from_text text = Some v -> well_formed_info s ->
  well_formed_info (set_province v s).
Proof.
  intros E (H1 & H2 & _). split; [exact H1|]. split; [exact H2|].
  right. cbn [province set_province]. apply extract_province_In in E. exact E.
Qed.

Lemma person_info_body_keeps text is_recipient :
  keeps well_formed_info (person_info_body text is_recipient).
Proof.
  unfold person_info_body.
  apply keeps_bind; [|intros _].
  { apply keeps_when_some. intros v s E (_ & H2 & H3).
    apply first_field_accept in E as [Ha _]. apply andb_prop in Ha as [_ Ha].
    apply Nat.ltb_lt in Ha. split; [now right|]. now split. }
  apply keeps_bind; [|intros _].
  { apply keeps_when_some. intros v s E (H1 & _ & H3).
    apply first_field_accept in E as [Ha (raw & ->)]. apply Nat.leb_le in Ha.
    split; [exact H1|]. split; [|exact H3]. right. split; [exact Ha|].
    cbn [phone set_phone]. unfold non_digit, none_of.
    eapply Forall_impl; [apply sub_empty_class|].
    intros x Hx. cbn beta in Hx. now apply negb_false_iff in Hx. }
  apply keeps_bind; [|intros _].
  { apply keeps_when_some. now intros v s _ H. }
  destruct is_recipient.
  - apply keeps_bind; [|intros _].
    { apply keeps_get_bind. intros s0. destruct (nonempty _); [|apply keeps_ret].
      apply keeps_when_some. intros v s E. now apply set_province_well_formed with (text := address s0). }
    apply keeps_bind; [|intros _].
    { apply keeps_get_bind. intros s0. destruct (negb _); [|apply keeps_ret].
      apply keeps_when_some. intros v s E. now apply set_province_well_formed with (text := text). }
    apply keeps_get_bind. intros s0. destruct (negb _); [|apply keeps_ret].
    destruct (search _ _) as [mt|]; [|apply keeps_ret].
    apply keeps_when_some. intros v s E. eapply set_province_well_formed, E.
  - apply keeps_get_bind. intros s0. destruct (nonempty _); [|apply keeps_ret].
    apply keeps_when_some. intros v s E. now apply set_province_well_formed with (text := address s0).
Qed.

(** X16: [_extract_person_info] returns on every text, and every record it
    returns is well formed: the name is empty or longer than two
    characters, the phone number is empty or has nine decimal digits or
    more and nothing else, the province is empty or one of the 77
    canonical names. *)
Theorem person_info_is_well_formed text is_recipient :
  exists info,
    _extract_person_info text is_recipient = Returns info /\ well_formed_info info.
Proof.
  destruct (person_info_body_total text is_recipient info_0) as ([] & s1 & E).
  exists s1. split; [now apply returning_returns|].
  pose proof (person_info_body_keeps text is_recipient info_0) as H.
  rewrite E in H. apply H. repeat split; left; reflexivity.
Qed.





End PersonInfoFacts.

(* --------------------------------------------------------------------- *)
(** ** More on the normalisation of the provinces *)
(* --------------------------------------------------------------------- *)

Section NormalizeFacts.
Import Re Process.
Local Open Scope py_scope.

Lemma resolved_nonempty text q :
  extract_province_from_text text = Some q -> nonempty q = true.
Proof.
  intros E. apply extract_province_In, canonical_nonempty in E.
  unfold nonempty. now rewrite bool_decide_eq_false_2.
Qed.

Lemma resolved_fixed text q :
  extract_province_from_text text = Some q -> extract_province_from_text q = Some q.
Proof. intros E. now apply canonical_fixed, extract_province_In with (text := text). Qed.

(** The province of a record once a resolved name has been stored. *)
Lemma stored_province_value (person : gmap str json) text q :
  extract_province_from_text text = Some q ->
  let person' := dict_set person "province" (JStr q) in
  dict_get person' "province" (JStr []) = JStr q
  /\ truthy (JStr q) = true
  /\ extract_province_from_value (JStr q) = Returns (Some q)
  /\ dict_set person' "province" (JStr q) = person'.
Proof.
  intros E. cbv zeta. pose proof (resolved_nonempty _ _ E) as Hn.
  assert (Ht : truthy (JStr q) = true) by exact Hn.
  split; [unfold dict_get, dict_set; now rewrite lookup_insert_eq|].
  split; [exact Ht|]. split.
  - unfold extract_province_from_value. rewrite Ht. cbn [negb].
    now rewrite (resolved_fixed _ _ E).
  - unfold dict_set. apply insert_insert_eq.
Qed.

Lemma normalize_sender_idempotent sender sender' :
  normalize_sender sender = Returns sender' -> normalize_sender sender' = Returns sender'.
Proof.
  unfold normalize_sender. cbv zeta.
  destruct (truthy (dict_get sender "province" (JStr []))) eqn:Ht.
  - unfold extract_province_from_value at 1. rewrite Ht. cbn [negb].
    destruct (dict_get sender "province" (JStr [])) as [| | | |t| |] eqn:Ep; try discriminate.
    cbn [obind]. destruct (extract_province_from_text t) as [q|] eqn:E; cbn [store_province].
    + rewrite (resolved_nonempty _ _ E). intros [= <-].
      destruct (stored_province_value sender t q E) as (-> & -> & -> & H).
      cbn [obind store_province]. rewrite (resolved_nonempty _ _ E). now rewrite H.
    + intros [= <-]. rewrite Ep, Ht. unfold extract_province_from_value. rewrite Ht.
      cbn [negb obind]. now rewrite E.
  - intros [= <-]. now rewrite Ht.
Qed.

Lemma province_from_address_idempotent person person' :
  province_from_address person = Returns person' ->
  normalize_recipient person' = Returns person'
  \/ (person' = person
      /\ forall q, extract_province_from_value (dict_get person "address" (JStr []))
                   <> Returns (Some q)).
Proof.
  unfold province_from_address. cbv zeta.
  destruct (truthy (dict_get person "address" (JStr []))) eqn:Ht.
  - unfold extract_province_from_value. rewrite Ht. cbn [negb].
    destruct (dict_get person "address" (JStr [])) as [| | | |t| |] eqn:Ea; try discriminate.
    cbn [obind]. destruct (extract_province_from_text t) as [q|] eqn:E; cbn [store_province].
    + rewrite (resolved_nonempty _ _ E). intros [= <-]. left.
      destruct (stored_province_value person t q E) as (H1 & H2 & H3 & H4).
      unfold normalize_recipient. cbv zeta. rewrite H1, H2, H3. cbn [obind].
      rewrite (resolved_nonempty _ _ E). now rewrite H4.
    + intros [= <-]. right. split; [reflexivity|]. intros q. cbv beta iota.
      rewrite ?Ht; cbn [negb]. discriminate.
  - intros [= <-]. right. split; [reflexivity|]. intros q.
    unfold extract_province_from_value. rewrite Ht. discriminate.
Qed.

Lemma normalize_recipient_idempotent recipient recipient' :
  normalize_recipient recipient = Returns recipient' ->
  normalize_recipient recipient' = Returns recipient'.
Proof.
  intros H. assert (H0 := H). revert H. unfold normalize_recipient at 1. cbv zeta.
  destruct (truthy (dict_get recipient "province" (JStr []))) eqn:Ht.
  - unfold extract_province_from_value at 1. rewrite Ht. cbn [negb].
    destruct (dict_get recipient "province" (JStr [])) as [| | | |t| |] eqn:Ep;
      try discriminate.
    cbn [obind]. destruct (extract_province_from_text t) as [q|] eqn:E.
    + rewrite (resolved_nonempty _ _ E). intros [= <-].
      destruct (stored_province_value recipient t q E) as (H1 & H2 & H3 & H4).
      unfold normalize_recipient. cbv zeta. rewrite H1, H2, H3. cbn [obind].
      rewrite (resolved_nonempty _ _ E). now rewrite H4.
    + intros H. destruct (province_from_address_idempotent _ _ H) as [H1|[-> _]];
        [exact H1|exact H0].
  - intros H. destruct (province_from_address_idempotent _ _ H) as [H1|[-> _]];
      [exact H1|exact H0].
Qed.

(** X18: [normalize_province_data] is idempotent: run on a record it has
    returned, it returns the record as it is. *)
Theorem normalize_province_data_idempotent data data' :
  normalize_province_data data = Returns data' ->
  normalize_province_data data' = Returns data'.
Proof.
  destruct data as [| | | | | |d].
  1-6: (intros H; assert (H0 := H); unfold normalize_province_data in H;
        destruct (truthy _); [discriminate H|]; injection H as <-; exact H0).
  unfold normalize_province_data at 1.
  destruct (truthy (JDict d)) eqn:Ht; cbn [negb];
    [|intros [= <-]; unfold normalize_province_data; now rewrite Ht].
  set (step1 := match d !! py "sender" with
                | Some (JDict sender) =>
                  sender' <~ normalize_sender sender ;;
                  Returns (dict_set d "sender" (JDict sender'))
                | _ => Returns d
                end).
  destruct step1 as [d1|e] eqn:E1; [|discriminate]. cbn [obind].
  (* the sender entry of [d1] is stable *)
  assert (S1 : match d1 !! py "sender" with
               | Some (JDict sender) =>
                 sender' <~ normalize_sender sender ;;
                 Returns (dict_set d1 "sender" (JDict sender'))
               | _ => Returns d1
               end = Returns d1).
  { subst step1. destruct (d !! py "sender") as [v|] eqn:Ev.
    - destruct v as [| | | | | |sender]; try (injection E1 as <-; now rewrite Ev).
      destruct (normalize_sender sender) as [sender'|] eqn:En; [|discriminate].
      cbn [obind] in E1. injection E1 as <-. unfold dict_set.
      rewrite lookup_insert_eq, (normalize_sender_idempotent _ _ En). cbn [obind].
      now rewrite insert_insert_eq.
    - injection E1 as <-. now rewrite Ev. }
  assert (T1 : forall v, truthy (JDict (dict_set d1 "recipient" v)) = true).
  { intros v. cbn [truthy]. rewrite bool_decide_eq_false_2; [reflexivity|].
    unfold dict_set. rewrite map_size_empty_iff. apply insert_non_empty. }
  assert (T0 : truthy (JDict d1) = true).
  { subst step1. cbn [truthy]. rewrite bool_decide_eq_false_2; [reflexivity|].
    rewrite map_size_empty_iff.
    destruct (d !! py "sender") as [v|] eqn:Ev.
    - destruct v as [| | | | | |sender];
        try (injection E1 as <-; intros ->; now rewrite lookup_empty in Ev).
      destruct (normalize_sender sender); [|discriminate]. injection E1 as <-.
      apply insert_non_empty.
    - injection E1 as <-. intros ->. cbn in Ht. discriminate Ht. }
  destruct (d1 !! py "recipient") as [v|] eqn:Er.
  - destruct v as [| | | | | |recipient];
      try (intros [= <-]; unfold normalize_province_data; rewrite T0; cbn [negb];
           rewrite S1; cbn [obind]; now rewrite Er).
    destruct (normalize_recipient recipient) as [recipient'|] eqn:En; [|discriminate].
    cbn [obind]. intros [= <-]. unfold normalize_province_data. rewrite T1. cbn [negb].
    assert (S2 : match dict_set d1 "recipient" (JDict recipient') !! py "sender" with
                 | Some (JDict sender) =>
                   sender' <~ normalize_sender sender ;;
                   Returns (dict_set (dict_set d1 "recipient" (JDict recipient')) "sender"
                              (JDict sender'))
                 | _ => Returns (dict_set d1 "recipient" (JDict recipient'))
                 end = Returns (dict_set d1 "recipient" (JDict recipient'))).
    { unfold dict_set at 1. rewrite lookup_insert_ne by (intros E; now apply sender_ne_recipient).
      destruct (d1 !! py "sender") as [v|] eqn:Ev; [|reflexivity].
      destruct v as [| | | | | |sender]; try reflexivity.
      destruct (normalize_sender sender) as [sender'|] eqn:Ens; [|discriminate].
      cbn [obind] in S1 |- *. injection S1 as S1. f_equal. unfold dict_set in *.
      rewrite insert_insert_ne by (intros E; now apply sender_ne_recipient).
      now rewrite S1. }
    rewrite S2. cbn [obind]. unfold dict_set at 1. rewrite lookup_insert_eq.
    rewrite (normalize_recipient_idempotent _ _ En). cbn [obind].
    unfold dict_set. now rewrite insert_insert_eq.
  - intros [= <-]. unfold normalize_province_data. rewrite T0. cbn [negb].
    rewrite S1. cbn [obind]. now rewrite Er.
Qed.

Lemma normalize_province_data_idempotent_witness :
  normalize_province_data
    (JDict (dict_set (dict_set ∅ "recipient" (info_dict
       {| name := py "สมหญิง"; phone := []; address := []; province := py "ระยอง" |}))
       "sender" (JDict ∅)))
  = Returns
    (JDict (dict_set (dict_set ∅ "recipient" (info_dict
       {| name := py "สมหญิง"; phone := []; address := []; province := py "ระยอง" |}))
       "sender" (JDict ∅))).
Proof.
  apply (normalize_province_data_idempotent
    (JDict (dict_set (dict_set ∅ "recipient" (info_dict
       {| name := py "สมหญิง"; phone := []; address := [];
          province := py "จังหวัดระยอง 21000" |}))
       "sender" (JDict ∅)))).
  vm_compute. reflexivity.
Defined.

End NormalizeFacts.

(* --------------------------------------------------------------------- *)
(** ** What the repair of the record guarantees *)
(* --------------------------------------------------------------------- *)

Section RepairPost.
Import Re Process.
Local Open Scope py_scope.

Lemma info_dict_is_dict i : is_str (info_dict i) = false.
Proof. reflexivity. Qed.

Lemma recipient_set (d : gmap str json) v :
  dict_set d "recipient" v !! py "recipient" = Some v.
Proof. unfold dict_set. apply lookup_insert_eq. Qed.

(** X19: whatever the record, when [normalize_ocr_json_result] returns a
    dict its recipient is no string any more: a recipient given as text
    has been turned into a record (the sender may still be text, when it
    is short and the recipient is a record already). *)
Theorem repair_leaves_no_string_recipient (d d' : gmap str json) v :
  normalize_ocr_json_result (JDict d) = Returns (JDict d') ->
  d' !! py "recipient" = Some v -> is_str v = false.
Proof.
  unfold normalize_ocr_json_result. cbv zeta.
  assert (Hsplit : forall s,
    (let '(sender_text, recipient_text) := smart_split_sender_recipient s in
     sender_dict <~ _extract_person_info sender_text false ;;
     recipient_dict <~ _extract_person_info recipient_text true ;;
     Returns (JDict (dict_set (dict_set d "sender" (info_dict sender_dict))
                              "recipient" (info_dict recipient_dict))))
    = Returns (JDict d') ->
    d' !! py "recipient" = Some v -> is_str v = false).
  { intros s. destruct (smart_split_sender_recipient s) as [st rt].
    destruct (_extract_person_info st false) as [i1|]; cbn [obind]; [|discriminate].
    destruct (_extract_person_info rt true) as [i2|]; cbn [obind]; [|discriminate].
    intros [= <-]. rewrite recipient_set. now intros [= <-]. }
  assert (Hrec : forall t,
    (i <~ _extract_person_info t true ;;
     Returns (JDict (dict_set d "recipient" (info_dict i)))) = Returns (JDict d') ->
    d' !! py "recipient" = Some v -> is_str v = false).
  { intros t. destruct (_extract_person_info t true) as [i|]; cbn [obind]; [|discriminate].
    intros [= <-]. rewrite recipient_set. now intros [= <-]. }
  destruct (dict_get d "sender" (JDict ∅)) as [| | | |s| |];
    destruct (d !! py "recipient") as [[| | | |t| |]|] eqn:Er;
    try (intros [= <-]; rewrite Er; intros [= <-]; reflexivity);
    try (intros [= <-]; rewrite Er; discriminate);
    try (apply Hrec);
    try (destruct (100 <? length s)%nat; [apply Hsplit|]);
    try (apply Hrec); try (apply Hsplit);
    try (destruct (truthy _); [|apply Hsplit]);
    try (intros [= <-]; rewrite Er; intros [= <-]; reflexivity).
Qed.

Lemma repair_leaves_no_string_recipient_witness :
  is_str recipient_rayong = false.
Proof.
  apply (repair_leaves_no_string_recipient
           (dict_set (dict_set ∅ "recipient" recipient_rayong) "sender" (JStr (py "สมชาย")))
           (dict_set (dict_set ∅ "recipient" recipient_rayong) "sender" (JStr (py "สมชาย")))
           recipient_rayong).
  - vm_compute. reflexivity.
  - vm_compute. reflexivity.
Defined.

End RepairPost.

(* --------------------------------------------------------------------- *)
(** ** The code fences around the answer of the OCR model *)
(* --------------------------------------------------------------------- *)

Section StarFacts.
Import Re.

Lemma m_seq a b c g k : m (Seq a b) c g k = m a c g (fun c' g' => m b c' g' k).
Proof. reflexivity. Qed.

Lemma m_bol_start b c g k :
  before c = None -> m (Seq (Bol false) b) c g k = m b c g k.
Proof. intros H. cbn [m]. now rewrite H. Qed.

Lemma m_bol_inside b c g k x :
  before c = Some x -> m (Seq (Bol false) b) c g k = None.
Proof. intros H. cbn [m]. now rewrite H. Qed.

(** The two equations of a greedy repetition of a character class. *)
Lemma star_class_step p c g k x t :
  rest c = x :: t -> p x = true ->
  m (Star (Chr p)) c g k = orelse (m (Star (Chr p)) (advance c x t) g k) (k c g).
Proof.
  intros Hr Hp. cbn [m]. rewrite Hr. cbn [length]. rewrite Hr, Hp.
  cbn [advance pos rest]. rewrite (proj2 (Nat.ltb_lt _ _) (Nat.lt_succ_diag_r (pos c))).
  reflexivity.
Qed.

Lemma star_class_stop p c g k :
  match rest c with [] => True | x :: _ => p x = false end ->
  m (Star (Chr p)) c g k = k c g.
Proof.
  intros H. cbn [m]. destruct (rest c) as [|x t] eqn:Hr; cbn [length]; [reflexivity|].
  rewrite Hr, H. reflexivity.
Qed.

Lemma star_class_none (P : str -> Prop) p k :
  (forall x t, P (x :: t) -> p x = true -> P t) ->
  (forall c g, P (rest c) -> k c g = None) ->
  forall c g, P (rest c) -> m (Star (Chr p)) c g k = None.
Proof.
  intros Htail Hk c g. remember (rest c) as s eqn:Hs. revert c Hs.
  induction s as [|x t IH]; intros c Hs HP.
  - rewrite star_class_stop by (now rewrite <- Hs). apply Hk. now rewrite <- Hs.
  - destruct (p x) eqn:Hp.
    + rewrite (star_class_step p c g k x t) by easy.
      rewrite (IH (advance c x t)) by (cbn [rest advance]; eauto).
      cbn [orelse]. apply Hk. now rewrite <- Hs.
    + rewrite star_class_stop by (now rewrite <- Hs). apply Hk. now rewrite <- Hs.
Qed.

Lemma advance_over_spec sp : forall c tail,
  rest c = sp ++ tail ->
  rest (advance_over c sp) = tail /\ pos (advance_over c sp) = (pos c + length sp)%nat.
Proof.
  induction sp as [|x sp IH]; intros c tail Hr; cbn [advance_over length].
  - split; [exact Hr|lia].
  - rewrite Hr. change (drop 1 ((x :: sp) ++ tail)) with (sp ++ tail).
    destruct (IH (advance c x (sp ++ tail)) tail eq_refl) as [H1 H2].
    split; [exact H1|]. rewrite H2. cbn [pos advance]. lia.
Qed.

Lemma star_class_run p k g sp : forall c tail res,
  rest c = sp ++ tail -> Forall (fun x => p x = true) sp ->
  match tail with [] => True | x :: _ => p x = false end ->
  k (advance_over c sp) g = Some res ->
  m (Star (Chr p)) c g k = Some res.
Proof.
  induction sp as [|x sp IH]; intros c tail res Hr Hsp Htail Hk.
  - rewrite star_class_stop; [exact Hk|]. now rewrite Hr.
  - apply Forall_cons in Hsp as [Hx Hsp].
    rewrite (star_class_step p c g k x (sp ++ tail)) by easy.
    rewrite (IH (advance c x (sp ++ tail)) tail res); [reflexivity|reflexivity|easy|easy|].
    cbn [advance_over] in Hk. rewrite Hr in Hk. exact Hk.
Qed.

Lemma m_chr_eq x c g k t :
  rest c = x :: t -> m (chr x) c g k = k (advance c x t) g.
Proof. intros Hr. unfold chr. cbn [m]. now rewrite Hr, N.eqb_refl. Qed.

(** A literal at the head of the text is consumed. *)
Lemma m_literal l : forall c g k tail,
  rest c = l ++ tail -> m (seq (map chr l)) c g k = k (advance_over c l) g.
Proof.
  induction l as [|x l IH]; intros c g k tail Hr; [reflexivity|].
  assert (E : m (seq (map chr (x :: l))) c g k
              = m (chr x) c g (fun c' g' => m (seq (map chr l)) c' g' k)).
  { destruct l; [|reflexivity]. cbn [map seq]. unfold chr at 2. cbn [m].
    unfold chr. cbn [m]. destruct (rest c) as [|y u]; [reflexivity|].
    now destruct (x =? y). }
  rewrite E, (m_chr_eq x c g _ (l ++ tail) Hr).
  rewrite (IH _ g k tail) by reflexivity.
  cbn [advance_over]. now rewrite Hr.
Qed.

End StarFacts.

Section FenceFacts.
Import Re Process.

(** A text without a backtick. *)
Local Abbreviation plain := (Forall (fun x : N => x <> 96)).

Lemma fence_needs_backtick c g k :
  match rest c with [] => True | x :: _ => x <> 96 end ->
  m (lit fence) c g k = None.
Proof.
  intros H. change (lit fence) with (Seq (chr 96) (Seq (chr 96) (chr 96))).
  cbn [m chr]. destruct (rest c) as [|x t]; [reflexivity|].
  now rewrite (proj2 (N.eqb_neq 96 x)) by congruence.
Qed.

Lemma plain_head (s : str) : plain s -> match s with [] => True | x :: _ => x <> 96 end.
Proof. now destruct 1. Qed.

Lemma plain_tail x (s : str) : plain (x :: s) -> plain s.
Proof. intros H. now apply Forall_cons in H. Qed.

Lemma fence_close_plain b p s : plain s -> match_at fence_close b p s = None.
Proof.
  intros Hs. unfold match_at.
  change fence_close with (Seq (Star (Chr isspace)) (lit fence)). rewrite m_seq.
  rewrite (star_class_none plain isspace); [reflexivity| | |exact Hs].
  - intros x t H _. now apply plain_tail in H.
  - intros c g Hc. now apply fence_needs_backtick, plain_head.
Qed.

Lemma fence_open_plain b p s : plain s -> match_at fence_open b p s = None.
Proof.
  intros Hs. unfold match_at.
  change fence_open with (Seq (Bol false) (Seq (lit fence) (Star (Chr isspace)))).
  destruct b as [x|]; [now rewrite (m_bol_inside _ _ _ _ x)|].
  rewrite m_bol_start, m_seq by reflexivity.
  now rewrite fence_needs_backtick by (now apply plain_head).
Qed.

Lemma fence_json_open_plain b p s : plain s -> match_at fence_json_open b p s = None.
Proof.
  intros Hs. unfold match_at.
  change fence_json_open
    with (Seq (Bol false) (Seq (lit fence) (Seq (lit "json") (Star (Chr isspace))))).
  destruct b as [x|]; [now rewrite (m_bol_inside _ _ _ _ x)|].
  rewrite m_bol_start, m_seq by reflexivity.
  now rewrite fence_needs_backtick by (now apply plain_head).
Qed.

Lemma finditer_none r (P : str -> Prop) :
  (forall x t, P (x :: t) -> P t) ->
  (forall b p s, P s -> match_at r b p s = None) ->
  forall s b p, P s -> finditer_from r b p 0 s = [].
Proof.
  intros Htail Hnone. induction s as [|x t IH]; intros b p Hs; cbn [finditer_from];
    rewrite (Hnone _ _ _ Hs); [reflexivity|]. apply IH. eauto.
Qed.

Lemma sub_empty_none r (P : str -> Prop) s :
  (forall x t, P (x :: t) -> P t) ->
  (forall b p s, P s -> match_at r b p s = None) ->
  P s -> sub_empty r s = s.
Proof.
  intros Htail Hnone Hs. unfold sub_empty, finditer.
  now rewrite (finditer_none r P Htail Hnone s None 0%nat Hs).
Qed.

Lemma strip_plain s : plain s -> plain (strip s).
Proof.
  intros H. destruct (strip_parts s) as (w1 & w2 & _ & _ & E). rewrite E in H.
  apply Forall_app in H as [_ H]. now apply Forall_app in H as [H _].
Qed.

Lemma lstrip_fixed s :
  match s with [] => True | x :: _ => isspace x = false end -> lstrip s = s.
Proof. destruct s as [|x t]; [reflexivity|]. cbn [lstrip]. now intros ->. Qed.

Lemma lstrip_head s : match lstrip s with [] => True | x :: _ => isspace x = false end.
Proof.
  induction s as [|x t IH]; [exact I|]. cbn [lstrip].
  destruct (isspace x) eqn:E; [exact IH|exact E].
Qed.

Lemma strip_strip s : strip (strip s) = strip s.
Proof.
  unfold strip.
  assert (H1 : lstrip (rstrip (lstrip s)) = rstrip (lstrip s)).
  { pose proof (lstrip_head s) as Hh. destruct (lstrip s) as [|x t]; [reflexivity|].
    destruct (rstrip_cons x t Hh) as (t' & ->). apply lstrip_fixed. exact Hh. }
  rewrite H1. unfold rstrip. rewrite rev_involutive.
  rewrite (lstrip_fixed (lstrip _)); [reflexivity|apply lstrip_head].
Qed.

Lemma subs_plain s :
  plain s ->
  sub_empty fence_close (sub_empty fence_open (sub_empty fence_json_open s)) = s.
Proof.
  intros Hs.
  rewrite (sub_empty_none fence_json_open plain s plain_tail fence_json_open_plain Hs).
  rewrite (sub_empty_none fence_open plain s plain_tail fence_open_plain Hs).
  apply (sub_empty_none fence_close plain s plain_tail fence_close_plain Hs).
Qed.

(** A pattern anchored at the start of the text matches nowhere else. *)
Lemma anchored_inside R : forall s b p skip,
  finditer_from (Seq (Bol false) R) (Some b) p skip s = [].
Proof.
  induction s as [|x t IH]; intros b p skip.
  - destruct skip; [|reflexivity]. cbn [finditer_from]. unfold match_at.
    now rewrite (m_bol_inside _ _ _ _ b).
  - destruct skip; cbn [finditer_from]; [|apply IH]. unfold match_at.
    rewrite (m_bol_inside _ _ _ _ b) by reflexivity. apply IH.
Qed.

End FenceFacts.

Section FencedFacts.
Import Re Process.

Local Abbreviation plain := (Forall (fun x : N => x <> 96)).
Local Abbreviation F3 := [96; 96; 96].
Local Abbreviation F7 := [96; 96; 96; 106; 115; 111; 110].

Lemma space_not_backtick x : isspace x = true -> x <> 96.
Proof. intros H ->. discriminate H. Qed.

Lemma rstrip_fixed s :
  match rev s with [] => True | x :: _ => isspace x = false end -> rstrip s = s.
Proof. intros H. unfold rstrip. rewrite lstrip_fixed by exact H. apply rev_involutive. Qed.

Lemma trimmed_inv p :
  trimmed p = true ->
  (exists x t, p = x :: t /\ isspace x = false)
  /\ (exists y r, rev p = y :: r /\ isspace y = false).
Proof.
  unfold trimmed. destruct p as [|x t]; [discriminate|].
  destruct (rev (x :: t)) as [|y r] eqn:E; [discriminate|].
  intros H. apply andb_prop in H as [Hx Hy]. apply negb_true_iff in Hx, Hy.
  split; [now exists x, t|now exists y, r].
Qed.

Lemma strip_trimmed p : trimmed p = true -> strip p = p.
Proof.
  intros H. destruct (trimmed_inv p H) as ((x & t & -> & Hx) & (y & r & Er & Hy)).
  unfold strip. rewrite (lstrip_fixed (x :: t)) by exact Hx.
  apply rstrip_fixed. now rewrite Er.
Qed.

(** A text that ends on a visible character has one after any white
    space at its head. *)
Lemma first_visible (bs : str) :
  bs <> [] -> match rev bs with [] => True | y :: _ => isspace y = false end ->
  exists sp y r, bs = sp ++ y :: r /\ blank sp /\ isspace y = false.
Proof.
  induction bs as [|x bs IH]; [easy|]. intros _ Hl.
  destruct (isspace x) eqn:Hx.
  - destruct bs as [|x' bs'].
    + cbn [rev app] in Hl. congruence.
    + destruct IH as (sp & y & r & E & Hsp & Hy); [easy| |].
      { cbn [rev] in Hl |- *. destruct (rev bs' ++ [x']) as [|z u] eqn:Ez.
        - now destruct (rev bs').
        - exact Hl. }
      exists (x :: sp), y, r. rewrite E. split; [reflexivity|]. split; [|exact Hy].
      now constructor.
  - exists [], x, bs. split; [reflexivity|]. split; [constructor|exact Hx].
Qed.

Lemma rev_tail_visible x (bs : str) :
  bs <> [] ->
  match rev (x :: bs) with [] => True | y :: _ => isspace y = false end ->
  match rev bs with [] => True | y :: _ => isspace y = false end.
Proof.
  intros Hn. cbn [rev]. destruct (rev bs) as [|z u] eqn:E; [|easy].
  destruct bs; [easy|]. cbn [rev] in E. now destruct (rev bs).
Qed.

(** The closing fence does not match inside the body. *)
Lemma fence_close_inside b p (bs tail : str) :
  bs <> [] -> plain bs ->
  match rev bs with [] => True | y :: _ => isspace y = false end ->
  match_at fence_close b p (bs ++ tail) = None.
Proof.
  intros Hn Hp Hl. unfold match_at.
  change fence_close with (Seq (Star (Chr isspace)) (lit fence)). rewrite m_seq.
  rewrite (star_class_none
             (fun s => exists sp y r, s = sp ++ y :: r /\ blank sp
                                      /\ isspace y = false /\ y <> 96) isspace);
    [reflexivity| | |].
  - intros x t (sp & y & r & E & Hsp & Hy & Hy') Hx.
    destruct sp as [|x' sp]; cbn [app] in E; injection E as -> ->; [congruence|].
    apply Forall_cons in Hsp as [_ Hsp]. now exists sp, y, r.
  - intros c g (sp & y & r & E & Hsp & Hy & Hy'). apply fence_needs_backtick.
    rewrite E. destruct sp as [|x' sp]; [exact Hy'|].
    apply Forall_cons in Hsp as [Hx' _]. now apply space_not_backtick.
  - cbn [rest]. destruct (first_visible bs Hn Hl) as (sp & y & r & E & Hsp & Hy).
    exists sp, y, (r ++ tail). rewrite E, <- app_assoc. split; [reflexivity|].
    split; [exact Hsp|]. split; [exact Hy|].
    rewrite E in Hp. apply Forall_app in Hp as [_ Hp]. now apply Forall_cons in Hp as [Hp _].
Qed.

(** It matches at the white space before the fence. *)
Lemma fence_close_at_end b p ws' :
  blank ws' ->
  match_at fence_close b p (ws' ++ F3)
  = Some {| m_start := p; m_end := (p + length ws' + 3)%nat; m_groups := [] |}.
Proof.
  intros Hws. unfold match_at.
  change fence_close with (Seq (Star (Chr isspace)) (lit fence)). rewrite m_seq.
  set (c := {| before := b; pos := p; rest := ws' ++ F3 |}).
  destruct (advance_over_spec ws' c F3 eq_refl) as [Hr Hpos].
  destruct (advance_over_spec F3 (advance_over c ws') [] Hr) as [Hr3 Hpos3].
  rewrite (star_class_run isspace _ [] ws' c F3
             (advance_over (advance_over c ws') F3, [])); try easy.
  - rewrite Hpos3, Hpos. reflexivity.
  - change (lit fence) with (seq (map chr F3)).
    now rewrite (m_literal F3 _ _ _ [] Hr).
Qed.

Lemma fence_close_skips (s : str) : forall b p,
  finditer_from fence_close b p (length s) s = [].
Proof.
  induction s as [|x t IH]; intros b p; cbn [length finditer_from]; [|apply IH].
  rewrite fence_close_plain by constructor. reflexivity.
Qed.

Lemma finditer_from_eq r b p (s : str) :
  finditer_from r b p 0 s
  = match match_at r b p s with
    | Some x =>
      x :: match s with
           | [] => []
           | y :: t => finditer_from r (Some y) (S p) (m_end x - p - 1) t
           end
    | None =>
      match s with
      | [] => []
      | y :: t => finditer_from r (Some y) (S p) 0 t
      end
    end.
Proof. now destruct s. Qed.

Lemma fence_close_scan ws' (bs : str) : forall b p,
  blank ws' -> plain bs ->
  match rev bs with [] => True | y :: _ => isspace y = false end ->
  finditer_from fence_close b p 0 (bs ++ ws' ++ F3)
  = [{| m_start := (p + length bs)%nat;
        m_end := (p + length bs + length ws' + 3)%nat; m_groups := [] |}].
Proof.
  induction bs as [|x bs IH]; intros b p Hws Hp Hl.
  - cbn [app length]. rewrite finditer_from_eq, (fence_close_at_end b p ws' Hws).
    rewrite Nat.add_0_r. f_equal.
    destruct (ws' ++ F3) as [|y t] eqn:E; [now destruct ws'|].
    cbn [m_end].
    replace (p + length ws' + 3 - p - 1)%nat with (length t).
    + apply fence_close_skips.
    + apply (f_equal length) in E. rewrite length_app in E. cbn [length] in E. lia.
  - rewrite finditer_from_eq.
    rewrite (fence_close_inside b p (x :: bs) (ws' ++ F3)) by easy.
    cbn [app].
    destruct bs as [|x' bs'].
    + rewrite (IH (Some x) (S p) Hws); [|constructor|exact I].
      cbn [length]. f_equal. f_equal; lia.
    + rewrite (IH (Some x) (S p) Hws).
      * cbn [length]. f_equal. f_equal; lia.
      * now apply Forall_cons in Hp.
      * now apply (rev_tail_visible x).
Qed.

(** The opening fence with its language tag, at the start of the text. *)
Lemma fence_json_open_at_start ws (tail : str) :
  blank ws -> match tail with [] => True | x :: _ => isspace x = false end ->
  match_at fence_json_open None 0 (F7 ++ ws ++ tail)
  = Some {| m_start := 0; m_end := (7 + length ws)%nat; m_groups := [] |}.
Proof.
  intros Hws Ht. unfold match_at.
  change fence_json_open
    with (Seq (Bol false) (Seq (seq (map chr F3))
            (Seq (seq (map chr [106; 115; 111; 110])) (Star (Chr isspace))))).
  set (c := {| before := None; pos := 0; rest := F7 ++ ws ++ tail |}).
  rewrite m_bol_start, m_seq by reflexivity.
  destruct (advance_over_spec F3 c ([106; 115; 111; 110] ++ ws ++ tail) eq_refl)
    as [R1 P1].
  rewrite (m_literal F3 c _ _ ([106; 115; 111; 110] ++ ws ++ tail) eq_refl), m_seq.
  destruct (advance_over_spec [106; 115; 111; 110] (advance_over c F3) (ws ++ tail) R1)
    as [R2 P2].
  rewrite (m_literal [106; 115; 111; 110] _ _ _ _ R1).
  set (c2 := advance_over (advance_over c F3) [106; 115; 111; 110]) in *.
  destruct (advance_over_spec ws c2 tail R2) as [R3 P3].
  rewrite (star_class_run isspace _ [] ws c2 tail (advance_over c2 ws, [])); try easy.
  rewrite P3, P2, P1. reflexivity.
Qed.

Lemma sub_fence_json_open ws (tail : str) :
  blank ws -> match tail with [] => True | x :: _ => isspace x = false end ->
  sub_empty fence_json_open (F7 ++ ws ++ tail) = tail.
Proof.
  intros Hws Ht. unfold sub_empty, finditer.
  rewrite finditer_from_eq, (fence_json_open_at_start ws tail Hws Ht).
  change fence_json_open
    with (Seq (Bol false) (Seq (lit fence) (Seq (lit "json") (Star (Chr isspace))))).
  cbn [app]. rewrite anchored_inside. cbn [cut_out m_start m_end].
  unfold slice. cbn [take app].
  change (96 :: 96 :: 96 :: 106 :: 115 :: 111 :: 110 :: ws ++ tail)
    with (F7 ++ ws ++ tail).
  rewrite app_assoc.
  replace (7 + length ws)%nat with (length (F7 ++ ws)) by (rewrite length_app; reflexivity).
  apply drop_app_length.
Qed.

Lemma sub_fence_open_body x (t : str) :
  x <> 96 -> sub_empty fence_open (x :: t) = x :: t.
Proof.
  intros Hx. unfold sub_empty, finditer. rewrite finditer_from_eq.
  unfold match_at.
  change fence_open with (Seq (Bol false) (Seq (lit fence) (Star (Chr isspace)))).
  rewrite m_bol_start, m_seq by reflexivity.
  rewrite fence_needs_backtick by exact Hx.
  now rewrite anchored_inside.
Qed.

Lemma sub_fence_close ws' (body : str) :
  blank ws' -> plain body ->
  match rev body with [] => True | y :: _ => isspace y = false end ->
  sub_empty fence_close (body ++ ws' ++ F3) = body.
Proof.
  intros Hws Hp Hl. unfold sub_empty, finditer.
  rewrite (fence_close_scan ws' body None 0%nat Hws Hp Hl).
  cbn [cut_out m_start m_end]. unfold slice.
  rewrite Nat.sub_0_r, Nat.add_0_l.
  change (drop 0 (body ++ ws' ++ F3)) with (body ++ ws' ++ F3).
  rewrite take_app_length.
  rewrite drop_ge; [apply app_nil_r|].
  rewrite !length_app. cbn [length]. lia.
Qed.

Lemma strip_fenced (s : str) : strip (F7 ++ s ++ F3) = F7 ++ s ++ F3.
Proof.
  unfold strip. rewrite (lstrip_fixed (F7 ++ s ++ F3)) by reflexivity.
  apply rstrip_fixed. rewrite !rev_app_distr. reflexivity.
Qed.

End FencedFacts.

Section ParseFacts.
Import Re Process.
Local Open Scope py_scope.

Variable json_loads : str -> json + string.

(** What [parse_ocr_result] does with a text once the fences are gone. *)
Lemma parse_plain text :
  Forall (fun x : N => x <> 96) text ->
  parse_ocr_result json_loads text
  = otry_Exception
      (first <~ try_loads json_loads (strip text) ;;
       match first with
       | Some data => Returns (Some data)
       | None =>
         match search json_object (strip text) with
         | Some json_match => try_loads json_loads (group0 (strip text) json_match)
         | None => Returns None
         end
       end)
      (Returns None).
Proof.
  intros H. unfold parse_ocr_result. cbv zeta.
  rewrite (subs_plain (strip text)) by (now apply strip_plain).
  now rewrite strip_strip.
Qed.

(** X20: a text without a backtick that [json.loads] reads, white space
    around it left aside, as an object, is returned as that object: the
    three substitutions that remove the code fences leave it alone. *)
Theorem plain_json_is_parsed text d :
  Forall (fun x : N => x <> 96) text ->
  json_loads (strip text) = inl (JDict d) ->
  parse_ocr_result json_loads text = Returns (Some (JDict d)).
Proof.
  intros H E. rewrite (parse_plain text H). unfold try_loads, loads. now rewrite E.
Qed.

(** X21: the answer of the model in a code fence is read as the bare
    answer is: for a text without a backtick that neither starts nor
    ends with white space, [parse_ocr_result] gives for the text between
    [```json] and [```], with any white space after the first and before
    the second, what it gives for the text itself. *)
Theorem fenced_json_is_parsed ws body ws' :
  blank ws -> blank ws' -> trimmed body = true ->
  Forall (fun x : N => x <> 96) body ->
  parse_ocr_result json_loads (py "```json" ++ ws ++ body ++ ws' ++ py "```")
  = parse_ocr_result json_loads body.
Proof.
  intros Hws Hws' Ht Hp.
  destruct (trimmed_inv body Ht) as ((x & t & Eb & Hx) & (y & r & Er & Hy)).
  assert (Hx' : x <> 96) by (rewrite Eb in Hp; now apply Forall_cons in Hp).
  assert (E : sub_empty fence_close
                (sub_empty fence_open
                   (sub_empty fence_json_open
                      (strip (py "```json" ++ ws ++ body ++ ws' ++ py "```"))))
              = body).
  { change (py "```json") with [96; 96; 96; 106; 115; 111; 110].
    change (py "```") with [96; 96; 96].
    replace ([96; 96; 96; 106; 115; 111; 110] ++ ws ++ body ++ ws' ++ [96; 96; 96])
      with ([96; 96; 96; 106; 115; 111; 110] ++ (ws ++ body ++ ws') ++ [96; 96; 96])
      by (now rewrite <- !app_assoc).
    rewrite strip_fenced, <- !app_assoc.
    rewrite (sub_fence_json_open ws (body ++ ws' ++ [96; 96; 96]) Hws)
      by (rewrite Eb; exact Hx).
    assert (E2 : sub_empty fence_open (body ++ ws' ++ [96; 96; 96])
                 = body ++ ws' ++ [96; 96; 96])
      by (rewrite Eb; apply sub_fence_open_body, Hx').
    rewrite E2. apply (sub_fence_close ws' body Hws' Hp). now rewrite Er. }
  rewrite (parse_plain body Hp), (strip_trimmed body Ht).
  unfold parse_ocr_result. cbv zeta. rewrite E, (strip_trimmed body Ht). reflexivity.
Qed.

End ParseFacts.

Section ParseWitness.
Import Re Process.

(** A reader that knows one document. *)
Lemma plain_json_is_parsed_witness :
  parse_ocr_result
    (fun t => if bool_decide (t = py "{}") then inl (JDict ∅) else inr "JSONDecodeError")
    (py "  {}  ")
  = Returns (Some (JDict ∅)).
Proof.
  apply (plain_json_is_parsed
           (fun t => if bool_decide (t = py "{}") then inl (JDict ∅)
                     else inr "JSONDecodeError")).
  - vm_compute. repeat constructor; discriminate.
  - vm_compute. reflexivity.
Defined.

Lemma fenced_json_is_parsed_witness :
  parse_ocr_result
    (fun t => if bool_decide (t = py "{}") then inl (JDict ∅) else inr "JSONDecodeError")
    (py "```json" ++ [10] ++ py "{}" ++ [10] ++ py "```")
  = parse_ocr_result
      (fun t => if bool_decide (t = py "{}") then inl (JDict ∅) else inr "JSONDecodeError")
      (py "{}").
Proof.
  apply (fenced_json_is_parsed
           (fun t => if bool_decide (t = py "{}") then inl (JDict ∅)
                     else inr "JSONDecodeError") [10] (py "{}") [10]).
  - repeat constructor.
  - repeat constructor.
  - reflexivity.
  - vm_compute. repeat constructor; discriminate.
Defined.

End ParseWitness.

(* --------------------------------------------------------------------- *)
(** ** The record sent to the database *)
(* --------------------------------------------------------------------- *)

Section DatabaseFacts.
Import Re Process.
Local Open Scope py_scope.

Variable post : json -> outcome json.
Variable message_of : exn -> str.

Lemma sender_refused (d : gmap str json) v :
  d !! py "sender" = Some v -> is_dict v = false ->
  save_parcel_to_db post message_of (JDict d)
  = Returns (failure message_of (Exception "AttributeError")).
Proof.
  intros Hv Hd. unfold save_parcel_to_db, _prepare_payload, dict_get. rewrite Hv.
  cbn [default from_option id]. destruct v; try discriminate Hd; reflexivity.
Qed.


End DatabaseFacts.

Section DatabaseWitness.
Import Re Process.
Local Open Scope py_scope.


End DatabaseWitness.

Section StoredSender.
Import Re Process.
Local Open Scope py_scope.

Variable post : json -> outcome json.
Variable message_of : exn -> str.

(** X23: a sender that the OCR gave as a string of at most 100 characters,
    beside a recipient that is a non-empty dict, goes through the repair
    and the normalisation as it is; a record with such a sender is then
    refused by [save_parcel_to_db] before the server is contacted
    (whatever the later steps write into the other entries): the parcel
    is sorted, and not stored. *)
Theorem short_string_sender_is_not_stored (d : gmap str json) s recipient data' :
  d !! py "sender" = Some (JStr s) -> (length s <= 100)%nat ->
  d !! py "recipient" = Some (JDict recipient) -> recipient <> ∅ ->
  (d1 <~ normalize_ocr_json_result (JDict d) ;; normalize_province_data d1) = Returns data' ->
  exists d',
    data' = JDict d' /\ d' !! py "sender" = Some (JStr s)
    /\ forall d'', d'' !! py "sender" = d' !! py "sender" ->
         save_parcel_to_db post message_of (JDict d'')
         = Returns (failure message_of (Exception "AttributeError")).
Proof.
  intros Hs Hlen Hr Hne.
  assert (E1 : normalize_ocr_json_result (JDict d) = Returns (JDict d)).
  { unfold normalize_ocr_json_result, dict_get. cbv zeta. rewrite Hs, Hr.
    cbn [default from_option id].
    rewrite (proj2 (Nat.ltb_ge 100 (length s)) Hlen).
    cbn [truthy]. rewrite bool_decide_eq_false_2; [reflexivity|].
    now rewrite map_size_empty_iff. }
  rewrite E1. cbn [obind]. unfold normalize_province_data.
  assert (Ht : truthy (JDict d) = true).
  { cbn [truthy]. rewrite bool_decide_eq_false_2; [reflexivity|].
    rewrite map_size_empty_iff. intros ->. now rewrite lookup_empty in Hs. }
  rewrite Ht. cbn [negb]. rewrite Hs. cbn [obind]. rewrite Hr.
  destruct (normalize_recipient recipient) as [recipient'|e]; cbn [obind]; [|discriminate].
  intros [= <-]. eexists. split; [reflexivity|].
  assert (Hs' : dict_set d "recipient" (JDict recipient') !! py "sender" = Some (JStr s)).
  { unfold dict_set. rewrite lookup_insert_ne by (intros E; now apply sender_ne_recipient).
    exact Hs. }
  split; [exact Hs'|]. intros d'' H. rewrite Hs' in H.
  now apply sender_refused with (v := JStr s).
Qed.

End StoredSender.

Section StoredSenderWitness.
Import Re Process.
Local Open Scope py_scope.

Lemma short_string_sender_is_not_stored_witness :
  exists d',
    payload (JStr (py "สมชาย")) = JDict d' /\ d' !! py "sender" = Some (JStr (py "สมชาย"))
    /\ forall d'', d'' !! py "sender" = d' !! py "sender" ->
         save_parcel_to_db (fun r => Returns r) (fun _ => []) (JDict d'')
         = Returns (failure (fun _ => []) (Exception "AttributeError")).
Proof.
  apply (short_string_sender_is_not_stored (fun r => Returns r) (fun _ => [])
           (dict_set (dict_set ∅ "recipient" recipient_rayong) "sender" (JStr (py "สมชาย")))
           (py "สมชาย")
           (dict_set (dict_set (dict_set (dict_set ∅
              "name" (JStr (py "สมหญิง"))) "phone" (JStr (py "0898765432")))
              "address" (JStr [])) "province" (JStr (py "ระยอง")))).
  - vm_compute. reflexivity.
  - vm_compute. lia.
  - vm_compute. reflexivity.
  - intros E. apply (f_equal (fun m => m !! py "name")) in E. vm_compute in E. discriminate E.
  - vm_compute. reflexivity.
Defined.

End StoredSenderWitness.

(* --------------------------------------------------------------------- *)
(** ** The books of the pipeline *)
(* --------------------------------------------------------------------- *)

Section PipelineBooks.
Import Process Pipeline.

Variable process_single_parcel : str -> ParcelResult.
Variable pick_and_place : json -> bool.

Local Abbreviation step := (step process_single_parcel pick_and_place).







End PipelineBooks.

Section PipelineBooksWitness.
Import Process Pipeline.


End PipelineBooksWitness.

(* --------------------------------------------------------------------- *)
(** ** The monitor of the image folder *)
(* --------------------------------------------------------------------- *)

Section MonitorFacts.
Import Process Pipeline.

Variable is_image : str -> bool.
Variable join : str -> str.

(** The file names the monitor has queued so far are those of its set,
    each once, and [images_captured] has counted them. *)
Lemma detect_queues path_exists (st : Monitor) filename names sh0 :
  filename ∉ st.1 ->
  NoDup names -> st.1 = list_to_set names ->
  items (ocr_queue st.2) = items (ocr_queue sh0) ++ map join names ->
  images_captured (Pipeline.stats st.2)
  = (images_captured (Pipeline.stats sh0) + length names)%nat ->
  let st' := detect join path_exists st filename in
  exists names',
    NoDup names' /\ st'.1 = list_to_set names'
    /\ items (ocr_queue st'.2) = items (ocr_queue sh0) ++ map join names'
    /\ images_captured (Pipeline.stats st'.2)
       = (images_captured (Pipeline.stats sh0) + length names')%nat
    /\ st.1 ⊆ st'.1 /\ st'.1 ⊆ {[filename]} ∪ st.1.
Proof.
  intros Hnew Hnd Hset Hq Hc. cbv zeta. unfold detect.
  destruct (path_exists (join filename)).
  - exists (names ++ [filename]). cbn [fst snd monitor_put ocr_queue q_put items
                                      Pipeline.stats images_captured].
    split.
    { apply NoDup_app. split; [exact Hnd|]. split; [|apply NoDup_singleton].
      intros x Hx Hx'. apply list_elem_of_singleton in Hx'. subst x.
      apply Hnew. rewrite Hset. now apply elem_of_list_to_set. }
    split.
    { rewrite Hset, list_to_set_app_L. cbn [list_to_set].
      rewrite (right_id_L ∅ (∪)). apply (comm_L (∪)). }
    split; [rewrite Hq, map_app, <- app_assoc; reflexivity|].
    split; [rewrite Hc, length_app; cbn [length]; lia|].
    split; [apply union_subseteq_r|reflexivity].
  - exists names. repeat (split; [assumption|]). split; [reflexivity|apply union_subseteq_r].
Qed.

Lemma detect_all_queues path_exists todo : forall (st : Monitor) names sh0,
  NoDup todo -> (forall f, f ∈ todo -> f ∉ st.1) ->
  NoDup names -> st.1 = list_to_set names ->
  items (ocr_queue st.2) = items (ocr_queue sh0) ++ map join names ->
  images_captured (Pipeline.stats st.2)
  = (images_captured (Pipeline.stats sh0) + length names)%nat ->
  let st' := foldl (detect join path_exists) st todo in
  exists names',
    NoDup names' /\ st'.1 = list_to_set names'
    /\ items (ocr_queue st'.2) = items (ocr_queue sh0) ++ map join names'
    /\ images_captured (Pipeline.stats st'.2)
       = (images_captured (Pipeline.stats sh0) + length names')%nat.
Proof.
  induction todo as [|f todo IH]; intros st names sh0 Hnd Hnew Hn Hset Hq Hc; cbv zeta.
  - now exists names.
  - cbn [foldl]. apply NoDup_cons in Hnd as [Hf Hnd].
    destruct (detect_queues path_exists st f names sh0) as (names1 & N1 & S1 & Q1 & C1 & _ & U1);
      try assumption.
    { apply Hnew. now left. }
    apply (IH _ names1 sh0); try assumption.
    intros g Hg Hin. apply U1 in Hin. apply elem_of_union in Hin as [Hin|Hin].
    + apply elem_of_singleton in Hin. now subst g.
    + apply (Hnew g); [now right|exact Hin].
Qed.

Lemma scan_queues listing path_exists (st : Monitor) names sh0 :
  NoDup names -> st.1 = list_to_set names ->
  items (ocr_queue st.2) = items (ocr_queue sh0) ++ map join names ->
  images_captured (Pipeline.stats st.2)
  = (images_captured (Pipeline.stats sh0) + length names)%nat ->
  let st' := scan is_image join listing path_exists st in
  exists names',
    NoDup names' /\ st'.1 = list_to_set names'
    /\ items (ocr_queue st'.2) = items (ocr_queue sh0) ++ map join names'
    /\ images_captured (Pipeline.stats st'.2)
       = (images_captured (Pipeline.stats sh0) + length names')%nat.
Proof.
  intros Hn Hset Hq Hc. cbv zeta. unfold scan.
  apply (detect_all_queues path_exists _ st names sh0); try assumption.
  - rewrite merge_sort_Permutation. apply NoDup_elements.
  - intros f Hf. rewrite merge_sort_Permutation in Hf. apply elem_of_elements in Hf.
    apply elem_of_difference in Hf. apply Hf.
Qed.

(** X26: over any number of passes, whatever the folder holds each time,
    the monitor queues no file name twice, and [images_captured] is the
    number of images it has queued. *)
Theorem monitor_queues_each_image_once passes sh :
  let st := monitor_new_images is_image join passes sh in
  exists names,
    NoDup names /\ st.1 = list_to_set names
    /\ items (ocr_queue st.2) = items (ocr_queue sh) ++ map join names
    /\ images_captured (Pipeline.stats st.2)
       = (images_captured (Pipeline.stats sh) + length names)%nat.
Proof.
  cbv zeta. unfold monitor_new_images.
  assert (H : forall (st : Monitor),
            (exists names, NoDup names /\ st.1 = list_to_set names
               /\ items (ocr_queue st.2) = items (ocr_queue sh) ++ map join names
               /\ images_captured (Pipeline.stats st.2)
                  = (images_captured (Pipeline.stats sh) + length names)%nat) ->
            let st' := foldl (fun st pass => scan is_image join pass.1 pass.2 st) st passes in
            exists names, NoDup names /\ st'.1 = list_to_set names
               /\ items (ocr_queue st'.2) = items (ocr_queue sh) ++ map join names
               /\ images_captured (Pipeline.stats st'.2)
                  = (images_captured (Pipeline.stats sh) + length names)%nat).
  { induction passes as [|pass passes IH]; intros st Hst; cbv zeta; [exact Hst|].
    cbn [foldl]. apply IH. destruct Hst as (names & Hn & Hs & Hq & Hc).
    now apply (scan_queues _ _ st names sh). }
  apply H. exists []. cbn. split; [constructor|]. split; [reflexivity|].
  split; [now rewrite app_nil_r|lia].
Qed.

End MonitorFacts.

(* --------------------------------------------------------------------- *)
(** ** The configuration *)
(* --------------------------------------------------------------------- *)

Section ValidationFacts.
Import Process Pipeline.
Local Open Scope py_scope.

Variable makedirs : str -> option exn.

Lemma ensure_folder_cases folder c o c' :
  ensure_folder makedirs folder c = (o, c') ->
  (exists e, o = Raises e /\ c' = c)
  \/ (o = Returns tt /\ folder ∈ directories c'
      /\ directories c ⊆ directories c'
      /\ typhoon_api_key c' = typhoon_api_key c /\ db_api_url c' = db_api_url c
      /\ save_to_db c' = save_to_db c /\ image_folder c' = image_folder c
      /\ output_folder c' = output_folder c
      /\ ensure_folder makedirs folder c' = (Returns tt, c')).
Proof.
  unfold ensure_folder. rewrite !bind_get.
  destruct (bool_decide (folder ∈ directories c)) eqn:E.
  - intros [= <- <-]. right. rewrite E. apply bool_decide_eq_true in E.
    repeat (split; [first [reflexivity|assumption]|]). reflexivity.
  - destruct (makedirs folder) as [e|].
    + intros [= <- <-]. left. now exists e.
    + intros [= <- <-]. right. cbn [add_directory directories typhoon_api_key db_api_url
                                      save_to_db image_folder output_folder].
      assert (Hin : folder ∈ {[folder]} ∪ directories c)
        by (apply elem_of_union_l, elem_of_singleton; reflexivity).
      rewrite (bool_decide_eq_true_2 _ Hin).
      split; [reflexivity|]. split; [exact Hin|]. split; [apply union_subseteq_r|].
      repeat (split; [reflexivity|]). reflexivity.
Qed.

(** X27: when [validate_configuration] returns, the two folders exist and
    the database is never left switched on without a URL. It gives
    [True] exactly when the key is there and the database, if asked for,
    has a URL. Without the URL it switches the database off and still
    gives [False]; called again on what it left, it gives [True] as soon
    as the key is there. *)
Theorem validate_configuration_settles c b c' :
  validate_configuration makedirs c = (Returns b, c') ->
  (b = present (typhoon_api_key c)
       && (negb (save_to_db c) || present (db_api_url c)))
  /\ save_to_db c' = save_to_db c && present (db_api_url c)
  /\ image_folder c ∈ directories c' /\ output_folder c ∈ directories c'
  /\ validate_configuration makedirs c' = (Returns (present (typhoon_api_key c)), c').
Proof.
  unfold validate_configuration at 1. rewrite bind_get.
  set (errors := if present (typhoon_api_key c) then [] else [NO_KEY]).
  set (c1 := if save_to_db c && negb (present (db_api_url c))
             then set_save_to_db false c else c).
  set (errors1 := if save_to_db c && negb (present (db_api_url c))
                  then errors ++ [NO_URL] else errors).
  assert (E1 : (if save_to_db c then
                  if present (db_api_url c) then ret errors
                  else modify (set_save_to_db false) ;; ret (errors ++ [NO_URL])
                else ret errors) c = (Returns errors1, c1)).
  { subst c1 errors1. destruct (save_to_db c); [|reflexivity].
    destruct (present (db_api_url c)); reflexivity. }
  rewrite (bind_returns _ _ _ _ _ E1).
  destruct (ensure_folder makedirs (image_folder c) c1) as [o2 c2] eqn:E2.
  destruct (ensure_folder_cases _ _ _ _ E2)
    as [(e & -> & _)|(-> & I2 & S2 & K2 & U2 & D2 & F2 & O2 & R2)].
  { unfold bind at 1. rewrite E2. discriminate. }
  rewrite (bind_returns _ _ _ _ _ E2).
  destruct (ensure_folder makedirs (output_folder c) c2) as [o3 c3] eqn:E3.
  destruct (ensure_folder_cases _ _ _ _ E3)
    as [(e & -> & _)|(-> & I3 & S3 & K3 & U3 & D3 & F3 & O3 & R3)].
  { unfold bind at 1. rewrite E3. discriminate. }
  rewrite (bind_returns _ _ _ _ _ E3). unfold ret. intros [= <- <-].
  assert (Hc1 : typhoon_api_key c1 = typhoon_api_key c /\ db_api_url c1 = db_api_url c
                /\ image_folder c1 = image_folder c /\ output_folder c1 = output_folder c
                /\ save_to_db c1 = save_to_db c && present (db_api_url c)).
  { subst c1. destruct (save_to_db c) eqn:Es, (present (db_api_url c)) eqn:Ep; cbn;
      repeat split; exact Es. }
  destruct Hc1 as (K1 & U1 & F1 & O1 & D1).
  split.
  { subst errors1 errors. destruct (present (typhoon_api_key c)), (save_to_db c),
      (present (db_api_url c)); reflexivity. }
  split; [now rewrite D3, D2|].
  split; [now apply S3|]. split; [exact I3|].
  (* the second call *)
  unfold validate_configuration. rewrite bind_get.
  rewrite K3, K2, K1, D3, D2, D1, U3, U2, U1, F3, F2, F1, O3, O2, O1.
  assert (E4 : (if save_to_db c && present (db_api_url c) then
                  if present (db_api_url c) then ret errors
                  else modify (set_save_to_db false) ;; ret (errors ++ [NO_URL])
                else ret errors) c3 = (Returns errors, c3)).
  { destruct (save_to_db c); [|reflexivity]. destruct (present (db_api_url c)); reflexivity. }
  fold errors. rewrite (bind_returns _ _ _ _ _ E4).
  assert (R2' : ensure_folder makedirs (image_folder c) c3 = (Returns tt, c3)).
  { unfold ensure_folder. rewrite bind_get.
    now rewrite (bool_decide_eq_true_2 _ (S3 _ I2)). }
  rewrite (bind_returns _ _ _ _ _ R2'), (bind_returns _ _ _ _ _ R3). unfold ret.
  subst errors. destruct (present (typhoon_api_key c)); reflexivity.
Qed.

End ValidationFacts.

Section ValidationWitness.
Import Process Pipeline.

(** The configuration of [main] with no [.env] file beside it but for
    the key: the database asked for, no URL. *)
Lemma validate_configuration_settles_witness :
  let c := {| typhoon_api_key := Some (py "sk-0000"); db_api_url := None;
              save_to_db := true; image_folder := py "parcel_images";
              output_folder := py "parcel_results"; directories := ∅ |} in
  let c' := (validate_configuration (fun _ => None) c).2 in
  (false = present (typhoon_api_key c)
             && (negb (save_to_db c) || present (db_api_url c)))
  /\ save_to_db c' = save_to_db c && present (db_api_url c)
  /\ image_folder c ∈ directories c' /\ output_folder c ∈ directories c'
  /\ validate_configuration (fun _ => None) c'
     = (Returns (present (typhoon_api_key c)), c').
Proof.
  cbv zeta.
  apply (validate_configuration_settles (fun _ => None)
           {| typhoon_api_key := Some (py "sk-0000"); db_api_url := None;
              save_to_db := true; image_folder := py "parcel_images";
              output_folder := py "parcel_results"; directories := ∅ |}).
  reflexivity.
Defined.

End ValidationWitness.
